(** * Transformer architecture notebook: a shallow embedding

    The notebook [transformer_architecture.ipynb] builds the encoder-decoder
    Transformer from TensorFlow and NumPy primitives.  This development
    embeds its functions and classes and proves properties of them.

    Conventions of the embedding.
    - A tensor is its shape together with its element function
      ([tensor A]); integer tensors carry [Z], floating-point tensors carry
      [R].  Floating-point values are idealised as real numbers, so a cast
      between float widths is the identity on values.
    - Python exceptions and TensorFlow errors are values of [exn]; every
      operation that can fail returns a [result].
    - Sizes and counts are [nat]; token ids are [Z].
    - Layer variables (kernels, biases, embedding tables, dropout draws),
      which Keras creates on the first call from random initialisers, are
      explicit fields of the layer records and arguments of the
      constructors.
    - The argument checks of the Keras constructors and of the embedding
      lookup are not part of the embedding: [Embedding] refuses an empty
      vocabulary and a zero output dimension, [Dropout] a rate outside
      [[0, 1]] (and a rate of 1 when it is applied in training), and on CPU
      the lookup of an id outside the vocabulary raises, where the embedding
      reads zeros as the GPU kernel does.  The theorems that assert that an
      encoder, a decoder or a Transformer is constructed or returns state
      the conditions of the library as hypotheses ([keras_accepts],
      [dropout_applies], [ids_in_vocabulary]).
    - Real numbers have no NaN, no underflow and no absorption.  In float32
      a depth of zero gives NaN scores, a row whose keys are all masked
      gives uniform weights (the scores are absorbed into [-1e9]) and a
      masked key gets the weight 0 exactly.  The theorems that these
      effects would falsify state the matching conditions: a positive
      depth, masks with entries in [[0, 1]] ([mask_in_unit_interval]),
      ranges as closed intervals, and the entry formula of the weights only
      for the rows that have an unmasked key ([row_has_unmasked_key]). *)

From Stdlib Require Import String Ascii DecimalString DecimalNat Decimal.
From Stdlib Require Import List ZArith Reals Lra Lia Bool Arith.
Import ListNotations.

Set Implicit Arguments.

(** ** Exceptions *)

Inductive exn : Type :=
| AssertionError
| ZeroDivisionError
| IndexError
| InvalidArgumentError.

Inductive result (A : Type) : Type :=
| Ok (a : A)
| Raise (e : exn).

Arguments Ok {A} a.
Arguments Raise {A} e.

Definition bind {A B : Type} (c : result A) (k : A -> result B) : result B :=
  match c with
  | Ok a => k a
  | Raise e => Raise e
  end.

Notation "x <- c ;; k" := (bind c (fun x => k))
  (at level 61, c at next level, right associativity).
Notation "' p <- c ;; k" := (bind c (fun x => match x with p => k end))
  (at level 61, p pattern, c at next level, right associativity).

Definition is_ok {A : Type} (r : result A) : bool :=
  match r with Ok _ => true | Raise _ => false end.

Definition assert (b : bool) : result unit :=
  if b then Ok tt else Raise AssertionError.

(** Python's [%] and [//] on non-negative integers. *)
Definition py_mod (a b : nat) : result nat :=
  if b =? 0 then Raise ZeroDivisionError else Ok (a mod b).

Definition py_floordiv (a b : nat) : result nat :=
  if b =? 0 then Raise ZeroDivisionError else Ok (a / b).

(** [[f(x) for x in xs]] with a body that may raise. *)
Fixpoint mapM {A B : Type} (f : A -> result B) (xs : list A) : result (list B) :=
  match xs with
  | [] => Ok []
  | x :: xs' =>
      y <- f x ;;
      ys <- mapM f xs' ;;
      Ok (y :: ys)
  end.

(** [xs[i]] *)
Definition list_get {A : Type} (xs : list A) (i : nat) : result A :=
  match nth_error xs i with
  | Some x => Ok x
  | None => Raise IndexError
  end.

(** ** Tensors *)

Record tensor (A : Type) : Type := mkTensor {
  shape : list nat;
  elem : list nat -> A
}.

Arguments mkTensor {A} shape elem.

Definition rank {A : Type} (t : tensor A) : nat := length (shape t).

Definition prod_list (s : list nat) : nat := fold_right Nat.mul 1 s.

(** Finite sums of reals: [rsum n f] is [f 0 + ... + f (n-1)]. *)
Fixpoint rsum (n : nat) (f : nat -> R) : R :=
  match n with
  | 0 => 0%R
  | S n' => (rsum n' f + f n')%R
  end.

(** A rank-2 tensor read as a list of rows. *)
Definition to_rows {A : Type} (t : tensor A) : result (list (list A)) :=
  match shape t with
  | [m; n] =>
      Ok (map (fun i => map (fun j => elem t [i; j]) (seq 0 n)) (seq 0 m))
  | _ => Raise InvalidArgumentError
  end.

Module Tensor.

(** Elementwise application of a unary function. *)
Definition tmap {A B : Type} (f : A -> B) (t : tensor A) : tensor B :=
  mkTensor (shape t) (fun idx => f (elem t idx)).

(** The broadcasting rule on one pair of dimensions. *)
Definition bcast_dim (x y : nat) : result nat :=
  if x =? y then Ok x
  else if x =? 1 then Ok y
  else if y =? 1 then Ok x
  else Raise InvalidArgumentError.

(** Broadcasting of two shapes given innermost dimension first. *)
Fixpoint bcast_rev (a b : list nat) : result (list nat) :=
  match a, b with
  | [], r => Ok r
  | r, [] => Ok r
  | x :: a', y :: b' =>
      d <- bcast_dim x y ;;
      r <- bcast_rev a' b' ;;
      Ok (d :: r)
  end.

Definition broadcast_shapes (a b : list nat) : result (list nat) :=
  r <- bcast_rev (rev a) (rev b) ;;
  Ok (rev r).

(** The index of an operand of shape [s] that feeds position [idx] of the
    broadcast result: leading axes the operand lacks are dropped and axes
    of length 1 are read at 0. *)
Definition bcast_index (s idx : list nat) : list nat :=
  map (fun di => if fst di =? 1 then 0 else snd di)
      (combine s (skipn (length idx - length s) idx)).

Definition broadcast2 {A B C : Type} (f : A -> B -> C)
           (a : tensor A) (b : tensor B) : result (tensor C) :=
  s <- broadcast_shapes (shape a) (shape b) ;;
  Ok (mkTensor s (fun idx =>
        f (elem a (bcast_index (shape a) idx))
          (elem b (bcast_index (shape b) idx)))).

Definition add := broadcast2 Rplus.
Definition divide := broadcast2 Rdiv.

(** [np.arange(n)] *)
Definition arange (n : nat) : tensor Z :=
  mkTensor [n] (fun idx => Z.of_nat (nth 0 idx 0)).

(** [tf.ones(s)] *)
Definition ones (s : list nat) : tensor R :=
  mkTensor s (fun _ => 1%R).

(** Insertion of an axis of length 1 at position [axis], as indexing with
    [newaxis] does. *)
Definition expand_dims {A : Type} (axis : nat) (t : tensor A)
  : result (tensor A) :=
  if axis <=? rank t then
    Ok (mkTensor (firstn axis (shape t) ++ 1 :: skipn axis (shape t))
                 (fun idx => elem t (firstn axis idx ++ skipn (S axis) idx)))
  else Raise IndexError.

(** Membership of a column in the slice [start::step]. *)
Definition in_slice (start step c : nat) : bool :=
  (start <=? c) && ((c - start) mod step =? 0).

(** [t[:, start::step] = f(t[:, start::step])]: the in-place update of the
    selected columns of axis 1. *)
Definition assign_cols {A : Type} (start step : nat) (f : A -> A)
           (t : tensor A) : result (tensor A) :=
  if 2 <=? rank t then
    Ok (mkTensor (shape t)
          (fun idx => if in_slice start step (nth 1 idx 0)
                      then f (elem t idx) else elem t idx))
  else Raise IndexError.

(** [t[:, :n, :]] on a rank-3 tensor. *)
Definition slice_axis1 {A : Type} (n : nat) (t : tensor A)
  : result (tensor A) :=
  match shape t with
  | [a; b; c] => Ok (mkTensor [a; Nat.min n b; c] (elem t))
  | _ => Raise IndexError
  end.

(** [tf.shape(t)[k]]: the shape is itself a tensor, and an index outside it
    is an error of the slicing operation. *)
Definition dim {A : Type} (t : tensor A) (k : nat) : result nat :=
  match nth_error (shape t) k with
  | Some n => Ok n
  | None => Raise InvalidArgumentError
  end.

(** [tf.shape(t)[-1]] *)
Definition last_dim {A : Type} (t : tensor A) : result nat :=
  match rev (shape t) with
  | d :: _ => Ok d
  | [] => Raise IndexError
  end.

(** [tf.linalg.band_part(t, num_lower, num_upper)]: entry (m, n) of the
    two innermost axes is kept when
    [(num_lower < 0 || m - n <= num_lower) && (num_upper < 0 || n - m <= num_upper)]
    and is zero otherwise. *)
Definition in_band (num_lower num_upper : Z) (m n : nat) : bool :=
  ((num_lower <? 0)%Z || (Z.of_nat m - Z.of_nat n <=? num_lower)%Z)
  && ((num_upper <? 0)%Z || (Z.of_nat n - Z.of_nat m <=? num_upper)%Z).

Definition band_part (t : tensor R) (num_lower num_upper : Z)
  : result (tensor R) :=
  if 2 <=? rank t then
    Ok (mkTensor (shape t)
          (fun idx =>
             let r := length idx in
             if in_band num_lower num_upper (nth (r - 2) idx 0) (nth (r - 1) idx 0)
             then elem t idx else 0%R))
  else Raise InvalidArgumentError.

(** [tf.matmul(a, b, transpose_b=...)]: the product over the two innermost
    axes, the leading (batch) axes being broadcast. *)
Definition matmul (transpose_b : bool) (a b : tensor R) : result (tensor R) :=
  match rev (shape a), rev (shape b) with
  | ka :: m :: ba, y :: x :: bb =>
      let kb := if transpose_b then y else x in
      let n := if transpose_b then x else y in
      if ka =? kb then
        batch <- bcast_rev ba bb ;;
        Ok (mkTensor (rev batch ++ [m; n])
              (fun idx =>
                 let r := length idx in
                 let pre := firstn (r - 2) idx in
                 let i := nth (r - 2) idx 0 in
                 let j := nth (r - 1) idx 0 in
                 rsum ka (fun l =>
                   (elem a (bcast_index (rev ba) pre ++ [i; l]) *
                    elem b (bcast_index (rev bb) pre ++
                              (if transpose_b then [j; l] else [l; j])))%R)))
      else Raise InvalidArgumentError
  | _, _ => Raise InvalidArgumentError
  end.

(** [tf.nn.softmax(t, axis=-1)] *)
Definition softmax (t : tensor R) : result (tensor R) :=
  n <- last_dim t ;;
  Ok (mkTensor (shape t)
        (fun idx =>
           (exp (elem t idx) /
            rsum n (fun j => exp (elem t (removelast idx ++ [j]))))%R)).

(** [tf.transpose(t, perm=...)] *)
Definition is_perm (perm : list nat) (r : nat) : bool :=
  (length perm =? r) && forallb (fun k => existsb (Nat.eqb k) perm) (seq 0 r).

Fixpoint index_of (k : nat) (l : list nat) : nat :=
  match l with
  | [] => 0
  | x :: l' => if x =? k then 0 else S (index_of k l')
  end.

Definition transpose {A : Type} (perm : list nat) (t : tensor A)
  : result (tensor A) :=
  if is_perm perm (rank t) then
    Ok (mkTensor (map (fun p => nth p (shape t) 0) perm)
          (fun idx =>
             elem t (map (fun a => nth (index_of a perm) idx 0)
                         (seq 0 (rank t)))))
  else Raise InvalidArgumentError.

(** Row-major position of an index and its inverse. *)
Fixpoint ravel (s idx : list nat) : nat :=
  match s, idx with
  | _ :: s', i :: idx' => i * prod_list s' + ravel s' idx'
  | _, _ => 0
  end.

Fixpoint unravel (s : list nat) (k : nat) : list nat :=
  match s with
  | [] => []
  | d :: s' => (k / prod_list s') mod d :: unravel s' (k mod prod_list s')
  end.

(** [tf.reshape(t, sizes)], where at most one entry of [sizes] is [-1] and
    none is below it.  The missing dimension is inferred as TensorFlow does:
    [product] multiplies the positive entries of [sizes];
    [input_num_elements] multiplies the dimensions of the input, leaving out
    its zero dimensions when [sizes] itself has a zero; the missing
    dimension is their quotient, which must be exact unless a zero dimension
    was left out.  The resulting shape must have as many elements as the
    input, and the elements keep their row-major position. *)
Definition reshape_product (sizes : list Z) : nat :=
  fold_right (fun z acc => if (0 <? z)%Z then Z.to_nat z * acc else acc) 1 sizes.

Definition reshape_input_elements (sizes_has_zero_dim : bool) (s : list nat)
  : nat :=
  fold_right (fun d acc =>
                if (0 <? d) || negb sizes_has_zero_dim then d * acc else acc)
             1 s.

Definition reshape_shape (s : list nat) (sizes : list Z) : result (list nat) :=
  if 1 <? length (filter (Z.eqb (-1)) sizes) then Raise InvalidArgumentError
  else if existsb (fun z => (z <? -1)%Z) sizes then Raise InvalidArgumentError
  else
    let sizes_has_zero_dim := existsb (Z.eqb 0) sizes in
    let product := reshape_product sizes in
    let input_num_elements := reshape_input_elements sizes_has_zero_dim s in
    let input_has_zero_dim := sizes_has_zero_dim && existsb (Nat.eqb 0) s in
    let missing := input_num_elements / product in
    if existsb (Z.eqb (-1)) sizes && negb input_has_zero_dim
       && negb (product * missing =? input_num_elements)
    then Raise InvalidArgumentError
    else
      let s' := map (fun z => if (z =? -1)%Z then missing else Z.to_nat z) sizes in
      if prod_list s' =? prod_list s then Ok s'
      else Raise InvalidArgumentError.

Definition reshape {A : Type} (t : tensor A) (sizes : list Z)
  : result (tensor A) :=
  s' <- reshape_shape (shape t) sizes ;;
  Ok (mkTensor s' (fun idx => elem t (unravel (shape t) (ravel s' idx)))).

End Tensor.

(** [tf.cast(t, tf.float32)] of a floating-point tensor: a change of
    precision, the identity on the idealised values. *)
Definition tf_cast_float32 (t : tensor R) : tensor R := t.

(** [tf.cast(t, tf.float32)] of a boolean tensor. *)
Definition tf_cast_bool_float32 (t : tensor bool) : tensor R :=
  Tensor.tmap (fun b : bool => if b then 1%R else 0%R) t.

(** [tf.math.equal(t, c)] *)
Definition tf_equal (t : tensor Z) (c : Z) : tensor bool :=
  Tensor.tmap (fun x => (x =? c)%Z) t.

(** ** Positional encoding *)

(** [pos / np.power(10000, (2 * (i//2) / d))] *)
Definition get_angles (pos i : tensor Z) (d : nat) : result (tensor R) :=
  Tensor.divide
    (Tensor.tmap IZR pos)
    (Tensor.tmap (Rpower 10000)
       (Tensor.tmap (fun x => (IZR (2 * (x / 2)) / INR d)%R) i)).

Definition get_positional_encodings (num_words embed_dim : nat)
  : result (tensor R) :=
  pos <- Tensor.expand_dims 1 (Tensor.arange num_words) ;;
  i <- Tensor.expand_dims 0 (Tensor.arange embed_dim) ;;
  angles_rad <- get_angles pos i embed_dim ;;
  angles_rad <- Tensor.assign_cols 0 2 sin angles_rad ;;
  angles_rad <- Tensor.assign_cols 1 2 cos angles_rad ;;
  pos_encoding <- Tensor.expand_dims 0 angles_rad ;;
  Ok (tf_cast_float32 pos_encoding).

(** ** Masking *)

Definition create_padding_mask (seq : tensor Z) : result (tensor R) :=
  let seq := tf_cast_bool_float32 (tf_equal seq 0) in
  (* seq[:, tf.newaxis, tf.newaxis, :] *)
  if 2 <=? rank seq then
    s <- Tensor.expand_dims 1 seq ;;
    Tensor.expand_dims 1 s
  else Raise InvalidArgumentError.

Definition create_look_ahead_mask (size : nat) : result (tensor R) :=
  band <- Tensor.band_part (Tensor.ones [size; size]) (-1) 0 ;;
  let mask := Tensor.tmap (fun v => (1 - v)%R) band in
  Ok mask.

(** ** Keras layers *)

Module Keras.

Inductive activation : Type := Linear | Relu | Softmax.

(** [Dense(units, activation=...)] *)
Module Dense.
Record vars : Type := mkVars {
  kernel : nat -> nat -> R;
  bias : nat -> R
}.

Record t : Type := mk {
  units : nat;
  activation_fn : activation;
  variables : vars
}.

Definition call (l : t) (x : tensor R) : result (tensor R) :=
  if 2 <=? rank x then
    d <- Tensor.last_dim x ;;
    let y :=
      mkTensor (removelast (shape x) ++ [units l])
        (fun idx =>
           (rsum d (fun k => elem x (removelast idx ++ [k])
                             * kernel (variables l) k (last idx 0%nat))
            + bias (variables l) (last idx 0%nat))%R) in
    match activation_fn l with
    | Linear => Ok y
    | Relu => Ok (Tensor.tmap (Rmax 0) y)
    | Softmax => Tensor.softmax y
    end
  else Raise InvalidArgumentError.
End Dense.

(** [tf.keras.Sequential([...])] of dense layers. *)
Module Sequential.
Definition t : Type := list Dense.t.

Fixpoint call (ls : t) (x : tensor R) : result (tensor R) :=
  match ls with
  | [] => Ok x
  | l :: ls' => y <- Dense.call l x ;; call ls' y
  end.
End Sequential.

(** [LayerNormalization(epsilon=...)], over the last axis. *)
Module LayerNormalization.
Record vars : Type := mkVars {
  gamma : nat -> R;
  beta : nat -> R
}.

Record t : Type := mk {
  epsilon : R;
  variables : vars
}.

Definition call (l : t) (x : tensor R) : result (tensor R) :=
  n <- Tensor.last_dim x ;;
  let row idx j := elem x (removelast idx ++ [j]) in
  let mean idx := (rsum n (row idx) / INR n)%R in
  let var idx :=
    (rsum n (fun j => (row idx j - mean idx) * (row idx j - mean idx))
     / INR n)%R in
  Ok (mkTensor (shape x)
        (fun idx =>
           ((elem x idx - mean idx) / sqrt (var idx + epsilon l)
            * gamma (variables l) (last idx 0%nat)
            + beta (variables l) (last idx 0%nat))%R)).
End LayerNormalization.

(** [Dropout(rate)]: the identity outside training; in training the
    entries the random draw [keep] drops are zeroed and the others are
    scaled by [1 / (1 - rate)]. *)
Module Dropout.
Record t : Type := mk {
  rate : R;
  keep : list nat -> bool
}.

Definition call (l : t) (x : tensor R) (training : bool) : tensor R :=
  if training then
    mkTensor (shape x)
      (fun idx => if keep l idx then (elem x idx / (1 - rate l))%R else 0%R)
  else x.
End Dropout.

(** [Embedding(input_dim, output_dim)]: a table lookup; an id outside the
    table reads zeros, as on GPU (on CPU the lookup raises: the statements
    that a call returns assume [ids_in_vocabulary]). *)
Module Embedding.
Record t : Type := mk {
  input_dim : nat;
  output_dim : nat;
  table : Z -> nat -> R
}.

Definition call (l : t) (ids : tensor Z) : tensor R :=
  mkTensor (shape ids ++ [output_dim l])
    (fun idx =>
       let id := elem ids (removelast idx) in
       if ((0 <=? id) && (id <? Z.of_nat (input_dim l)))%Z
       then table l id (last idx 0%nat) else 0%R).
End Embedding.

End Keras.

(** ** Scaled dot product *)

Definition scaled_dot_product_attention
           (q k v : tensor R) (mask : option (tensor R))
  : result (tensor R * tensor R) :=
  score_matrix <- Tensor.matmul true q k ;;
  dk <- Tensor.last_dim k ;;
  let dk := INR dk in
  let scaled_attention_scores :=
    Tensor.tmap (fun s => (s / sqrt dk)%R) score_matrix in
  scaled_attention_scores <-
    match mask with
    | Some mask =>
        Tensor.add scaled_attention_scores
                   (Tensor.tmap (fun m => (m * -1e9)%R) mask)
    | None => Ok scaled_attention_scores
    end ;;
  attention_weights <- Tensor.softmax scaled_attention_scores ;;
  output <- Tensor.matmul false attention_weights v ;;
  Ok (output, attention_weights).

(** ** Multi-head attention layer *)

Module MultiHeadAttention.

Record vars : Type := mkVars {
  wq_vars : Keras.Dense.vars;
  wk_vars : Keras.Dense.vars;
  wv_vars : Keras.Dense.vars;
  dense_vars : Keras.Dense.vars
}.

Record t : Type := mk {
  num_heads : nat;
  d_model : nat;
  depth : nat;
  wq : Keras.Dense.t;
  wk : Keras.Dense.t;
  wv : Keras.Dense.t;
  dense : Keras.Dense.t
}.

Definition init (d_model num_heads : nat) (w : vars) : result t :=
  r <- py_mod d_model num_heads ;;
  _ <- assert (r =? 0) ;;
  depth <- py_floordiv d_model num_heads ;;
  Ok (mk num_heads d_model depth
         (Keras.Dense.mk d_model Keras.Linear (wq_vars w))
         (Keras.Dense.mk d_model Keras.Linear (wk_vars w))
         (Keras.Dense.mk d_model Keras.Linear (wv_vars w))
         (Keras.Dense.mk d_model Keras.Linear (dense_vars w))).

Definition split_heads (self : t) (x : tensor R) (batch_size : nat)
  : result (tensor R) :=
  x <- Tensor.reshape x [Z.of_nat batch_size; (-1)%Z;
                         Z.of_nat (num_heads self); Z.of_nat (depth self)] ;;
  Tensor.transpose [0; 2; 1; 3] x.

Definition call (self : t) (v k q : tensor R) (mask : option (tensor R))
  : result (tensor R * tensor R) :=
  batch_size <- Tensor.dim q 0 ;;
  q <- Keras.Dense.call (wq self) q ;;
  k <- Keras.Dense.call (wk self) k ;;
  v <- Keras.Dense.call (wv self) v ;;
  q <- split_heads self q batch_size ;;
  k <- split_heads self k batch_size ;;
  v <- split_heads self v batch_size ;;
  ' (scaled_attention, attention_weights) <-
    scaled_dot_product_attention q k v mask ;;
  scaled_attention <- Tensor.transpose [0; 2; 1; 3] scaled_attention ;;
  concat_attention <-
    Tensor.reshape scaled_attention
                   [Z.of_nat batch_size; (-1)%Z; Z.of_nat (d_model self)] ;;
  output <- Keras.Dense.call (dense self) concat_attention ;;
  Ok (output, attention_weights).

End MultiHeadAttention.

(** ** Feed forward network *)

Record FullyConnectedVars : Type := mkFullyConnectedVars {
  hidden_vars : Keras.Dense.vars;
  out_vars : Keras.Dense.vars
}.

Definition FullyConnected (embedding_dim fully_connected_dim : nat)
           (w : FullyConnectedVars) : Keras.Sequential.t :=
  let ffn := [ Keras.Dense.mk fully_connected_dim Keras.Relu (hidden_vars w);
               Keras.Dense.mk embedding_dim Keras.Linear (out_vars w) ] in
  ffn.

(** ** Transformer encoder layer *)

Module EncoderLayer.

Record vars : Type := mkVars {
  mha_vars : MultiHeadAttention.vars;
  ffn_vars : FullyConnectedVars;
  layernorm1_vars : Keras.LayerNormalization.vars;
  layernorm2_vars : Keras.LayerNormalization.vars;
  dropout1_keep : list nat -> bool;
  dropout2_keep : list nat -> bool
}.

Record t : Type := mk {
  mha : MultiHeadAttention.t;
  ffn : Keras.Sequential.t;
  layernorm1 : Keras.LayerNormalization.t;
  layernorm2 : Keras.LayerNormalization.t;
  dropout1 : Keras.Dropout.t;
  dropout2 : Keras.Dropout.t
}.

Definition init (embedding_dim num_heads fully_connected_dim : nat)
           (dropout_rate layernorm_eps : R) (w : vars) : result t :=
  mha <- MultiHeadAttention.init embedding_dim num_heads (mha_vars w) ;;
  let ffn := FullyConnected embedding_dim fully_connected_dim (ffn_vars w) in
  Ok (mk mha ffn
         (Keras.LayerNormalization.mk layernorm_eps (layernorm1_vars w))
         (Keras.LayerNormalization.mk layernorm_eps (layernorm2_vars w))
         (Keras.Dropout.mk dropout_rate (dropout1_keep w))
         (Keras.Dropout.mk dropout_rate (dropout2_keep w))).

Definition call (self : t) (x : tensor R) (training : bool)
           (mask : option (tensor R)) : result (tensor R) :=
  ' (self_attn_output, _) <- MultiHeadAttention.call (mha self) x x x mask ;;
  let self_attn_output :=
    Keras.Dropout.call (dropout1 self) self_attn_output training in
  s <- Tensor.add x self_attn_output ;;
  mult_attn_out <- Keras.LayerNormalization.call (layernorm1 self) s ;;
  ffn_output <- Keras.Sequential.call (ffn self) mult_attn_out ;;
  let ffn_output := Keras.Dropout.call (dropout2 self) ffn_output training in
  s <- Tensor.add ffn_output mult_attn_out ;;
  encoder_layer_out <- Keras.LayerNormalization.call (layernorm2 self) s ;;
  Ok encoder_layer_out.

End EncoderLayer.

(** [for i in range(n): acc = body(i, acc)] with a body that may raise. *)
Fixpoint for_range_from {St : Type} (start n : nat)
         (body : nat -> St -> result St) (acc : St) : result St :=
  match n with
  | 0 => Ok acc
  | S n' => acc' <- body start acc ;; for_range_from (S start) n' body acc'
  end.

Definition for_range {St : Type} (n : nat) (body : nat -> St -> result St)
           (acc : St) : result St :=
  for_range_from 0 n body acc.

(** ** Transformer encoder *)

Module Encoder.

Record vars : Type := mkVars {
  embedding_table : Z -> nat -> R;
  layer_vars : nat -> EncoderLayer.vars;
  dropout_keep : list nat -> bool
}.

Record t : Type := mk {
  embedding_dim : nat;
  num_layers : nat;
  embedding : Keras.Embedding.t;
  pos_encoding : tensor R;
  enc_layers : list EncoderLayer.t;
  dropout : Keras.Dropout.t
}.

Definition init (num_layers embedding_dim num_heads fully_connected_dim
                 input_vocab_size maximum_position_encoding : nat)
           (dropout_rate layernorm_eps : R) (w : vars) : result t :=
  let embedding :=
    Keras.Embedding.mk input_vocab_size embedding_dim (embedding_table w) in
  pos_encoding <-
    get_positional_encodings maximum_position_encoding embedding_dim ;;
  enc_layers <-
    mapM (fun k => EncoderLayer.init embedding_dim num_heads
                     fully_connected_dim dropout_rate layernorm_eps
                     (layer_vars w k))
         (seq 0 num_layers) ;;
  Ok (mk embedding_dim num_layers embedding pos_encoding enc_layers
         (Keras.Dropout.mk dropout_rate (dropout_keep w))).

Definition call (self : t) (x : tensor Z) (training : bool)
           (mask : option (tensor R)) : result (tensor R) :=
  seq_len <- Tensor.dim x 1 ;;
  let x := Keras.Embedding.call (embedding self) x in
  let x := Tensor.tmap (fun v => (v * sqrt (INR (embedding_dim self)))%R) x in
  pe <- Tensor.slice_axis1 seq_len (pos_encoding self) ;;
  x <- Tensor.add x pe ;;
  let x := Keras.Dropout.call (dropout self) x training in
  for_range (num_layers self)
    (fun i x =>
       layer <- list_get (enc_layers self) i ;;
       EncoderLayer.call layer x training mask)
    x.

End Encoder.

(** ** Transformer decoder layer *)

Module DecoderLayer.

Record vars : Type := mkVars {
  mha1_vars : MultiHeadAttention.vars;
  mha2_vars : MultiHeadAttention.vars;
  ffn_vars : FullyConnectedVars;
  layernorm1_vars : Keras.LayerNormalization.vars;
  layernorm2_vars : Keras.LayerNormalization.vars;
  layernorm3_vars : Keras.LayerNormalization.vars;
  dropout1_keep : list nat -> bool;
  dropout2_keep : list nat -> bool;
  dropout3_keep : list nat -> bool
}.

Record t : Type := mk {
  mha1 : MultiHeadAttention.t;
  mha2 : MultiHeadAttention.t;
  ffn : Keras.Sequential.t;
  layernorm1 : Keras.LayerNormalization.t;
  layernorm2 : Keras.LayerNormalization.t;
  layernorm3 : Keras.LayerNormalization.t;
  dropout1 : Keras.Dropout.t;
  dropout2 : Keras.Dropout.t;
  dropout3 : Keras.Dropout.t
}.

Definition init (embedding_dim num_heads fully_connected_dim : nat)
           (dropout_rate layernorm_eps : R) (w : vars) : result t :=
  mha1 <- MultiHeadAttention.init embedding_dim num_heads (mha1_vars w) ;;
  mha2 <- MultiHeadAttention.init embedding_dim num_heads (mha2_vars w) ;;
  let ffn := FullyConnected embedding_dim fully_connected_dim (ffn_vars w) in
  Ok (mk mha1 mha2 ffn
         (Keras.LayerNormalization.mk layernorm_eps (layernorm1_vars w))
         (Keras.LayerNormalization.mk layernorm_eps (layernorm2_vars w))
         (Keras.LayerNormalization.mk layernorm_eps (layernorm3_vars w))
         (Keras.Dropout.mk dropout_rate (dropout1_keep w))
         (Keras.Dropout.mk dropout_rate (dropout2_keep w))
         (Keras.Dropout.mk dropout_rate (dropout3_keep w))).

Definition call (self : t) (x enc_output : tensor R) (training : bool)
           (look_ahead_mask padding_mask : option (tensor R))
  : result (tensor R * tensor R * tensor R) :=
  ' (attn1, attn_weights_block1) <-
    MultiHeadAttention.call (mha1 self) x x x look_ahead_mask ;;
  let attn1 := Keras.Dropout.call (dropout1 self) attn1 training in
  s <- Tensor.add attn1 x ;;
  out1 <- Keras.LayerNormalization.call (layernorm1 self) s ;;
  ' (attn2, attn_weights_block2) <-
    MultiHeadAttention.call (mha2 self) enc_output enc_output out1
                            padding_mask ;;
  let attn2 := Keras.Dropout.call (dropout2 self) attn2 training in
  s <- Tensor.add attn2 out1 ;;
  out2 <- Keras.LayerNormalization.call (layernorm2 self) s ;;
  ffn_output <- Keras.Sequential.call (ffn self) out2 ;;
  let ffn_output := Keras.Dropout.call (dropout3 self) ffn_output training in
  s <- Tensor.add ffn_output out2 ;;
  out3 <- Keras.LayerNormalization.call (layernorm3 self) s ;;
  Ok (out3, attn_weights_block1, attn_weights_block2).

End DecoderLayer.

(** ** Python dictionaries with string keys

    A [dict] keeps its keys in insertion order; assigning to a key that is
    present replaces the value in place, assigning to a new key appends. *)

Definition dict (V : Type) : Type := list (string * V).

Fixpoint dict_set {V : Type} (d : dict V) (k : string) (v : V) : dict V :=
  match d with
  | [] => [(k, v)]
  | (k', v') :: d' =>
      if String.eqb k' k then (k', v) :: d' else (k', v') :: dict_set d' k v
  end.

Definition dict_keys {V : Type} (d : dict V) : list string := map fst d.

(** [str(n)] of a non-negative integer, as ['{}'.format(n)] prints it. *)
Definition str_of_nat (n : nat) : string :=
  NilEmpty.string_of_uint (Nat.to_uint n).

(** ['decoder_layer{}_block1_self_att'.format(n)] *)
Definition block1_key (n : nat) : string :=
  ("decoder_layer" ++ str_of_nat n ++ "_block1_self_att")%string.

(** ['decoder_layer{}_block2_decenc_att'.format(n)] *)
Definition block2_key (n : nat) : string :=
  ("decoder_layer" ++ str_of_nat n ++ "_block2_decenc_att")%string.

(** ** Transformer decoder *)

Module Decoder.

Record vars : Type := mkVars {
  embedding_table : Z -> nat -> R;
  layer_vars : nat -> DecoderLayer.vars;
  dropout_keep : list nat -> bool
}.

Record t : Type := mk {
  embedding_dim : nat;
  num_layers : nat;
  embedding : Keras.Embedding.t;
  pos_encoding : tensor R;
  dec_layers : list DecoderLayer.t;
  dropout : Keras.Dropout.t
}.

Definition init (num_layers embedding_dim num_heads fully_connected_dim
                 target_vocab_size maximum_position_encoding : nat)
           (dropout_rate layernorm_eps : R) (w : vars) : result t :=
  let embedding :=
    Keras.Embedding.mk target_vocab_size embedding_dim (embedding_table w) in
  pos_encoding <-
    get_positional_encodings maximum_position_encoding embedding_dim ;;
  dec_layers <-
    mapM (fun k => DecoderLayer.init embedding_dim num_heads
                     fully_connected_dim dropout_rate layernorm_eps
                     (layer_vars w k))
         (seq 0 num_layers) ;;
  Ok (mk embedding_dim num_layers embedding pos_encoding dec_layers
         (Keras.Dropout.mk dropout_rate (dropout_keep w))).

(** The body of the loop over the decoder layers. *)
Definition layer_step (self : t) (enc_output : tensor R) (training : bool)
           (look_ahead_mask padding_mask : option (tensor R))
           (i : nat) (st : tensor R * dict (tensor R))
  : result (tensor R * dict (tensor R)) :=
  let (x, attention_weights) := st in
  layer <- list_get (dec_layers self) i ;;
  ' (x, block1, block2) <-
    DecoderLayer.call layer x enc_output training
                      look_ahead_mask padding_mask ;;
  let attention_weights :=
    dict_set attention_weights (block1_key (i + 1)) block1 in
  let attention_weights :=
    dict_set attention_weights (block2_key (i + 1)) block2 in
  Ok (x, attention_weights).

Definition call (self : t) (x : tensor Z) (enc_output : tensor R)
           (training : bool)
           (look_ahead_mask padding_mask : option (tensor R))
  : result (tensor R * dict (tensor R)) :=
  seq_len <- Tensor.dim x 1 ;;
  let attention_weights : dict (tensor R) := [] in
  let x := Keras.Embedding.call (embedding self) x in
  let x := Tensor.tmap (fun v => (v * sqrt (INR (embedding_dim self)))%R) x in
  pe <- Tensor.slice_axis1 seq_len (pos_encoding self) ;;
  x <- Tensor.add x pe ;;
  let x := Keras.Dropout.call (dropout self) x training in
  for_range (num_layers self)
    (layer_step self enc_output training look_ahead_mask padding_mask)
    (x, attention_weights).

End Decoder.

(** ** Transformer (encoder + decoder) *)

Module Transformer.

Record vars : Type := mkVars {
  encoder_vars : Encoder.vars;
  decoder_vars : Decoder.vars;
  final_layer_vars : Keras.Dense.vars
}.

Record t : Type := mk {
  encoder : Encoder.t;
  decoder : Decoder.t;
  final_layer : Keras.Dense.t
}.

Definition init (num_layers embedding_dim num_heads fully_connected_dim
                 input_vocab_size target_vocab_size
                 max_positional_encoding_input
                 max_positional_encoding_target : nat)
           (dropout_rate layernorm_eps : R) (w : vars) : result t :=
  encoder <- Encoder.init num_layers embedding_dim num_heads
               fully_connected_dim input_vocab_size
               max_positional_encoding_input dropout_rate layernorm_eps
               (encoder_vars w) ;;
  decoder <- Decoder.init num_layers embedding_dim num_heads
               fully_connected_dim target_vocab_size
               max_positional_encoding_target dropout_rate layernorm_eps
               (decoder_vars w) ;;
  Ok (mk encoder decoder
         (Keras.Dense.mk target_vocab_size Keras.Softmax (final_layer_vars w))).

Definition call (self : t) (inp tar : tensor Z) (training : bool)
           (enc_padding_mask look_ahead_mask dec_padding_mask
            : option (tensor R))
  : result (tensor R * dict (tensor R)) :=
  enc_output <- Encoder.call (encoder self) inp training enc_padding_mask ;;
  ' (dec_output, attention_weights) <-
    Decoder.call (decoder self) tar enc_output training
                 look_ahead_mask dec_padding_mask ;;
  final_output <- Keras.Dense.call (final_layer self) dec_output ;;
  Ok (final_output, attention_weights).

End Transformer.

(** ** The vocabulary of the specification *)

(** The angle of position [p] and dimension index [i]:
    [p / 10000^(2*floor(i/2)/feature_dim)]. *)
Definition angle_formula (feature_dim p i : nat) : R :=
  (INR p / Rpower 10000 (2 * INR (i / 2) / INR feature_dim))%R.

(** The attention of the spec (4.3): [raw_scores = query . key^T];
    [scaled_scores = raw_scores / sqrt(depth)] with [depth] the last
    dimension of the query; the mask, if given, added as [mask * (-1e9)];
    [weights] the softmax over the key-length axis; [output = weights . value]. *)
Definition attend_spec (query key value : tensor R) (mask : option (tensor R))
  : result (tensor R * tensor R) :=
  raw_scores <- Tensor.matmul true query key ;;
  depth <- Tensor.last_dim query ;;
  let scaled_scores :=
    Tensor.tmap (fun s => (s / sqrt (INR depth))%R) raw_scores in
  scaled_scores <-
    match mask with
    | Some mask =>
        Tensor.add scaled_scores (Tensor.tmap (fun m => (m * -1e9)%R) mask)
    | None => Ok scaled_scores
    end ;;
  weights <- Tensor.softmax scaled_scores ;;
  output <- Tensor.matmul false weights value ;;
  Ok (output, weights).

(** The score of query row [i] against key row [j] for matrices, as the spec
    words it: the dot product over the depth, divided by [sqrt(depth)], with
    [mask * (-1e9)] added when a mask is supplied. *)
Definition attention_score (q k : tensor R) (mask : option (tensor R))
           (depth i j : nat) : R :=
  let raw := rsum depth (fun l => (elem q [i; l] * elem k [j; l])%R) in
  let scaled := (raw / sqrt (INR depth))%R in
  match mask with
  | Some m => (scaled + elem m [i; j] * -1e9)%R
  | None => scaled
  end.

(** The key-length dimension of a tensor: the last but one. *)
Definition key_length {A : Type} (t : tensor A) : result nat :=
  match rev (shape t) with
  | _ :: n :: _ => Ok n
  | _ => Raise IndexError
  end.

(** The multi-head attention of the spec (4.4), with its arguments in the
    contract order [(query, key, value, mask)]: the query projection is
    applied to [query], the key projection to [key], the value projection to
    [value]; then the heads are split, attention runs, and the heads are
    recombined and projected. *)
Definition multi_head_spec (self : MultiHeadAttention.t)
           (query key value : tensor R) (mask : option (tensor R))
  : result (tensor R * tensor R) :=
  batch_size <- Tensor.dim query 0 ;;
  q <- Keras.Dense.call (MultiHeadAttention.wq self) query ;;
  k <- Keras.Dense.call (MultiHeadAttention.wk self) key ;;
  v <- Keras.Dense.call (MultiHeadAttention.wv self) value ;;
  q <- MultiHeadAttention.split_heads self q batch_size ;;
  k <- MultiHeadAttention.split_heads self k batch_size ;;
  v <- MultiHeadAttention.split_heads self v batch_size ;;
  ' (scaled_attention, attention_weights) <-
    scaled_dot_product_attention q k v mask ;;
  scaled_attention <- Tensor.transpose [0; 2; 1; 3] scaled_attention ;;
  concat_attention <-
    Tensor.reshape scaled_attention
                   [Z.of_nat batch_size; (-1)%Z;
                    Z.of_nat (MultiHeadAttention.d_model self)] ;;
  output <- Keras.Dense.call (MultiHeadAttention.dense self) concat_attention ;;
  Ok (output, attention_weights).

(** The divisibility the configuration requires, [feature_dim % head_count
    == 0]: [head_count] divides [feature_dim]; nothing is divisible by
    zero. *)
Definition divisible_by (feature_dim head_count : nat) : Prop :=
  head_count <> 0 /\ Nat.divide head_count feature_dim.

(** The keys of the attention-weights collection in the order the spec
    gives: layer 1 self-attention block, layer 1 cross-attention block,
    layer 2 self-attention block, and so on up to layer [num_layers]. *)
Definition expected_keys (num_layers : nat) : list string :=
  flat_map (fun layer => [block1_key layer; block2_key layer])
           (seq 1 num_layers).

(** A mask fits attention scores whose axes before the key-length axis are
    [pre] (batch, heads, query length) when broadcasting the mask against the
    scores leaves those axes as they are (spec, 3: the mask must broadcast
    against the score shape). *)
Definition mask_fits (pre : list nat) (mask : option (tensor R)) : Prop :=
  match mask with
  | None => True
  | Some m => Tensor.broadcast_shapes pre (removelast (shape m)) = Ok pre
  end.

(** A mask is admissible for attention scores of shape [s] when it is absent
    or broadcasts into [s]. *)
Definition mask_ok (s : list nat) (mask : option (tensor R)) : Prop :=
  match mask with
  | None => True
  | Some m => Tensor.broadcast_shapes s (shape m) = Ok s
  end.

(** ** Layers as the constructors build them *)

(** A multi-head attention layer as the constructor builds it for the model
    dimension [d] and [h] heads. *)
Definition wf_mha (d h : nat) (l : MultiHeadAttention.t) : Prop :=
  MultiHeadAttention.num_heads l = h
  /\ MultiHeadAttention.d_model l = d
  /\ MultiHeadAttention.depth l * h = d
  /\ Keras.Dense.units (MultiHeadAttention.wq l) = d
  /\ Keras.Dense.units (MultiHeadAttention.wk l) = d
  /\ Keras.Dense.units (MultiHeadAttention.wv l) = d
  /\ Keras.Dense.units (MultiHeadAttention.dense l) = d.

(** An encoder layer as its constructor builds it. *)
Definition wf_encoder_layer (d h : nat) (l : EncoderLayer.t) : Prop :=
  wf_mha d h (EncoderLayer.mha l)
  /\ exists fc w, EncoderLayer.ffn l = FullyConnected d fc w.

(** An encoder as its constructor builds it. *)
Definition wf_encoder (d h max_pos : nat) (enc : Encoder.t) : Prop :=
  Encoder.embedding_dim enc = d
  /\ Keras.Embedding.output_dim (Encoder.embedding enc) = d
  /\ shape (Encoder.pos_encoding enc) = [1; max_pos; d]
  /\ Forall (wf_encoder_layer d h) (Encoder.enc_layers enc)
  /\ length (Encoder.enc_layers enc) = Encoder.num_layers enc.

(** A decoder layer as its constructor builds it. *)
Definition wf_decoder_layer (d h : nat) (l : DecoderLayer.t) : Prop :=
  wf_mha d h (DecoderLayer.mha1 l)
  /\ wf_mha d h (DecoderLayer.mha2 l)
  /\ exists fc w, DecoderLayer.ffn l = FullyConnected d fc w.

(** A decoder as its constructor builds it. *)
Definition wf_decoder (d h max_pos : nat) (dec : Decoder.t) : Prop :=
  Decoder.embedding_dim dec = d
  /\ Keras.Embedding.output_dim (Decoder.embedding dec) = d
  /\ shape (Decoder.pos_encoding dec) = [1; max_pos; d]
  /\ Forall (wf_decoder_layer d h) (Decoder.dec_layers dec)
  /\ length (Decoder.dec_layers dec) = Decoder.num_layers dec.

(** ** Distributions *)

(** The rows of a tensor along its last axis are probability distributions:
    on a non-empty last axis every entry lies in [[0, 1]] and every row sums
    to 1. *)
Definition rows_are_distributions (t : tensor R) : Prop :=
  forall n pre,
    Tensor.last_dim t = Ok n -> 0 < n ->
    (forall j, j < n -> (0 <= elem t (pre ++ [j]) <= 1)%R)
    /\ rsum n (fun j => elem t (pre ++ [j])) = 1%R.

(** ** Configurations and inputs that the library accepts *)

(** The sizes and the rate that the Keras constructors accept:
    [Embedding(vocab_size, embedding_dim)] requires both to be positive and
    [Dropout(dropout_rate)] a rate in [[0, 1]]. *)
Definition keras_accepts (embedding_dim vocab_size : nat) (dropout_rate : R)
  : Prop :=
  0 < embedding_dim /\ 0 < vocab_size /\ (0 <= dropout_rate <= 1)%R.

(** Dropout can be applied: outside training it is the identity; in
    training the entries kept are divided by [1 - rate], and a rate of 1 is
    refused. *)
Definition dropout_applies (training : bool) (dropout_rate : R) : Prop :=
  training = true -> (dropout_rate < 1)%R.

(** Every token id of a batch of [b] sequences of length [l] is an index of
    the embedding table of a vocabulary of [vocab_size] words. *)
Definition ids_in_vocabulary (vocab_size b l : nat) (x : tensor Z) : Prop :=
  forall i t, i < b -> t < l -> (0 <= elem x [i; t] < Z.of_nat vocab_size)%Z.

(** The entries of a mask lie in [[0, 1]]: 0 where attention is allowed,
    1 where it is forbidden. *)
Definition mask_in_unit_interval (mask : option (tensor R)) : Prop :=
  match mask with
  | None => True
  | Some m => forall idx, (0 <= elem m idx <= 1)%R
  end.

(** Row [i] of a mask over [lk] keys leaves a key to attend to: its entries
    lie in [[0, 1]] and one of them is 0.  Without a mask every key is
    allowed. *)
Definition row_has_unmasked_key (mask : option (tensor R)) (lk i : nat)
  : Prop :=
  match mask with
  | None => True
  | Some m =>
      (forall j, j < lk -> (0 <= elem m [i; j] <= 1)%R)
      /\ exists j, j < lk /\ elem m [i; j] = 0%R
  end.

(** ** Agreement on a batch entry *)

(** The masked, scaled score of query position [t] against key position [j]
    in head [a] of batch entry [i]. *)
Definition head_score (q k : tensor R) (mask : option (tensor R))
           (depth i a t j : nat) : R :=
  let raw :=
    rsum depth (fun l => (elem q [i; a; t; l] * elem k [i; a; j; l])%R) in
  let scaled := (raw / sqrt (INR depth))%R in
  match mask with
  | Some m =>
      (scaled + elem m (Tensor.bcast_index (shape m) [i; a; t; j]) * -1e9)%R
  | None => scaled
  end.

(** Two rank-3 tensors agree on batch entry [i], at the positions below [l]
    and the features below [d]. *)
Definition agree_on_entry (i l d : nat) (x y : tensor R) : Prop :=
  forall t c, t < l -> c < d -> elem x [i; t; c] = elem y [i; t; c].

(** Two batches of token ids agree on sequence [i]. *)
Definition ids_agree_on_entry (i l : nat) (x y : tensor Z) : Prop :=
  forall t, t < l -> elem x [i; t] = elem y [i; t].

(** Two masks act alike on the scores of batch entry [i]: both are absent,
    or they are broadcast to the same values for every head, query position
    and key position of the entry. *)
Definition masks_agree_on_entry (i h lq lk : nat)
           (m m' : option (tensor R)) : Prop :=
  match m, m' with
  | None, None => True
  | Some m, Some m' =>
      forall a t j, a < h -> t < lq -> j < lk ->
        elem m (Tensor.bcast_index (shape m) [i; a; t; j])
        = elem m' (Tensor.bcast_index (shape m') [i; a; t; j])
  | _, _ => False
  end.

(** The four projections of a multi-head attention layer have no
    activation, as the constructor builds them. *)
Definition linear_projections (l : MultiHeadAttention.t) : Prop :=
  Keras.Dense.activation_fn (MultiHeadAttention.wq l) = Keras.Linear
  /\ Keras.Dense.activation_fn (MultiHeadAttention.wk l) = Keras.Linear
  /\ Keras.Dense.activation_fn (MultiHeadAttention.wv l) = Keras.Linear
  /\ Keras.Dense.activation_fn (MultiHeadAttention.dense l) = Keras.Linear.

(** ** Inputs of the worked scenarios *)

(** A rank-2 integer tensor given by its rows. *)
Definition of_rows (rows : list (list Z)) : tensor Z :=
  mkTensor [length rows; length (hd [] rows)]
           (fun idx => nth (nth 1 idx 0) (nth (nth 0 idx 0) rows []) 0%Z).

(** A tensor of the given shape filled with one value. *)
Definition constant_tensor (s : list nat) (c : R) : tensor R :=
  mkTensor s (fun _ => c).

(** Layer variables of the worked scenarios: kernels of ones, zero biases,
    unit normalisation scales, and dropout draws that keep every entry. *)
Definition ones_dense_vars : Keras.Dense.vars :=
  Keras.Dense.mkVars (fun _ _ => 1%R) (fun _ => 0%R).

Definition unit_layernorm_vars : Keras.LayerNormalization.vars :=
  Keras.LayerNormalization.mkVars (fun _ => 1%R) (fun _ => 0%R).

Definition keep_all : list nat -> bool := fun _ => true.

Definition example_mha_vars : MultiHeadAttention.vars :=
  MultiHeadAttention.mkVars ones_dense_vars ones_dense_vars
                            ones_dense_vars ones_dense_vars.

Definition example_ffn_vars : FullyConnectedVars :=
  mkFullyConnectedVars ones_dense_vars ones_dense_vars.

Definition example_encoder_layer_vars : EncoderLayer.vars :=
  EncoderLayer.mkVars example_mha_vars example_ffn_vars
                      unit_layernorm_vars unit_layernorm_vars
                      keep_all keep_all.

Definition example_decoder_layer_vars : DecoderLayer.vars :=
  DecoderLayer.mkVars example_mha_vars example_mha_vars example_ffn_vars
                      unit_layernorm_vars unit_layernorm_vars
                      unit_layernorm_vars keep_all keep_all keep_all.

Definition example_encoder_vars : Encoder.vars :=
  Encoder.mkVars (fun _ _ => 1%R) (fun _ => example_encoder_layer_vars) keep_all.

Definition example_decoder_vars : Decoder.vars :=
  Decoder.mkVars (fun _ _ => 1%R) (fun _ => example_decoder_layer_vars) keep_all.

Definition example_transformer_vars : Transformer.vars :=
  Transformer.mkVars example_encoder_vars example_decoder_vars ones_dense_vars.

(** A multi-head attention layer with [d_model = 4] and two heads, as its
    constructor builds it. *)
Definition example_mha : MultiHeadAttention.t :=
  MultiHeadAttention.mk 2 4 2
    (Keras.Dense.mk 4 Keras.Linear ones_dense_vars)
    (Keras.Dense.mk 4 Keras.Linear ones_dense_vars)
    (Keras.Dense.mk 4 Keras.Linear ones_dense_vars)
    (Keras.Dense.mk 4 Keras.Linear ones_dense_vars).

(** An encoder output of length 3 and a decoder state of length 2, for one
    batch entry, as cross-attention receives them. *)
Definition example_enc_output : tensor R := constant_tensor [1; 3; 4] 1%R.
Definition example_out1 : tensor R := constant_tensor [1; 2; 4] 1%R.

(** Scenario 4 of the spec: vocabulary sizes 100 and 120, [feature_dim = 8],
    two heads, one layer, one input/target pair of length 5, with the masks
    the mask builders give. *)
Definition scenario4_inp : tensor Z := of_rows [[3; 1; 4; 1; 5]%Z].
Definition scenario4_tar : tensor Z := of_rows [[2; 7; 1; 8; 0]%Z].

(** A target sequence of length 2 for a decoder run against the example
    encoder output. *)
Definition example_decoder_tar : tensor Z := of_rows [[1; 2]%Z].

(* ================================================================= *)
(** * Properties *)

(** ** The exception monad *)

Lemma bind_ok {A B : Type} (c : result A) (k : A -> result B) (b : B) :
  bind c k = Ok b -> exists a, c = Ok a /\ k a = Ok b.
Proof.
  destruct c as [a|e]; cbn; intros H; [eauto | discriminate].
Qed.

(** Decomposition of a successful sequence of binds in a hypothesis. *)
Ltac inv_bind H :=
  let a := fresh "v" in
  let Ha := fresh "Hbind" in
  apply bind_ok in H; destruct H as (a & Ha & H).

Lemma bind_eq {A B : Type} (c : result A) (k : A -> result B) (a : A) :
  c = Ok a -> bind c k = k a.
Proof. now intros ->. Qed.

Lemma is_ok_true {A : Type} (r : result A) :
  is_ok r = true <-> exists a, r = Ok a.
Proof.
  destruct r; cbn; split; intros H; eauto; try discriminate.
  destruct H as (? & H). discriminate.
Qed.

Lemma is_ok_bind {A B : Type} (c : result A) (k : A -> result B) :
  is_ok (bind c k) = true -> exists a, c = Ok a /\ is_ok (k a) = true.
Proof.
  destruct c as [a|e]; cbn; intros H; [eauto | discriminate].
Qed.

Lemma mapM_raise_head {A B : Type} (f : A -> result B) (x : A) (xs : list A) :
  (exists e, f x = Raise e) -> exists e, mapM f (x :: xs) = Raise e.
Proof.
  intros (e & He). cbn [mapM]. rewrite He. cbn [bind]. eauto.
Qed.

Lemma mapM_returns {A B : Type} (f : A -> result B) (xs : list A) :
  (forall x, exists y, f x = Ok y) -> exists ys, mapM f xs = Ok ys.
Proof.
  intros Hf. induction xs as [|x xs (ys & IH)]; cbn [mapM].
  - eauto.
  - destruct (Hf x) as (y & Hy). rewrite Hy, IH. cbn [bind]. eauto.
Qed.

Lemma mapM_Forall {A B : Type} (f : A -> result B) (P : B -> Prop)
      (xs : list A) :
  (forall x y, f x = Ok y -> P y) ->
  forall ys, mapM f xs = Ok ys -> Forall P ys.
Proof.
  intros Hf. induction xs as [|x xs IH]; intros ys H; cbn in H.
  - injection H as <-. constructor.
  - apply bind_ok in H. destruct H as (y & Hy & H).
    apply bind_ok in H. destruct H as (ys' & Hys & H).
    injection H as <-. constructor; eauto.
Qed.

Lemma mapM_length {A B : Type} (f : A -> result B) (xs : list A) :
  forall ys, mapM f xs = Ok ys -> length ys = length xs.
Proof.
  induction xs as [|x xs IH]; intros ys H; cbn in H.
  - now injection H as <-.
  - apply bind_ok in H. destruct H as (y & Hy & H).
    apply bind_ok in H. destruct H as (ys' & Hys & H).
    injection H as <-. cbn. f_equal. now apply IH.
Qed.

Lemma list_get_In {A : Type} (xs : list A) (i : nat) (x : A) :
  list_get xs i = Ok x -> In x xs.
Proof.
  unfold list_get. destruct (nth_error xs i) eqn:E; [|discriminate].
  intros H. injection H as <-. eapply nth_error_In; eauto.
Qed.

Lemma list_get_returns {A : Type} (xs : list A) (i : nat) :
  i < length xs -> exists x, list_get xs i = Ok x /\ In x xs.
Proof.
  intros Hi. unfold list_get.
  destruct (nth_error xs i) as [x|] eqn:E.
  - exists x. split; [reflexivity|]. eapply nth_error_In; eauto.
  - apply nth_error_None in E. lia.
Qed.

(** ** Sums and arithmetic *)

Lemma rsum_ext (n : nat) (f g : nat -> R) :
  (forall j, j < n -> f j = g j) -> rsum n f = rsum n g.
Proof.
  induction n as [|n IH]; intros H; cbn; [reflexivity|].
  rewrite IH, H; auto.
Qed.

Lemma rsum_div (n : nat) (f : nat -> R) (c : R) :
  rsum n (fun j => (f j / c)%R) = (rsum n f / c)%R.
Proof.
  induction n as [|n IH]; cbn.
  - unfold Rdiv. now rewrite Rmult_0_l.
  - rewrite IH. unfold Rdiv. now rewrite Rmult_plus_distr_r.
Qed.

Lemma rsum_pos (n : nat) (f : nat -> R) :
  0 < n -> (forall j, (0 < f j)%R) -> (0 < rsum n f)%R.
Proof.
  intros Hn Hf. destruct n as [|n]; [lia|]. clear Hn.
  induction n as [|n IH]; cbn in *.
  - specialize (Hf 0). lra.
  - specialize (Hf (S n)). lra.
Qed.

Lemma mul_cancel_middle (b n m d : nat) :
  0 < b -> 0 < d -> b * (n * d) = b * (m * d) -> n = m.
Proof.
  intros Hb Hd H.
  apply Nat.mul_cancel_l in H; [|lia].
  apply Nat.mul_cancel_r in H; [exact H | lia].
Qed.

Lemma axis_index_in_range (i n : nat) :
  i < n -> (if n =? 1 then 0 else i) = i.
Proof.
  intros H. destruct (n =? 1) eqn:E; [apply Nat.eqb_eq in E; lia | reflexivity].
Qed.

Lemma of_nat_not_minus_one (n : nat) : (Z.of_nat n =? -1)%Z = false.
Proof. apply Z.eqb_neq. lia. Qed.

Lemma minus_one_neq_of_nat (n : nat) : (-1 =? Z.of_nat n)%Z = false.
Proof. apply Z.eqb_neq. lia. Qed.

Lemma of_nat_not_below (n : nat) : (Z.of_nat n <? -1)%Z = false.
Proof. apply Z.ltb_ge. lia. Qed.

Lemma of_nat_pos_not_zero (n : nat) : 0 < n -> (0 =? Z.of_nat n)%Z = false.
Proof. intros H. apply Z.eqb_neq. lia. Qed.

Lemma of_nat_pos (n : nat) : 0 < n -> (0 <? Z.of_nat n)%Z = true.
Proof. intros H. apply Z.ltb_lt. lia. Qed.

(** ** Broadcasting *)

Lemma bcast_dim_refl x : Tensor.bcast_dim x x = Ok x.
Proof. unfold Tensor.bcast_dim. now rewrite Nat.eqb_refl. Qed.

Lemma bcast_dim_1_l y : Tensor.bcast_dim 1 y = Ok y.
Proof.
  unfold Tensor.bcast_dim. destruct (1 =? y) eqn:E.
  - apply Nat.eqb_eq in E. now subst.
  - reflexivity.
Qed.

Lemma bcast_dim_1_r x : Tensor.bcast_dim x 1 = Ok x.
Proof.
  unfold Tensor.bcast_dim. now destruct (x =? 1).
Qed.

Lemma bcast_rev_refl (l : list nat) : Tensor.bcast_rev l l = Ok l.
Proof.
  induction l as [|x l IH]; [reflexivity|].
  cbn [Tensor.bcast_rev]. rewrite bcast_dim_refl, IH. reflexivity.
Qed.

Lemma broadcast_shapes_refl (s : list nat) : Tensor.broadcast_shapes s s = Ok s.
Proof.
  unfold Tensor.broadcast_shapes. rewrite bcast_rev_refl. cbn [bind].
  now rewrite rev_involutive.
Qed.

Lemma add_shape (a b c : tensor R) :
  Tensor.add a b = Ok c ->
  Tensor.broadcast_shapes (shape a) (shape b) = Ok (shape c).
Proof.
  unfold Tensor.add, Tensor.broadcast2. intros H.
  inv_bind H. injection H as <-. exact Hbind.
Qed.

Lemma add_same_shape (a b c : tensor R) :
  Tensor.add a b = Ok c -> shape a = shape b -> shape c = shape a.
Proof.
  intros H E. apply add_shape in H.
  rewrite <- E, broadcast_shapes_refl in H. now injection H.
Qed.

Lemma add_returns (a b : tensor R) :
  shape a = shape b ->
  exists c, Tensor.add a b = Ok c /\ shape c = shape a.
Proof.
  intros E. unfold Tensor.add, Tensor.broadcast2.
  rewrite <- E, broadcast_shapes_refl. cbn [bind].
  eexists. split; reflexivity.
Qed.


(** Adding the positional encoding of a sequence no longer than the table. *)
Lemma add_pos_encoding_returns (x pe : tensor R) (b l d max_pos : nat) :
  shape x = [b; l; d] -> shape pe = [1; max_pos; d] -> l <= max_pos ->
  exists p y,
    Tensor.slice_axis1 l pe = Ok p
    /\ Tensor.add x p = Ok y
    /\ shape y = [b; l; d].
Proof.
  intros Hx Hpe Hl. unfold Tensor.slice_axis1. rewrite Hpe.
  exists (mkTensor [1; Nat.min l max_pos; d] (elem pe)).
  unfold Tensor.add, Tensor.broadcast2, Tensor.broadcast_shapes.
  cbn [shape]. rewrite Hx, Nat.min_l by exact Hl.
  cbn [rev app Tensor.bcast_rev].
  rewrite !bcast_dim_refl, bcast_dim_1_r. cbn [bind rev app].
  eexists. split; [reflexivity|]. split; reflexivity.
Qed.

(** ** Products, softmax, transposition and reshaping *)

Lemma matmul_shape4 (tb : bool) (a b c : tensor R)
      (n0 h m ka x y : nat) :
  shape a = [n0; h; m; ka] ->
  shape b = [n0; h; x; y] ->
  Tensor.matmul tb a b = Ok c ->
  shape c = [n0; h; m; if tb then x else y]
  /\ ka = (if tb then y else x).
Proof.
  intros Ha Hb H. unfold Tensor.matmul in H. rewrite Ha, Hb in H.
  cbn [rev app] in H.
  destruct (ka =? (if tb then y else x)) eqn:E; [|discriminate].
  apply Nat.eqb_eq in E.
  rewrite bcast_rev_refl in H. cbn [bind rev app] in H.
  injection H as <-. split; [reflexivity | exact E].
Qed.

Lemma matmul4_returns (tb : bool) (a b : tensor R) (n0 h m ka x y : nat) :
  shape a = [n0; h; m; ka] ->
  shape b = [n0; h; x; y] ->
  ka = (if tb then y else x) ->
  exists c, Tensor.matmul tb a b = Ok c
            /\ shape c = [n0; h; m; if tb then x else y].
Proof.
  intros Ha Hb Hk. unfold Tensor.matmul. rewrite Ha, Hb. cbn [rev app].
  rewrite <- Hk, Nat.eqb_refl, bcast_rev_refl. cbn [bind rev app].
  eexists. split; reflexivity.
Qed.

Lemma softmax_shape (t y : tensor R) :
  Tensor.softmax t = Ok y -> shape y = shape t.
Proof.
  unfold Tensor.softmax. intros H. inv_bind H. now injection H as <-.
Qed.

Lemma softmax_returns (t : tensor R) :
  shape t <> [] ->
  exists y, Tensor.softmax t = Ok y /\ shape y = shape t.
Proof.
  intros Hs. unfold Tensor.softmax, Tensor.last_dim.
  destruct (rev (shape t)) as [|n r] eqn:E.
  - exfalso. apply Hs. apply (f_equal (@rev nat)) in E.
    now rewrite rev_involutive in E.
  - cbn [bind]. eexists. split; reflexivity.
Qed.

(** Each row of a softmax over a non-empty last axis sums to 1. *)
Lemma softmax_row_sum (t y : tensor R) (n : nat) (pre : list nat) :
  Tensor.softmax t = Ok y ->
  Tensor.last_dim t = Ok n ->
  0 < n ->
  rsum n (fun j => elem y (pre ++ [j])) = 1%R.
Proof.
  unfold Tensor.softmax. intros H Hn Hpos.
  rewrite Hn in H. cbn [bind] in H. injection H as <-. cbn [elem].
  erewrite rsum_ext.
  2:{ intros j _. rewrite removelast_last. reflexivity. }
  rewrite rsum_div.
  apply Rdiv_diag. apply Rgt_not_eq.
  apply rsum_pos; [exact Hpos|]. intros j. apply exp_pos.
Qed.

Lemma transpose_0213_shape {A : Type} (t t' : tensor A) (a b c d : nat) :
  shape t = [a; b; c; d] ->
  Tensor.transpose [0; 2; 1; 3] t = Ok t' ->
  shape t' = [a; c; b; d].
Proof.
  intros Hs H. unfold Tensor.transpose in H.
  destruct (Tensor.is_perm _ _); [|discriminate].
  injection H as <-. cbn. now rewrite Hs.
Qed.

Lemma transpose_0213_returns {A : Type} (t : tensor A) (a b c d : nat) :
  shape t = [a; b; c; d] ->
  exists t', Tensor.transpose [0; 2; 1; 3] t = Ok t'
             /\ shape t' = [a; c; b; d].
Proof.
  intros Hs. unfold Tensor.transpose, rank. rewrite Hs. cbn.
  eexists. split; reflexivity.
Qed.

Lemma reshape_shape_ok (s s' : list nat) (sizes : list Z) :
  Tensor.reshape_shape s sizes = Ok s' ->
  prod_list s' = prod_list s
  /\ exists missing,
       s' = map (fun z => if (z =? -1)%Z then missing else Z.to_nat z) sizes.
Proof.
  unfold Tensor.reshape_shape. intros H.
  destruct (1 <? _); [discriminate|].
  destruct (existsb (fun z => (z <? -1)%Z) sizes); [discriminate|].
  destruct (_ && _ && _); [discriminate|].
  match type of H with
  | (if ?c then _ else _) = _ => destruct c eqn:E; [|discriminate]
  end.
  injection H as <-. apply Nat.eqb_eq in E. split; [exact E | eauto].
Qed.

Lemma reshape_ok {A : Type} (t t' : tensor A) (sizes : list Z) :
  Tensor.reshape t sizes = Ok t' ->
  Tensor.reshape_shape (shape t) sizes = Ok (shape t').
Proof.
  unfold Tensor.reshape. intros H. inv_bind H. now injection H as <-.
Qed.

(** The reshape of [split_heads] keeps the number of elements. *)
Lemma reshape_heads_shape {A : Type} (t t' : tensor A) (b h dp : nat) :
  Tensor.reshape t [Z.of_nat b; (-1)%Z; Z.of_nat h; Z.of_nat dp] = Ok t' ->
  exists n, shape t' = [b; n; h; dp]
            /\ b * (n * (h * dp)) = prod_list (shape t).
Proof.
  intros H. apply reshape_ok, reshape_shape_ok in H.
  destruct H as (Hp & missing & Hs). exists missing.
  cbn [map] in Hs. rewrite !of_nat_not_minus_one, !Nat2Z.id in Hs.
  cbn in Hs. split; [exact Hs|].
  rewrite <- Hp, Hs. cbn. lia.
Qed.

(** The reshape that concatenates the heads keeps the number of elements. *)
Lemma reshape_concat_shape {A : Type} (t t' : tensor A) (b d : nat) :
  Tensor.reshape t [Z.of_nat b; (-1)%Z; Z.of_nat d] = Ok t' ->
  exists n, shape t' = [b; n; d] /\ b * (n * d) = prod_list (shape t).
Proof.
  intros H. apply reshape_ok, reshape_shape_ok in H.
  destruct H as (Hp & missing & Hs). exists missing.
  cbn [map] in Hs. rewrite !of_nat_not_minus_one, !Nat2Z.id in Hs.
  cbn in Hs. split; [exact Hs|].
  rewrite <- Hp, Hs. cbn. lia.
Qed.

Lemma reshape_heads_returns {A : Type} (t : tensor A) (b l d h dp : nat) :
  shape t = [b; l; d] -> 0 < b -> 0 < h -> 0 < dp -> h * dp = d ->
  exists t',
    Tensor.reshape t [Z.of_nat b; (-1)%Z; Z.of_nat h; Z.of_nat dp] = Ok t'
    /\ shape t' = [b; l; h; dp].
Proof.
  intros Hs Hb Hh Hdp Hd.
  unfold Tensor.reshape, Tensor.reshape_shape, Tensor.reshape_product,
    Tensor.reshape_input_elements.
  rewrite Hs.
  cbn [filter existsb fold_right map].
  rewrite !of_nat_not_minus_one, !of_nat_not_below, !minus_one_neq_of_nat,
    !of_nat_pos_not_zero, !of_nat_pos by assumption.
  change (-1 =? -1)%Z with true. change (0 =? -1)%Z with false.
  change (-1 <? -1)%Z with false. change (0 <? -1)%Z with false.
  cbn [orb andb negb length Nat.ltb Nat.leb].
  rewrite !Nat2Z.id, !orb_true_r.
  assert (Hm : (b * (l * (d * 1))) / (b * (h * (dp * 1))) = l).
  { rewrite !Nat.mul_1_r, Hd.
    replace (b * (l * d)) with (l * (b * d)) by lia.
    apply Nat.div_mul. nia. }
  rewrite Hm.
  assert (Hp : (b * (h * (dp * 1)) * l =? b * (l * (d * 1))) = true).
  { apply Nat.eqb_eq. rewrite <- Hd. lia. }
  rewrite Hp. cbn [negb andb prod_list fold_right].
  assert (Hq : (b * (l * (h * (dp * 1))) =? b * (l * (d * 1))) = true).
  { apply Nat.eqb_eq. rewrite <- Hd. lia. }
  rewrite Hq. cbn [bind]. eexists. split; reflexivity.
Qed.

Lemma reshape_concat_returns {A : Type} (t : tensor A) (b l d h dp : nat) :
  shape t = [b; l; h; dp] -> 0 < b -> 0 < d -> h * dp = d ->
  exists t',
    Tensor.reshape t [Z.of_nat b; (-1)%Z; Z.of_nat d] = Ok t'
    /\ shape t' = [b; l; d].
Proof.
  intros Hs Hb Hdpos Hd.
  unfold Tensor.reshape, Tensor.reshape_shape, Tensor.reshape_product,
    Tensor.reshape_input_elements.
  rewrite Hs.
  cbn [filter existsb fold_right map].
  rewrite !of_nat_not_minus_one, !of_nat_not_below, !minus_one_neq_of_nat,
    !of_nat_pos_not_zero, !of_nat_pos by assumption.
  change (-1 =? -1)%Z with true. change (0 =? -1)%Z with false.
  change (-1 <? -1)%Z with false. change (0 <? -1)%Z with false.
  cbn [orb andb negb length Nat.ltb Nat.leb].
  rewrite !Nat2Z.id, !orb_true_r.
  assert (Hm : (b * (l * (h * (dp * 1)))) / (b * (d * 1)) = l).
  { rewrite !Nat.mul_1_r, Hd.
    replace (b * (l * d)) with (l * (b * d)) by lia.
    apply Nat.div_mul. nia. }
  rewrite Hm.
  assert (Hp : (b * (d * 1) * l =? b * (l * (h * (dp * 1)))) = true).
  { apply Nat.eqb_eq. rewrite <- Hd. lia. }
  rewrite Hp. cbn [negb andb prod_list fold_right].
  assert (Hq : (b * (l * (d * 1)) =? b * (l * (h * (dp * 1)))) = true).
  { apply Nat.eqb_eq. rewrite <- Hd. lia. }
  rewrite Hq. cbn [bind]. eexists. split; reflexivity.
Qed.

(** ** Keras layers *)

Lemma Dense_call_shape (l : Keras.Dense.t) (x y : tensor R) :
  Keras.Dense.call l x = Ok y ->
  shape y = removelast (shape x) ++ [Keras.Dense.units l].
Proof.
  unfold Keras.Dense.call. intros H.
  destruct (2 <=? rank x); [|discriminate].
  inv_bind H.
  destruct (Keras.Dense.activation_fn l).
  - now injection H as <-.
  - now injection H as <-.
  - apply softmax_shape in H. exact H.
Qed.

Lemma Dense_call_returns (l : Keras.Dense.t) (x : tensor R) :
  2 <= rank x ->
  exists y, Keras.Dense.call l x = Ok y
            /\ shape y = removelast (shape x) ++ [Keras.Dense.units l].
Proof.
  intros Hr. unfold Keras.Dense.call.
  apply Nat.leb_le in Hr. rewrite Hr.
  unfold Tensor.last_dim at 1.
  destruct (rev (shape x)) as [|d r] eqn:E.
  - apply (f_equal (@length nat)) in E. rewrite length_rev in E.
    apply Nat.leb_le in Hr. unfold rank in Hr. cbn in E. lia.
  - cbn [bind]. destruct (Keras.Dense.activation_fn l).
    + eexists. split; reflexivity.
    + eexists. split; reflexivity.
    + match goal with
      | |- exists y, Tensor.softmax ?t = _ /\ _ =>
          destruct (@softmax_returns t) as (y & Hy & Hs)
      end.
      * cbn [shape]. intros H. now apply app_eq_nil in H.
      * exists y. split; [exact Hy | exact Hs].
Qed.


Lemma LayerNormalization_call_shape
      (l : Keras.LayerNormalization.t) (x y : tensor R) :
  Keras.LayerNormalization.call l x = Ok y -> shape y = shape x.
Proof.
  unfold Keras.LayerNormalization.call. intros H.
  inv_bind H. now injection H as <-.
Qed.

Lemma LayerNormalization_call_returns
      (l : Keras.LayerNormalization.t) (x : tensor R) :
  shape x <> [] ->
  exists y, Keras.LayerNormalization.call l x = Ok y /\ shape y = shape x.
Proof.
  intros Hs. unfold Keras.LayerNormalization.call, Tensor.last_dim.
  destruct (rev (shape x)) as [|n r] eqn:E.
  - exfalso. apply Hs. apply (f_equal (@rev nat)) in E.
    now rewrite rev_involutive in E.
  - cbn [bind]. eexists. split; reflexivity.
Qed.

Lemma Dropout_call_shape (l : Keras.Dropout.t) (x : tensor R) (training : bool) :
  shape (Keras.Dropout.call l x training) = shape x.
Proof.
  unfold Keras.Dropout.call. now destruct training.
Qed.

Lemma FullyConnected_call_shape (d fc : nat) (w : FullyConnectedVars)
      (x y : tensor R) (b n : nat) :
  shape x = [b; n; d] ->
  Keras.Sequential.call (FullyConnected d fc w) x = Ok y ->
  shape y = [b; n; d].
Proof.
  intros Hs H. unfold FullyConnected in H. cbn [Keras.Sequential.call] in H.
  inv_bind H. inv_bind H. injection H as <-.
  apply Dense_call_shape in Hbind, Hbind0.
  rewrite Hbind0, Hbind, Hs. reflexivity.
Qed.

Lemma FullyConnected_call_returns (d fc : nat) (w : FullyConnectedVars)
      (x : tensor R) (b n d' : nat) :
  shape x = [b; n; d'] ->
  exists y, Keras.Sequential.call (FullyConnected d fc w) x = Ok y
            /\ shape y = [b; n; d].
Proof.
  intros Hs. unfold FullyConnected. cbn [Keras.Sequential.call].
  match goal with
  | |- exists y, bind (Keras.Dense.call ?l x) _ = _ /\ _ =>
      destruct (@Dense_call_returns l x) as (h & Hh & Hhs)
  end.
  { unfold rank. rewrite Hs. cbn. lia. }
  rewrite Hh. cbn [bind]. rewrite Hs in Hhs. cbn in Hhs.
  match goal with
  | |- exists y, bind (Keras.Dense.call ?l h) _ = _ /\ _ =>
      destruct (@Dense_call_returns l h) as (y & Hy & Hys)
  end.
  { unfold rank. rewrite Hhs. cbn. lia. }
  rewrite Hy. cbn [bind]. rewrite Hhs in Hys. cbn in Hys.
  exists y. split; [reflexivity | exact Hys].
Qed.

(** ** Positional encoding *)

Lemma in_slice_0_2 i : Tensor.in_slice 0 2 i = Nat.even i.
Proof.
  unfold Tensor.in_slice. rewrite Nat.sub_0_r. cbn [Nat.leb andb].
  rewrite <- Nat.negb_odd.
  destruct (Nat.odd i) eqn:E.
  - apply Nat.odd_spec in E. destruct E as [k ->].
    replace (2 * k + 1) with (1 + k * 2) by lia.
    rewrite Nat.Div0.mod_add. reflexivity.
  - assert (Ev : Nat.even i = true) by (now rewrite <- Nat.negb_odd, E).
    apply Nat.even_spec in Ev. destruct Ev as [k ->].
    replace (2 * k) with (0 + k * 2) by lia.
    rewrite Nat.Div0.mod_add. reflexivity.
Qed.

Lemma in_slice_1_2 i : Tensor.in_slice 1 2 i = Nat.odd i.
Proof.
  unfold Tensor.in_slice.
  destruct i as [|i]; [reflexivity|].
  cbn [Nat.leb andb]. rewrite Nat.odd_succ.
  replace (S i - 1) with i by lia.
  pose proof (in_slice_0_2 i) as H. unfold Tensor.in_slice in H.
  rewrite Nat.sub_0_r in H. exact H.
Qed.

Lemma exponent_formula (i d : nat) :
  (IZR (2 * (Z.of_nat i / 2)) / INR d = 2 * INR (i / 2) / INR d)%R.
Proof.
  rewrite mult_IZR.
  replace (Z.of_nat i / 2)%Z with (Z.of_nat (i / 2))
    by (rewrite Nat2Z.inj_div; reflexivity).
  rewrite <- INR_IZR_INZ. reflexivity.
Qed.

(** The table the generator returns, computed once and for all: its shape
    has a leading axis of length 1, and its entry at position [p] and
    dimension [i] is the sine or cosine of the angle. *)
Lemma get_positional_encodings_table (num_words embed_dim : nat) :
  exists t,
    get_positional_encodings num_words embed_dim = Ok t
    /\ shape t = [1; num_words; embed_dim]
    /\ forall p i, p < num_words -> i < embed_dim ->
         elem t [0; p; i]
         = if Nat.even i then sin (angle_formula embed_dim p i)
           else cos (angle_formula embed_dim p i).
Proof.
  unfold get_positional_encodings, get_angles, Tensor.divide,
    Tensor.broadcast2, Tensor.broadcast_shapes.
  cbn -[Tensor.bcast_dim Tensor.in_slice Nat.div Z.mul Z.div Rpower].
  rewrite bcast_dim_1_l, bcast_dim_1_r.
  cbn -[Tensor.in_slice Nat.div Z.mul Z.div Rpower].
  eexists. split; [reflexivity|]. split; [reflexivity|].
  intros p i Hp Hi.
  cbn -[Tensor.in_slice Nat.div Z.mul Z.div Rpower Nat.eqb].
  rewrite in_slice_0_2, in_slice_1_2, <- Nat.negb_even.
  assert (Ep : (if num_words =? 1 then 0 else p) = p).
  { destruct (num_words =? 1) eqn:E; [apply Nat.eqb_eq in E; lia | reflexivity]. }
  assert (Ei : (if embed_dim =? 1 then 0 else i) = i).
  { destruct (embed_dim =? 1) eqn:E; [apply Nat.eqb_eq in E; lia | reflexivity]. }
  rewrite Ep, Ei, exponent_formula, <- INR_IZR_INZ.
  unfold angle_formula.
  destruct (Nat.even i); reflexivity.
Qed.

(** C3 (as stated, refuted): for [max_positions = 2] and [feature_dim = 4]
    the generator does not return a table of shape [(2, 4)]. *)
Lemma positional_encoding_shape_not_rank2 :
  ~ (exists t, get_positional_encodings 2 4 = Ok t /\ shape t = [2; 4]).
Proof.
  intros (t & Ht & Hs).
  destruct (get_positional_encodings_table 2 4) as (t' & Ht' & Hs' & _).
  rewrite Ht' in Ht. injection Ht as <-.
  rewrite Hs' in Hs. discriminate.
Qed.

(** C3 (amended): for every [max_positions] and [feature_dim] the positional
    encoding generator returns a rank-3 array of shape
    [(1, max_positions, feature_dim)]: the table under one leading axis of
    length 1. *)
Theorem positional_encoding_shape (max_positions feature_dim : nat) :
  exists t,
    get_positional_encodings max_positions feature_dim = Ok t
    /\ shape t = [1; max_positions; feature_dim]
    /\ rank t = 3.
Proof.
  destruct (get_positional_encodings_table max_positions feature_dim)
    as (t & Ht & Hs & _).
  exists t. repeat split; trivial. unfold rank. now rewrite Hs.
Qed.

(** C4: for every position [p] in [0, max_positions) and dimension index [i]
    in [0, feature_dim), the entry of the positional encoding for [p] and [i]
    (read under the leading axis of the table) is
    [sin(p / 10000^(2*floor(i/2)/feature_dim))] when [i] is even and the
    cosine of the same angle when [i] is odd; and any two calls with the same
    arguments return the same table. *)
Theorem positional_encoding_entries (max_positions feature_dim p i : nat) :
  p < max_positions -> i < feature_dim ->
  exists t,
    get_positional_encodings max_positions feature_dim = Ok t
    /\ elem t [0; p; i]
       = (if Nat.even i
          then sin (INR p / Rpower 10000 (2 * INR (i / 2) / INR feature_dim))
          else cos (INR p / Rpower 10000 (2 * INR (i / 2) / INR feature_dim)))
    /\ forall t1 t2,
         get_positional_encodings max_positions feature_dim = Ok t1 ->
         get_positional_encodings max_positions feature_dim = Ok t2 ->
         t1 = t2.
Proof.
  intros Hp Hi.
  destruct (get_positional_encodings_table max_positions feature_dim)
    as (t & Ht & _ & He).
  exists t. split; [exact Ht|]. split.
  - rewrite (He p i Hp Hi). reflexivity.
  - intros t1 t2 H1 H2. rewrite H1 in H2. now injection H2.
Qed.

Lemma positional_encoding_entries_witness :
  exists t,
    get_positional_encodings 3 4 = Ok t
    /\ elem t [0; 2; 3]
       = (if Nat.even 3
          then sin (INR 2 / Rpower 10000 (2 * INR (3 / 2) / INR 4))
          else cos (INR 2 / Rpower 10000 (2 * INR (3 / 2) / INR 4)))
    /\ forall t1 t2,
         get_positional_encodings 3 4 = Ok t1 ->
         get_positional_encodings 3 4 = Ok t2 ->
         t1 = t2.
Proof.
  apply (positional_encoding_entries (max_positions := 3) (feature_dim := 4)
           (p := 2) (i := 3)); lia.
Defined.

(** ** Masking *)

Lemma in_band_lower_triangle (m n : nat) :
  Tensor.in_band (-1) 0 m n = (n <=? m).
Proof.
  unfold Tensor.in_band. cbn [Z.ltb Z.compare orb andb].
  destruct (n <=? m) eqn:E.
  - apply Nat.leb_le in E. apply Z.leb_le. lia.
  - apply Nat.leb_gt in E. apply Z.leb_gt. lia.
Qed.

Lemma create_look_ahead_mask_entries (size : nat) :
  exists mask,
    create_look_ahead_mask size = Ok mask
    /\ shape mask = [size; size]
    /\ forall i j, elem mask [i; j] = if i <? j then 1%R else 0%R.
Proof.
  unfold create_look_ahead_mask, Tensor.band_part.
  cbn -[Tensor.in_band Nat.ltb].
  eexists. split; [reflexivity|]. split; [reflexivity|].
  intros i j. cbn -[Tensor.in_band Nat.ltb].
  rewrite in_band_lower_triangle, Nat.ltb_antisym.
  destruct (j <=? i); cbn [negb]; lra.
Qed.

(** C5: for every [size] and all indices [0 <= i, j < size], the look-ahead
    (causal) mask has the value 1 at [(i, j)] if [j > i] and 0 otherwise; in
    particular the mask of size 3 is [[0,1,1],[0,0,1],[0,0,0]]. *)
Theorem causal_mask_entries (size i j : nat) :
  i < size -> j < size ->
  (exists mask,
      create_look_ahead_mask size = Ok mask
      /\ shape mask = [size; size]
      /\ elem mask [i; j] = if i <? j then 1%R else 0%R)
  /\ (exists mask3,
         create_look_ahead_mask 3 = Ok mask3
         /\ to_rows mask3
            = Ok [[0; 1; 1]; [0; 0; 1]; [0; 0; 0]]%R).
Proof.
  intros _ _. split.
  - destruct (create_look_ahead_mask_entries size) as (mask & Hm & Hs & He).
    exists mask. auto.
  - destruct (create_look_ahead_mask_entries 3) as (mask & Hm & Hs & He).
    exists mask. split; [exact Hm|].
    unfold to_rows. rewrite Hs. cbn [seq map].
    rewrite !He. reflexivity.
Qed.

Lemma causal_mask_entries_witness :
  (exists mask,
      create_look_ahead_mask 4 = Ok mask
      /\ shape mask = [4; 4]
      /\ elem mask [1; 2] = if 1 <? 2 then 1%R else 0%R)
  /\ (exists mask3,
         create_look_ahead_mask 3 = Ok mask3
         /\ to_rows mask3
            = Ok [[0; 1; 1]; [0; 0; 1]; [0; 0; 0]]%R).
Proof.
  apply (causal_mask_entries (size := 4) (i := 1) (j := 2)); lia.
Defined.

(** The padding mask of a rank-2 batch. *)
Lemma create_padding_mask_entries (seq : tensor Z) (batch len : nat) :
  shape seq = [batch; len] ->
  exists mask,
    create_padding_mask seq = Ok mask
    /\ shape mask = [batch; 1; 1; len]
    /\ forall i j,
         elem mask [i; 0; 0; j]
         = if (elem seq [i; j] =? 0)%Z then 1%R else 0%R.
Proof.
  intros Hs. unfold create_padding_mask, Tensor.expand_dims, rank.
  cbn. rewrite Hs. cbn.
  eexists. split; [reflexivity|]. split; [reflexivity|].
  intros i j. reflexivity.
Qed.

(** C6: for every rank-2 batch of token ids of shape
    [(batch, sequence_length)], the padding mask is 1 exactly at the
    positions whose token id is 0 and 0 elsewhere, and has shape
    [(batch, 1, 1, sequence_length)]; in particular the single sequence
    [[5, 7, 0, 0]] yields [[0, 0, 1, 1]] with shape [(1, 1, 1, 4)]. *)
Theorem padding_mask_entries (seq : tensor Z) (batch len i j : nat) :
  shape seq = [batch; len] ->
  i < batch -> j < len ->
  (exists mask,
      create_padding_mask seq = Ok mask
      /\ shape mask = [batch; 1; 1; len]
      /\ (elem mask [i; 0; 0; j] = 1%R <-> elem seq [i; j] = 0%Z)
      /\ (elem mask [i; 0; 0; j] = 0%R <-> elem seq [i; j] <> 0%Z))
  /\ (exists mask,
         create_padding_mask (of_rows [[5; 7; 0; 0]%Z]) = Ok mask
         /\ shape mask = [1; 1; 1; 4]
         /\ map (fun j => elem mask [0; 0; 0; j]) (List.seq 0 4)
            = [0; 0; 1; 1]%R).
Proof.
  intros Hs _ _. split.
  - destruct (create_padding_mask_entries seq Hs) as (mask & Hm & Hsh & He).
    exists mask. split; [exact Hm|]. split; [exact Hsh|].
    rewrite He. destruct (Z.eqb_spec (elem seq [i; j]) 0) as [E|E].
    + split; split; intros; try lra; try congruence; trivial.
    + split; split; intros; try lra; try congruence; trivial.
  - destruct (@create_padding_mask_entries (of_rows [[5; 7; 0; 0]%Z]) 1 4 eq_refl)
      as (mask & Hm & Hsh & He).
    exists mask. split; [exact Hm|]. split; [exact Hsh|].
    cbn [List.seq map]. rewrite !He. reflexivity.
Qed.

Lemma padding_mask_entries_witness :
  (exists mask,
      create_padding_mask (of_rows [[5; 7; 0; 0]; [0; 3; 4; 0]]%Z) = Ok mask
      /\ shape mask = [2; 1; 1; 4]
      /\ (elem mask [1; 0; 0; 3] = 1%R
          <-> elem (of_rows [[5; 7; 0; 0]; [0; 3; 4; 0]]%Z) [1; 3] = 0%Z)
      /\ (elem mask [1; 0; 0; 3] = 0%R
          <-> elem (of_rows [[5; 7; 0; 0]; [0; 3; 4; 0]]%Z) [1; 3] <> 0%Z))
  /\ (exists mask,
         create_padding_mask (of_rows [[5; 7; 0; 0]%Z]) = Ok mask
         /\ shape mask = [1; 1; 1; 4]
         /\ map (fun j => elem mask [0; 0; 0; j]) (List.seq 0 4)
            = [0; 0; 1; 1]%R).
Proof.
  apply (@padding_mask_entries (of_rows [[5; 7; 0; 0]; [0; 3; 4; 0]]%Z)
           2 4 1 3); [reflexivity | lia | lia].
Defined.

(** Adding a mask that fits changes at most the key-length axis. *)
Lemma add_mask_shape (scores m s' : tensor R) (pre : list nat) (lk : nat)
      (f : R -> R) :
  shape scores = pre ++ [lk] ->
  mask_fits pre (Some m) ->
  Tensor.add scores (Tensor.tmap f m) = Ok s' ->
  exists lk', shape s' = pre ++ [lk'].
Proof.
  intros Hs Hfit H. apply add_shape in H.
  cbn [Tensor.tmap shape] in H. rewrite Hs in H.
  unfold mask_fits, Tensor.broadcast_shapes in *.
  rewrite rev_app_distr in H. cbn [rev app] in H.
  destruct (shape m) as [|m0 ms] using rev_ind.
  - cbn in H. injection H as <-. exists lk.
    cbn [rev]. now rewrite rev_involutive.
  - clear IHms. rewrite removelast_last in Hfit.
    rewrite rev_app_distr in H. cbn [rev app Tensor.bcast_rev] in H.
    apply bind_ok in H. destruct H as (r & Hr & H).
    apply bind_ok in Hr. destruct Hr as (d & _ & Hr).
    apply bind_ok in Hr. destruct Hr as (r' & Hr' & Hr).
    apply bind_ok in Hfit. destruct Hfit as (r0 & Hr0 & Hfit).
    injection H as <-. injection Hr as <-. injection Hfit as Hfit.
    rewrite Hr0 in Hr'. injection Hr' as <-.
    exists d. cbn [rev]. now rewrite Hfit.
Qed.

(** A mask that broadcasts into the score shape fits the axes before the
    key-length axis. *)
Lemma mask_ok_fits (pre : list nat) (lk : nat) (mask : option (tensor R)) :
  mask_ok (pre ++ [lk]) mask -> mask_fits pre mask.
Proof.
  destruct mask as [m|]; [|trivial]. unfold mask_ok, mask_fits.
  unfold Tensor.broadcast_shapes. rewrite rev_app_distr. cbn [rev app].
  destruct (shape m) as [|ml ms] using rev_ind; intros H.
  - cbn [removelast rev].
    destruct (rev pre) eqn:E; cbn [Tensor.bcast_rev bind]; rewrite <- E;
      now rewrite rev_involutive.
  - clear IHms. rewrite removelast_last.
    rewrite rev_app_distr in H. cbn [rev app Tensor.bcast_rev] in H.
    apply bind_ok in H. destruct H as (r & Hr & H).
    apply bind_ok in Hr. destruct Hr as (d & _ & Hr).
    apply bind_ok in Hr. destruct Hr as (r' & Hr' & Hr).
    injection Hr as <-. injection H as H. cbn [rev] in H.
    apply app_inj_tail in H. destruct H as (H & _).
    rewrite Hr'. cbn [bind]. now rewrite H.
Qed.

Lemma look_ahead_mask_ok (size b h : nat) (mask : tensor R) :
  create_look_ahead_mask size = Ok mask ->
  mask_ok [b; h; size; size] (Some mask).
Proof.
  intros H.
  destruct (create_look_ahead_mask_entries size) as (m & Hm & Hs & _).
  rewrite Hm in H. injection H as <-.
  unfold mask_ok, Tensor.broadcast_shapes. rewrite Hs.
  cbn [rev app Tensor.bcast_rev]. rewrite !bcast_dim_refl. reflexivity.
Qed.

Lemma padding_mask_ok (seq : tensor Z) (b len h lq : nat) (mask : tensor R) :
  shape seq = [b; len] ->
  create_padding_mask seq = Ok mask ->
  mask_ok [b; h; lq; len] (Some mask).
Proof.
  intros Hseq H.
  destruct (create_padding_mask_entries seq Hseq) as (m & Hm & Hs & _).
  rewrite Hm in H. injection H as <-.
  unfold mask_ok, Tensor.broadcast_shapes. rewrite Hs.
  cbn [rev app Tensor.bcast_rev].
  rewrite !bcast_dim_refl, !bcast_dim_1_r. reflexivity.
Qed.

(** ** Scaled dot-product attention *)

(** On matrices the function returns, and its results are given entry by
    entry: the weights are the softmax of the scores along the keys, and
    the output is the product of the weights with the value. *)
Lemma attention_on_matrices
      (q k v : tensor R) (mask : option (tensor R)) (lq lk d dv : nat) :
  shape q = [lq; d] -> shape k = [lk; d] -> shape v = [lk; dv] ->
  (forall m, mask = Some m -> shape m = [lq; lk]) ->
  exists output weights,
    scaled_dot_product_attention q k v mask = Ok (output, weights)
    /\ shape weights = [lq; lk]
    /\ shape output = [lq; dv]
    /\ (forall i j, i < lq -> j < lk ->
          elem weights [i; j]
          = (exp (attention_score q k mask d i j)
             / rsum lk (fun j' => exp (attention_score q k mask d i j')))%R)
    /\ (forall i c, i < lq -> c < dv ->
          elem output [i; c]
          = rsum lk (fun j => (elem weights [i; j] * elem v [j; c])%R)).
Proof.
  intros Hq Hk Hv Hmask.
  unfold scaled_dot_product_attention, Tensor.matmul, Tensor.last_dim,
    Tensor.softmax, Tensor.last_dim.
  rewrite Hq, Hk. cbn [rev app bind Tensor.bcast_rev]. rewrite Nat.eqb_refl.
  cbn [bind].
  destruct mask as [m|].
  - specialize (Hmask m eq_refl).
    unfold Tensor.add, Tensor.broadcast2. cbn [shape Tensor.tmap].
    rewrite Hmask, broadcast_shapes_refl. cbn [bind shape rev app].
    rewrite Hv. cbn [rev app Tensor.bcast_rev bind]. rewrite Nat.eqb_refl.
    cbn [bind].
    eexists. eexists. split; [reflexivity|].
    split; [reflexivity|]. split; [reflexivity|]. split.
    + intros i j Hi Hj.
      cbn [elem Tensor.tmap removelast app length Nat.sub firstn nth
           Tensor.bcast_index combine map skipn fst snd].
      rewrite (axis_index_in_range Hi).
      unfold attention_score. f_equal.
      * now rewrite (axis_index_in_range Hj).
      * apply rsum_ext. intros j' Hj'.
        now rewrite (axis_index_in_range Hj').
    + intros i c _ _. reflexivity.
  - cbn [bind shape rev app Tensor.tmap].
    rewrite Hv. cbn [rev app Tensor.bcast_rev bind]. rewrite Nat.eqb_refl.
    cbn [bind].
    eexists. eexists. split; [reflexivity|].
    split; [reflexivity|]. split; [reflexivity|]. split.
    + intros i j _ _. reflexivity.
    + intros i c _ _. reflexivity.
Qed.

(** C1: for every query, key and value such that the query and the key have
    the same last dimension (depth) and the key and the value have the same
    key-length dimension, [scaled_dot_product_attention] returns what the
    spec's attention returns: weights that are the softmax over the
    key-length axis of [(q . k^T) / sqrt(depth)], with [mask * (-1e9)] added
    when a mask is supplied and nothing added when it is [None], and the
    output [weights . v].  On matrices of a positive depth this reads entry
    by entry: in every row [i] that has an unmasked key,
    [weights[i][j] = exp(s[i][j]) / sum over j' of exp(s[i][j'])] for the
    masked, scaled scores [s]; and in every row [output[i][c]] is the sum
    over [j] of [weights[i][j] * v[j][c]]. *)
Theorem scaled_dot_product_attention_spec
        (q k v : tensor R) (mask : option (tensor R)) :
  Tensor.last_dim q = Tensor.last_dim k ->
  key_length k = key_length v ->
  scaled_dot_product_attention q k v mask = attend_spec q k v mask
  /\ forall lq lk depth dv,
       shape q = [lq; depth] -> shape k = [lk; depth] -> shape v = [lk; dv] ->
       (forall m, mask = Some m -> shape m = [lq; lk]) ->
       0 < depth ->
       exists output weights,
         scaled_dot_product_attention q k v mask = Ok (output, weights)
         /\ shape weights = [lq; lk]
         /\ shape output = [lq; dv]
         /\ (forall i j, i < lq -> j < lk ->
               row_has_unmasked_key mask lk i ->
               elem weights [i; j]
               = (exp (attention_score q k mask depth i j)
                  / rsum lk (fun j' =>
                               exp (attention_score q k mask depth i j')))%R)
         /\ (forall i c, i < lq -> c < dv ->
               elem output [i; c]
               = rsum lk (fun j => (elem weights [i; j] * elem v [j; c])%R)).
Proof.
  intros Hdepth _. split.
  - unfold scaled_dot_product_attention, attend_spec.
    rewrite Hdepth. reflexivity.
  - intros lq lk depth dv Hq Hk Hv Hmask _.
    destruct (@attention_on_matrices q k v mask lq lk depth dv Hq Hk Hv Hmask)
      as (output & weights & Hrun & Hws & Hos & Hw & Hout).
    exists output, weights.
    split; [exact Hrun|]. split; [exact Hws|]. split; [exact Hos|].
    split; [|exact Hout].
    intros i j Hi Hj _. exact (Hw i j Hi Hj).
Qed.

Lemma scaled_dot_product_attention_spec_witness :
  scaled_dot_product_attention
    (constant_tensor [2; 3] 1%R) (constant_tensor [4; 3] 1%R)
    (constant_tensor [4; 5] 1%R) (Some (constant_tensor [2; 4] 0%R))
  = attend_spec
      (constant_tensor [2; 3] 1%R) (constant_tensor [4; 3] 1%R)
      (constant_tensor [4; 5] 1%R) (Some (constant_tensor [2; 4] 0%R))
  /\ exists output weights,
       scaled_dot_product_attention
         (constant_tensor [2; 3] 1%R) (constant_tensor [4; 3] 1%R)
         (constant_tensor [4; 5] 1%R) (Some (constant_tensor [2; 4] 0%R))
       = Ok (output, weights)
       /\ shape weights = [2; 4]
       /\ shape output = [2; 5]
       /\ (forall i j, i < 2 -> j < 4 ->
             elem weights [i; j]
             = (exp (attention_score
                       (constant_tensor [2; 3]%nat 1)
                       (constant_tensor [4; 3]%nat 1)
                       (Some (constant_tensor [2; 4]%nat 0)) 3 i j)
                / rsum 4 (fun j' =>
                            exp (attention_score
                                   (constant_tensor [2; 3]%nat 1)
                                   (constant_tensor [4; 3]%nat 1)
                                   (Some (constant_tensor [2; 4]%nat 0))
                                   3 i j')))%R).
Proof.
  destruct (@scaled_dot_product_attention_spec
              (constant_tensor [2; 3] 1%R) (constant_tensor [4; 3] 1%R)
              (constant_tensor [4; 5] 1%R) (Some (constant_tensor [2; 4] 0%R))
              eq_refl eq_refl) as (Heq & Hentries).
  split; [exact Heq|].
  destruct (Hentries 2 4 3 5 eq_refl eq_refl eq_refl)
    as (output & weights & Hrun & Hw & Ho & He & _).
  - intros m Hm. injection Hm as <-. reflexivity.
  - lia.
  - exists output, weights.
    split; [exact Hrun|]. split; [exact Hw|]. split; [exact Ho|].
    intros i j Hi Hj. apply (He i j Hi Hj). split.
    + intros j' _. cbn. lra.
    + exists 0. split; [lia | reflexivity].
Defined.

Lemma scaled_dot_product_attention_shape
      (q k v out w : tensor R) (mask : option (tensor R))
      (b h lq dp nk dpk nv dv : nat) :
  shape q = [b; h; lq; dp] ->
  shape k = [b; h; nk; dpk] ->
  shape v = [b; h; nv; dv] ->
  mask_fits [b; h; lq] mask ->
  scaled_dot_product_attention q k v mask = Ok (out, w) ->
  shape out = [b; h; lq; dv].
Proof.
  intros Hq Hk Hv Hfit H. unfold scaled_dot_product_attention in H.
  apply bind_ok in H. destruct H as (scores & Hscores & H).
  apply bind_ok in H. destruct H as (dk & _ & H).
  apply bind_ok in H. destruct H as (masked & Hmasked & H).
  apply bind_ok in H. destruct H as (weights & Hweights & H).
  apply bind_ok in H. destruct H as (output & Houtput & H).
  injection H as <- <-.
  eapply matmul_shape4 in Hscores; [|eassumption..].
  destruct Hscores as (Hs & _).
  assert (Hm : exists lk', shape masked = [b; h; lq; lk']).
  { destruct mask as [m|].
    - eapply add_mask_shape with (pre := [b; h; lq]) (lk := nk) in Hmasked;
        [exact Hmasked | exact Hs | exact Hfit].
    - injection Hmasked as <-. eauto. }
  destruct Hm as (lk' & Hm).
  apply softmax_shape in Hweights. rewrite Hm in Hweights.
  eapply matmul_shape4 in Houtput; [|eassumption..].
  destruct Houtput as (Ho & _). exact Ho.
Qed.

Lemma scaled_dot_product_attention_returns
      (q k v : tensor R) (mask : option (tensor R)) (b h lq lk dp : nat) :
  shape q = [b; h; lq; dp] ->
  shape k = [b; h; lk; dp] ->
  shape v = [b; h; lk; dp] ->
  mask_ok [b; h; lq; lk] mask ->
  exists out w,
    scaled_dot_product_attention q k v mask = Ok (out, w)
    /\ shape out = [b; h; lq; dp]
    /\ shape w = [b; h; lq; lk].
Proof.
  intros Hq Hk Hv Hmask. unfold scaled_dot_product_attention.
  destruct (@matmul4_returns true q k b h lq dp lk dp Hq Hk eq_refl)
    as (scores & Hscores & Hs).
  rewrite Hscores. cbn [bind].
  unfold Tensor.last_dim at 1. rewrite Hk. cbn [rev app bind].
  assert (Hm : exists masked,
             match mask with
             | Some mask0 =>
                 Tensor.add
                   (Tensor.tmap (fun s => (s / sqrt (INR dp))%R) scores)
                   (Tensor.tmap (fun m => (m * -1e9)%R) mask0)
             | None => Ok (Tensor.tmap (fun s => (s / sqrt (INR dp))%R) scores)
             end = Ok masked
             /\ shape masked = [b; h; lq; lk]).
  { destruct mask as [m|].
    - unfold Tensor.add, Tensor.broadcast2. cbn [shape Tensor.tmap].
      unfold mask_ok in Hmask. rewrite Hs, Hmask. cbn [bind].
      eexists. split; reflexivity.
    - eexists. split; [reflexivity | exact Hs]. }
  destruct Hm as (masked & Hmasked & Hms). rewrite Hmasked. cbn [bind].
  destruct (@softmax_returns masked) as (w & Hw & Hws).
  { rewrite Hms. discriminate. }
  rewrite Hw. cbn [bind]. rewrite Hms in Hws.
  destruct (@matmul4_returns false w v b h lq lk lk dp Hws Hv eq_refl)
    as (out & Hout & Hos).
  rewrite Hout. cbn [bind]. exists out, w. auto.
Qed.

(** ** Multi-head attention *)

Lemma divisible_by_mod (d h : nat) :
  divisible_by d h <-> h <> 0 /\ d mod h = 0.
Proof.
  unfold divisible_by. split; intros [Hh H]; split; trivial.
  - now apply Nat.Lcm0.mod_divide.
  - now apply Nat.Lcm0.mod_divide.
Qed.

(** The constructor of the multi-head attention layer succeeds exactly on
    divisible configurations. *)
Lemma MultiHeadAttention_init_ok (d h : nat) (w : MultiHeadAttention.vars) :
  divisible_by d h ->
  exists l,
    MultiHeadAttention.init d h w = Ok l
    /\ MultiHeadAttention.d_model l = d
    /\ MultiHeadAttention.num_heads l = h
    /\ MultiHeadAttention.depth l = d / h
    /\ MultiHeadAttention.depth l * h = d
    /\ Keras.Dense.units (MultiHeadAttention.wq l) = d
    /\ Keras.Dense.units (MultiHeadAttention.wk l) = d
    /\ Keras.Dense.units (MultiHeadAttention.wv l) = d
    /\ Keras.Dense.units (MultiHeadAttention.dense l) = d
    /\ Keras.Dense.activation_fn (MultiHeadAttention.dense l) = Keras.Linear.
Proof.
  intros Hdiv. apply divisible_by_mod in Hdiv. destruct Hdiv as [Hh Hm].
  unfold MultiHeadAttention.init, py_mod, py_floordiv.
  apply Nat.eqb_neq in Hh. rewrite Hh. cbn [bind].
  rewrite Hm. cbn [Nat.eqb assert bind].
  eexists. split; [reflexivity|]. cbn.
  repeat split; trivial.
  apply Nat.eqb_neq in Hh.
  pose proof (Nat.div_mod_eq d h) as E. rewrite Hm in E. lia.
Qed.

Lemma MultiHeadAttention_init_raise (d h : nat) (w : MultiHeadAttention.vars) :
  ~ divisible_by d h ->
  exists e, MultiHeadAttention.init d h w = Raise e.
Proof.
  intros Hn. unfold MultiHeadAttention.init, py_mod.
  destruct (h =? 0) eqn:Hh; cbn [bind]; [eauto|].
  destruct (d mod h =? 0) eqn:Hm; cbn [assert bind]; [|eauto].
  exfalso. apply Hn. apply divisible_by_mod.
  apply Nat.eqb_neq in Hh. apply Nat.eqb_eq in Hm. auto.
Qed.

Lemma MultiHeadAttention_init_wf (d h : nat) (w : MultiHeadAttention.vars)
      (l : MultiHeadAttention.t) :
  MultiHeadAttention.init d h w = Ok l -> wf_mha d h l.
Proof.
  unfold MultiHeadAttention.init, py_mod, py_floordiv. intros H.
  destruct (h =? 0) eqn:Hh; [discriminate|]. cbn [bind] in H.
  destruct (d mod h =? 0) eqn:Hm; [|discriminate]. cbn [assert bind] in H.
  injection H as <-. unfold wf_mha. cbn.
  repeat split; trivial.
  apply Nat.eqb_eq in Hm.
  pose proof (Nat.div_mod_eq d h) as E. lia.
Qed.

(** C7: constructing the multi-head attention component fails if and only if
    [feature_dim] is not divisible by [head_count]; when it is divisible,
    construction succeeds and the per-head depth is
    [feature_dim / head_count], an exact quotient. *)
Theorem multi_head_construction (feature_dim head_count : nat)
        (w : MultiHeadAttention.vars) :
  ((exists e, MultiHeadAttention.init feature_dim head_count w = Raise e)
   <-> ~ divisible_by feature_dim head_count)
  /\ (divisible_by feature_dim head_count ->
      exists l,
        MultiHeadAttention.init feature_dim head_count w = Ok l
        /\ MultiHeadAttention.depth l = feature_dim / head_count
        /\ MultiHeadAttention.depth l * head_count = feature_dim).
Proof.
  split; [split|].
  - intros (e & He) Hdiv.
    destruct (MultiHeadAttention_init_ok w Hdiv) as (l & Hl & _).
    congruence.
  - apply MultiHeadAttention_init_raise.
  - intros Hdiv.
    destruct (MultiHeadAttention_init_ok w Hdiv)
      as (l & Hl & _ & _ & Hd & Hx & _).
    exists l. auto.
Qed.

Lemma multi_head_construction_witness :
  exists l,
    MultiHeadAttention.init 8 2 example_mha_vars = Ok l
    /\ MultiHeadAttention.depth l = 4
    /\ MultiHeadAttention.depth l * 2 = 8.
Proof.
  apply (proj2 (multi_head_construction 8 2 example_mha_vars)).
  split; [lia | exists 4; reflexivity].
Defined.

Lemma example_mha_constructed :
  MultiHeadAttention.init 4 2 example_mha_vars = Ok example_mha.
Proof. reflexivity. Qed.

(** C2 (as stated, refuted): in the decoder's cross-attention call
    [mha2(enc_output, enc_output, out1, padding_mask)], with an encoder
    output of length 3 and a decoder state of length 2, the layer returns;
    applying the query projection to the first argument and the value
    projection to the third, as the contract order would have it, fails on
    the mismatch of the lengths. *)
Lemma multi_head_not_contract_order :
  MultiHeadAttention.call example_mha example_enc_output example_enc_output
                          example_out1 None
  <> multi_head_spec example_mha example_enc_output example_enc_output
                     example_out1 None.
Proof.
  intros H. apply (f_equal is_ok) in H.
  vm_compute in H. discriminate.
Qed.

(** C2 (amended): the multi-head attention operation takes its tensors
    positionally in the order [(value, key, query, mask)]: it applies the
    value projection [wv] to its first argument, the key projection [wk] to
    its second argument and the query projection [wq] to its third argument
    before splitting into heads and running scaled dot-product attention. *)
Theorem multi_head_argument_order
        (self : MultiHeadAttention.t) (value key query : tensor R)
        (mask : option (tensor R)) :
  MultiHeadAttention.call self value key query mask
  = multi_head_spec self query key value mask.
Proof. reflexivity. Qed.

(** ** Construction of the stacks *)

Lemma EncoderLayer_init_wf (d h fc : nat) (rate eps : R)
      (w : EncoderLayer.vars) (l : EncoderLayer.t) :
  EncoderLayer.init d h fc rate eps w = Ok l -> wf_encoder_layer d h l.
Proof.
  unfold EncoderLayer.init. intros H.
  apply bind_ok in H. destruct H as (m & Hm & H).
  injection H as <-. unfold wf_encoder_layer. cbn.
  split; [now apply MultiHeadAttention_init_wf in Hm | eauto].
Qed.

Lemma EncoderLayer_init_returns (d h fc : nat) (rate eps : R)
      (w : EncoderLayer.vars) :
  divisible_by d h -> exists l, EncoderLayer.init d h fc rate eps w = Ok l.
Proof.
  intros Hdiv. unfold EncoderLayer.init.
  destruct (MultiHeadAttention_init_ok (EncoderLayer.mha_vars w) Hdiv)
    as (m & Hm & _).
  rewrite Hm. cbn [bind]. eauto.
Qed.

Lemma DecoderLayer_init_wf (d h fc : nat) (rate eps : R)
      (w : DecoderLayer.vars) (l : DecoderLayer.t) :
  DecoderLayer.init d h fc rate eps w = Ok l -> wf_decoder_layer d h l.
Proof.
  unfold DecoderLayer.init. intros H.
  apply bind_ok in H. destruct H as (m1 & Hm1 & H).
  apply bind_ok in H. destruct H as (m2 & Hm2 & H).
  injection H as <-. unfold wf_decoder_layer. cbn.
  split; [now apply MultiHeadAttention_init_wf in Hm1|].
  split; [now apply MultiHeadAttention_init_wf in Hm2|].
  eauto.
Qed.

Lemma DecoderLayer_init_returns (d h fc : nat) (rate eps : R)
      (w : DecoderLayer.vars) :
  divisible_by d h -> exists l, DecoderLayer.init d h fc rate eps w = Ok l.
Proof.
  intros Hdiv. unfold DecoderLayer.init.
  destruct (MultiHeadAttention_init_ok (DecoderLayer.mha1_vars w) Hdiv)
    as (m1 & Hm1 & _).
  destruct (MultiHeadAttention_init_ok (DecoderLayer.mha2_vars w) Hdiv)
    as (m2 & Hm2 & _).
  rewrite Hm1, Hm2. cbn [bind]. eauto.
Qed.

Lemma Encoder_init_wf
      (n d h fc vocab max_pos : nat) (rate eps : R) (w : Encoder.vars)
      (enc : Encoder.t) :
  Encoder.init n d h fc vocab max_pos rate eps w = Ok enc ->
  wf_encoder d h max_pos enc.
Proof.
  unfold Encoder.init. intros H.
  destruct (get_positional_encodings_table max_pos d) as (t & Ht & Hs & _).
  rewrite Ht in H. cbn [bind] in H.
  apply bind_ok in H. destruct H as (layers & Hlayers & H).
  injection H as <-. unfold wf_encoder. cbn.
  repeat split; trivial.
  - eapply mapM_Forall; [|exact Hlayers].
    intros k l Hl. cbn in Hl. eapply EncoderLayer_init_wf; eauto.
  - apply mapM_length in Hlayers. now rewrite Hlayers, length_seq.
Qed.

Lemma Encoder_init_returns
      (n d h fc vocab max_pos : nat) (rate eps : R) (w : Encoder.vars) :
  divisible_by d h ->
  exists enc, Encoder.init n d h fc vocab max_pos rate eps w = Ok enc.
Proof.
  intros Hdiv. unfold Encoder.init.
  destruct (get_positional_encodings_table max_pos d) as (t & Ht & _).
  rewrite Ht. cbn [bind].
  destruct (@mapM_returns _ _
              (fun k => EncoderLayer.init d h fc rate eps (Encoder.layer_vars w k))
              (seq 0 n)) as (layers & Hl).
  { intros k. now apply EncoderLayer_init_returns. }
  rewrite Hl. cbn [bind]. eauto.
Qed.

(** With at least one layer, a configuration that is not divisible makes the
    constructors of the stacks fail: the first layer's attention component
    raises. *)
Lemma Encoder_init_raise
      (n d h fc vocab maxpos : nat) (rate eps : R) (w : Encoder.vars) :
  ~ divisible_by d h ->
  exists e, Encoder.init (S n) d h fc vocab maxpos rate eps w = Raise e.
Proof.
  intros Hn. unfold Encoder.init.
  destruct (get_positional_encodings_table maxpos d) as (t & Ht & _).
  rewrite Ht. cbn [bind].
  destruct (@mapM_raise_head _ _
              (fun k => EncoderLayer.init d h fc rate eps (Encoder.layer_vars w k))
              0 (seq 1 n)) as (e & He).
  - unfold EncoderLayer.init.
    destruct (MultiHeadAttention_init_raise
                (EncoderLayer.mha_vars (Encoder.layer_vars w 0)) Hn) as (e & He).
    rewrite He. cbn [bind]. eauto.
  - change (seq 0 (S n)) with (0 :: seq 1 n). rewrite He. cbn [bind]. eauto.
Qed.

Lemma Decoder_init_wf
      (n d h fc vocab max_pos : nat) (rate eps : R) (w : Decoder.vars)
      (dec : Decoder.t) :
  Decoder.init n d h fc vocab max_pos rate eps w = Ok dec ->
  wf_decoder d h max_pos dec /\ Decoder.num_layers dec = n.
Proof.
  unfold Decoder.init. intros H.
  destruct (get_positional_encodings_table max_pos d) as (t & Ht & Hs & _).
  rewrite Ht in H. cbn [bind] in H.
  apply bind_ok in H. destruct H as (layers & Hlayers & H).
  injection H as <-. unfold wf_decoder. cbn.
  repeat split; trivial.
  - eapply mapM_Forall; [|exact Hlayers].
    intros k l Hl. cbn in Hl. eapply DecoderLayer_init_wf; eauto.
  - apply mapM_length in Hlayers. now rewrite Hlayers, length_seq.
Qed.

Lemma Decoder_init_returns
      (n d h fc vocab max_pos : nat) (rate eps : R) (w : Decoder.vars) :
  divisible_by d h ->
  exists dec, Decoder.init n d h fc vocab max_pos rate eps w = Ok dec.
Proof.
  intros Hdiv. unfold Decoder.init.
  destruct (get_positional_encodings_table max_pos d) as (t & Ht & _).
  rewrite Ht. cbn [bind].
  destruct (@mapM_returns _ _
              (fun k => DecoderLayer.init d h fc rate eps (Decoder.layer_vars w k))
              (seq 0 n)) as (layers & Hl).
  { intros k. now apply DecoderLayer_init_returns. }
  rewrite Hl. cbn [bind]. eauto.
Qed.

Lemma Decoder_init_raise
      (n d h fc vocab maxpos : nat) (rate eps : R) (w : Decoder.vars) :
  ~ divisible_by d h ->
  exists e, Decoder.init (S n) d h fc vocab maxpos rate eps w = Raise e.
Proof.
  intros Hn. unfold Decoder.init.
  destruct (get_positional_encodings_table maxpos d) as (t & Ht & _).
  rewrite Ht. cbn [bind].
  destruct (@mapM_raise_head _ _
              (fun k => DecoderLayer.init d h fc rate eps (Decoder.layer_vars w k))
              0 (seq 1 n)) as (e & He).
  - unfold DecoderLayer.init.
    destruct (MultiHeadAttention_init_raise
                (DecoderLayer.mha1_vars (Decoder.layer_vars w 0)) Hn) as (e & He).
    rewrite He. cbn [bind]. eauto.
  - change (seq 0 (S n)) with (0 :: seq 1 n). rewrite He. cbn [bind]. eauto.
Qed.

Lemma Transformer_init_wf
      (n d h fc in_vocab tgt_vocab max_in max_tgt : nat) (rate eps : R)
      (w : Transformer.vars) (tr : Transformer.t) :
  Transformer.init n d h fc in_vocab tgt_vocab max_in max_tgt rate eps w
  = Ok tr ->
  wf_decoder d h max_tgt (Transformer.decoder tr)
  /\ Decoder.num_layers (Transformer.decoder tr) = n
  /\ Keras.Dense.units (Transformer.final_layer tr) = tgt_vocab
  /\ Keras.Dense.activation_fn (Transformer.final_layer tr) = Keras.Softmax.
Proof.
  unfold Transformer.init. intros H.
  apply bind_ok in H. destruct H as (enc & _ & H).
  apply bind_ok in H. destruct H as (dec & Hdec & H).
  injection H as <-. cbn.
  apply Decoder_init_wf in Hdec. destruct Hdec as (Hwf & Hn).
  split; [exact Hwf|]. split; [exact Hn|]. split; reflexivity.
Qed.

Lemma Transformer_init_returns
      (n d h fc in_vocab tgt_vocab max_in max_tgt : nat) (rate eps : R)
      (w : Transformer.vars) :
  divisible_by d h ->
  exists tr,
    Transformer.init n d h fc in_vocab tgt_vocab max_in max_tgt rate eps w
    = Ok tr.
Proof.
  intros Hdiv. unfold Transformer.init.
  destruct (@Encoder_init_returns n d h fc in_vocab max_in rate eps
              (Transformer.encoder_vars w) Hdiv) as (enc & He).
  destruct (@Decoder_init_returns n d h fc tgt_vocab max_tgt rate eps
              (Transformer.decoder_vars w) Hdiv) as (dec & Hd).
  rewrite He, Hd. cbn [bind]. eauto.
Qed.

(** C10: with [num_layers = 0], constructing the Encoder, the Decoder and the
    Transformer succeeds for every [(feature_dim, head_count)] pair whose
    [feature_dim] is positive, whether or not [head_count] divides
    [feature_dim], provided the vocabularies are not empty and the dropout
    rate lies in [[0, 1]], as the Keras constructors require: no layer,
    hence no multi-head attention component, is instantiated. *)
Theorem empty_stack_construction
        (feature_dim head_count fully_connected_dim
         input_vocab_size target_vocab_size
         max_pos_input max_pos_target : nat)
        (dropout_rate layernorm_eps : R)
        (we : Encoder.vars) (wd : Decoder.vars) (wt : Transformer.vars) :
  keras_accepts feature_dim input_vocab_size dropout_rate ->
  keras_accepts feature_dim target_vocab_size dropout_rate ->
  (exists enc,
      Encoder.init 0 feature_dim head_count fully_connected_dim
                   input_vocab_size max_pos_input
                   dropout_rate layernorm_eps we = Ok enc
      /\ Encoder.enc_layers enc = [])
  /\ (exists dec,
         Decoder.init 0 feature_dim head_count fully_connected_dim
                      target_vocab_size max_pos_target
                      dropout_rate layernorm_eps wd = Ok dec
         /\ Decoder.dec_layers dec = [])
  /\ (exists tr,
         Transformer.init 0 feature_dim head_count fully_connected_dim
                          input_vocab_size target_vocab_size
                          max_pos_input max_pos_target
                          dropout_rate layernorm_eps wt = Ok tr).
Proof.
  intros _ _.
  destruct (get_positional_encodings_table max_pos_input feature_dim)
    as (ti & Hti & _).
  destruct (get_positional_encodings_table max_pos_target feature_dim)
    as (tt & Htt & _).
  repeat split.
  - unfold Encoder.init. rewrite Hti. cbn. eexists. split; reflexivity.
  - unfold Decoder.init. rewrite Htt. cbn. eexists. split; reflexivity.
  - unfold Transformer.init, Encoder.init, Decoder.init.
    rewrite Hti, Htt. cbn. eexists. reflexivity.
Qed.

Lemma empty_stack_construction_witness :
  (exists enc,
      Encoder.init 0 8 3 16 100 10 0.1 1e-6 example_encoder_vars = Ok enc
      /\ Encoder.enc_layers enc = [])
  /\ (exists dec,
         Decoder.init 0 8 3 16 120 10 0.1 1e-6 example_decoder_vars = Ok dec
         /\ Decoder.dec_layers dec = [])
  /\ (exists tr,
         Transformer.init 0 8 3 16 100 120 10 10 0.1 1e-6
                          example_transformer_vars = Ok tr).
Proof.
  apply (@empty_stack_construction
           8 3 16 100 120 10 10 0.1%R 1e-6%R
           example_encoder_vars example_decoder_vars
           example_transformer_vars).
  - unfold keras_accepts. split; [lia|]. split; [lia|]. lra.
  - unfold keras_accepts. split; [lia|]. split; [lia|]. lra.
Defined.

(** ** Runs of the layers on a batch *)

Lemma split_heads_shape (self : MultiHeadAttention.t) (x y : tensor R)
      (b : nat) :
  MultiHeadAttention.split_heads self x b = Ok y ->
  exists n,
    shape y = [b; MultiHeadAttention.num_heads self; n;
               MultiHeadAttention.depth self]
    /\ b * (n * (MultiHeadAttention.num_heads self
                 * MultiHeadAttention.depth self))
       = prod_list (shape x).
Proof.
  unfold MultiHeadAttention.split_heads. intros H.
  apply bind_ok in H. destruct H as (r & Hr & H).
  apply reshape_heads_shape in Hr. destruct Hr as (n & Hs & Hp).
  exists n. split; [|exact Hp].
  eapply transpose_0213_shape; eauto.
Qed.

(** The layers run on a non-empty batch of [b] sequences, for a model of
    positive dimension [d] with [h] heads. *)
Section Runs.

Variables d h b : nat.
Hypothesis d_pos : 0 < d.
Hypothesis b_pos : 0 < b.

Lemma split_heads_returns (self : MultiHeadAttention.t) (x : tensor R)
      (l : nat) :
  wf_mha d h self ->
  shape x = [b; l; d] ->
  exists y, MultiHeadAttention.split_heads self x b = Ok y
            /\ shape y = [b; h; l; MultiHeadAttention.depth self].
Proof.
  intros (Hh & Hd & Hdp & _) Hs.
  unfold MultiHeadAttention.split_heads. rewrite Hh.
  destruct (@reshape_heads_returns _ x b l d h (MultiHeadAttention.depth self))
    as (r & Hr & Hrs); trivial; try nia.
  rewrite Hr. cbn [bind].
  now apply transpose_0213_returns.
Qed.

(** The output of a multi-head attention call has the shape of its query
    argument, with the model dimension as last axis. *)
Lemma MultiHeadAttention_call_shape
      (self : MultiHeadAttention.t) (v k q out w : tensor R)
      (mask : option (tensor R)) (lq dq : nat) :
  wf_mha d h self ->
  shape q = [b; lq; dq] ->
  mask_fits [b; h; lq] mask ->
  MultiHeadAttention.call self v k q mask = Ok (out, w) ->
  shape out = [b; lq; d].
Proof.
  intros (Hh & Hd & Hdp & Hwq & _ & _ & Hdense) Hq Hfit H.
  unfold MultiHeadAttention.call in H.
  apply bind_ok in H. destruct H as (batch_size & Hb & H).
  unfold Tensor.dim in Hb. rewrite Hq in Hb. cbn in Hb. injection Hb as <-.
  apply bind_ok in H. destruct H as (q1 & Hq1 & H).
  apply bind_ok in H. destruct H as (k1 & _ & H).
  apply bind_ok in H. destruct H as (v1 & _ & H).
  apply bind_ok in H. destruct H as (q2 & Hq2 & H).
  apply bind_ok in H. destruct H as (k2 & Hk2 & H).
  apply bind_ok in H. destruct H as (v2 & Hv2 & H).
  apply bind_ok in H. destruct H as ([sa aw] & Hsdpa & H).
  apply bind_ok in H. destruct H as (sat & Hsat & H).
  apply bind_ok in H. destruct H as (ca & Hca & H).
  apply bind_ok in H. destruct H as (output & Houtput & H).
  injection H as <- <-.
  apply Dense_call_shape in Hq1. rewrite Hq, Hwq in Hq1. cbn in Hq1.
  apply split_heads_shape in Hq2, Hk2, Hv2.
  destruct Hq2 as (n & Hq2 & Hn), Hk2 as (nk & Hk2 & _), Hv2 as (nv & Hv2 & _).
  rewrite Hh in *.
  assert (Hhd : h * MultiHeadAttention.depth self = d) by lia.
  rewrite Hq1 in Hn. cbn in Hn. rewrite Hhd in Hn.
  assert (n = lq).
  { apply (@mul_cancel_middle b n lq d); trivial. lia. }
  subst n.
  eapply scaled_dot_product_attention_shape in Hsdpa; [|eassumption..].
  eapply transpose_0213_shape in Hsat; [|eassumption].
  apply reshape_concat_shape in Hca. destruct Hca as (n & Hca & Hn').
  rewrite Hsat, Hd in *. cbn in Hn'.
  assert (n = lq).
  { apply (@mul_cancel_middle b n lq d); trivial.
    rewrite Hn'. rewrite <- Hhd. lia. }
  subst n.
  apply Dense_call_shape in Houtput.
  rewrite Houtput, Hca, Hdense. reflexivity.
Qed.

Lemma MultiHeadAttention_call_returns
      (self : MultiHeadAttention.t) (v k q : tensor R)
      (mask : option (tensor R)) (lq lk dq dk dv : nat) :
  wf_mha d h self ->
  shape q = [b; lq; dq] -> shape k = [b; lk; dk] -> shape v = [b; lk; dv] ->
  mask_ok [b; h; lq; lk] mask ->
  exists out w,
    MultiHeadAttention.call self v k q mask = Ok (out, w)
    /\ shape out = [b; lq; d]
    /\ shape w = [b; h; lq; lk].
Proof.
  intros Hwf Hq Hk Hv Hmask.
  pose proof Hwf as (Hh & Hd & Hdp & Hwq & Hwk & Hwv & Hdense).
  unfold MultiHeadAttention.call.
  unfold Tensor.dim. rewrite Hq. cbn [list_get nth_error bind].
  destruct (@Dense_call_returns (MultiHeadAttention.wq self) q)
    as (q1 & Hq1 & Hq1s); [unfold rank; rewrite Hq; cbn; lia|].
  destruct (@Dense_call_returns (MultiHeadAttention.wk self) k)
    as (k1 & Hk1 & Hk1s); [unfold rank; rewrite Hk; cbn; lia|].
  destruct (@Dense_call_returns (MultiHeadAttention.wv self) v)
    as (v1 & Hv1 & Hv1s); [unfold rank; rewrite Hv; cbn; lia|].
  rewrite Hq1, Hk1, Hv1. cbn [bind].
  rewrite Hq, Hwq in Hq1s. rewrite Hk, Hwk in Hk1s. rewrite Hv, Hwv in Hv1s.
  cbn in Hq1s, Hk1s, Hv1s.
  destruct (@split_heads_returns self q1 lq Hwf Hq1s) as (q2 & Hq2 & Hq2s).
  destruct (@split_heads_returns self k1 lk Hwf Hk1s) as (k2 & Hk2 & Hk2s).
  destruct (@split_heads_returns self v1 lk Hwf Hv1s) as (v2 & Hv2 & Hv2s).
  rewrite Hq2, Hk2, Hv2. cbn [bind].
  destruct (@scaled_dot_product_attention_returns q2 k2 v2 mask b h lq lk
              (MultiHeadAttention.depth self) Hq2s Hk2s Hv2s Hmask)
    as (sa & aw & Hsdpa & Hsas & Haws).
  rewrite Hsdpa. cbn [bind].
  destruct (@transpose_0213_returns _ sa _ _ _ _ Hsas) as (sat & Hsat & Hsats).
  rewrite Hsat. cbn [bind]. rewrite Hd.
  destruct (@reshape_concat_returns _ sat b lq d h
              (MultiHeadAttention.depth self))
    as (ca & Hca & Hcas); trivial; try nia.
  rewrite Hca. cbn [bind].
  destruct (@Dense_call_returns (MultiHeadAttention.dense self) ca)
    as (out & Hout & Houts); [unfold rank; rewrite Hcas; cbn; lia|].
  rewrite Hout. cbn [bind]. rewrite Hcas, Hdense in Houts. cbn in Houts.
  exists out, aw. auto.
Qed.

Lemma EncoderLayer_call_returns
      (self : EncoderLayer.t) (x : tensor R) (training : bool)
      (mask : option (tensor R)) (l : nat) :
  wf_encoder_layer d h self ->
  shape x = [b; l; d] ->
  mask_ok [b; h; l; l] mask ->
  exists y, EncoderLayer.call self x training mask = Ok y
            /\ shape y = [b; l; d].
Proof.
  intros (Hmha & fc & w & Hffn) Hx Hmask.
  unfold EncoderLayer.call.
  destruct (@MultiHeadAttention_call_returns
              (EncoderLayer.mha self) x x x mask l l d d d
              Hmha Hx Hx Hx Hmask) as (attn & aw & Hattn & Hattns & _).
  rewrite Hattn. cbn [bind].
  destruct (@add_returns x
              (Keras.Dropout.call (EncoderLayer.dropout1 self) attn training))
    as (s1 & Hs1 & Hs1s).
  { rewrite Dropout_call_shape. congruence. }
  rewrite Hs1. cbn [bind].
  destruct (@LayerNormalization_call_returns (EncoderLayer.layernorm1 self) s1)
    as (o1 & Ho1 & Ho1s).
  { rewrite Hs1s, Hx. discriminate. }
  rewrite Ho1. cbn [bind].
  assert (Ho1' : shape o1 = [b; l; d]) by congruence.
  rewrite Hffn.
  destruct (@FullyConnected_call_returns d fc w o1 b l d Ho1')
    as (f & Hf & Hfs).
  rewrite Hf. cbn [bind].
  destruct (@add_returns
              (Keras.Dropout.call (EncoderLayer.dropout2 self) f training) o1)
    as (s2 & Hs2 & Hs2s).
  { rewrite Dropout_call_shape. congruence. }
  rewrite Hs2. cbn [bind]. rewrite Dropout_call_shape in Hs2s.
  destruct (@LayerNormalization_call_returns (EncoderLayer.layernorm2 self) s2)
    as (o2 & Ho2 & Ho2s).
  { rewrite Hs2s, Hfs. discriminate. }
  rewrite Ho2. cbn [bind].
  exists o2. split; [reflexivity | congruence].
Qed.

Lemma encoder_loop_returns (self : Encoder.t) (training : bool)
      (mask : option (tensor R)) (l : nat) :
  Forall (wf_encoder_layer d h) (Encoder.enc_layers self) ->
  mask_ok [b; h; l; l] mask ->
  forall (n start : nat) (x : tensor R),
    start + n <= length (Encoder.enc_layers self) ->
    shape x = [b; l; d] ->
    exists y,
      for_range_from start n
        (fun i x =>
           layer <- list_get (Encoder.enc_layers self) i ;;
           EncoderLayer.call layer x training mask) x = Ok y
      /\ shape y = [b; l; d].
Proof.
  intros Hwf Hmask.
  induction n as [|n IH]; intros start x Hlen Hx; cbn [for_range_from].
  - exists x. auto.
  - destruct (@list_get_returns _ (Encoder.enc_layers self) start)
      as (layer & Hlayer & Hin); [lia|].
    rewrite Hlayer. cbn [bind].
    rewrite Forall_forall in Hwf.
    destruct (@EncoderLayer_call_returns layer x training mask l
                (Hwf _ Hin) Hx Hmask) as (x1 & Hx1 & Hx1s).
    rewrite Hx1. cbn [bind].
    apply IH; [lia | exact Hx1s].
Qed.

Lemma Encoder_call_returns
      (self : Encoder.t) (x : tensor Z) (training : bool)
      (mask : option (tensor R)) (max_pos l : nat) :
  wf_encoder d h max_pos self ->
  shape x = [b; l] -> l <= max_pos ->
  mask_ok [b; h; l; l] mask ->
  exists y, Encoder.call self x training mask = Ok y
            /\ shape y = [b; l; d].
Proof.
  intros (Hed & Hod & Hpe & Hwf & Hlen) Hx Hl Hmask.
  unfold Encoder.call, Tensor.dim. rewrite Hx. cbn [list_get nth_error bind].
  match goal with
  | |- exists y, bind (Tensor.slice_axis1 l _) (fun pe => bind (Tensor.add ?e pe) _) = _ /\ _ =>
      destruct (@add_pos_encoding_returns e (Encoder.pos_encoding self)
                  b l d max_pos) as (p & x1 & Hp & Hx1 & Hx1s)
  end; trivial.
  { cbn [shape Tensor.tmap Keras.Embedding.call]. rewrite Hx, Hod. reflexivity. }
  rewrite Hp. cbn [bind]. rewrite Hx1. cbn [bind].
  unfold for_range. apply encoder_loop_returns; trivial.
  - lia.
  - rewrite Dropout_call_shape. exact Hx1s.
Qed.

Lemma DecoderLayer_call_shape
      (self : DecoderLayer.t) (x enc_output out3 b1 b2 : tensor R)
      (training : bool) (look_ahead_mask padding_mask : option (tensor R))
      (lq : nat) :
  wf_decoder_layer d h self ->
  shape x = [b; lq; d] ->
  mask_fits [b; h; lq] look_ahead_mask ->
  mask_fits [b; h; lq] padding_mask ->
  DecoderLayer.call self x enc_output training look_ahead_mask padding_mask
  = Ok (out3, b1, b2) ->
  shape out3 = [b; lq; d].
Proof.
  intros (Hm1 & Hm2 & fc & w & Hffn) Hx Hlam Hpm H.
  unfold DecoderLayer.call in H.
  apply bind_ok in H. destruct H as ([attn1 w1] & Hattn1 & H).
  apply bind_ok in H. destruct H as (s1 & Hs1 & H).
  apply bind_ok in H. destruct H as (out1 & Hout1 & H).
  apply bind_ok in H. destruct H as ([attn2 w2] & Hattn2 & H).
  apply bind_ok in H. destruct H as (s2 & Hs2 & H).
  apply bind_ok in H. destruct H as (out2 & Hout2 & H).
  apply bind_ok in H. destruct H as (ffn_output & Hffn_output & H).
  apply bind_ok in H. destruct H as (s3 & Hs3 & H).
  apply bind_ok in H. destruct H as (o3 & Ho3 & H).
  injection H as <- _ _.
  (* block 1 *)
  eapply MultiHeadAttention_call_shape in Hattn1; [|eassumption..].
  apply add_same_shape in Hs1;
    [|rewrite Dropout_call_shape; congruence].
  rewrite Dropout_call_shape in Hs1.
  apply LayerNormalization_call_shape in Hout1.
  assert (Ho1 : shape out1 = [b; lq; d]) by congruence.
  (* block 2 *)
  eapply MultiHeadAttention_call_shape in Hattn2; [|eassumption..].
  apply add_same_shape in Hs2;
    [|rewrite Dropout_call_shape; congruence].
  rewrite Dropout_call_shape in Hs2.
  apply LayerNormalization_call_shape in Hout2.
  assert (Ho2 : shape out2 = [b; lq; d]) by congruence.
  (* feed forward *)
  rewrite Hffn in Hffn_output.
  eapply FullyConnected_call_shape in Hffn_output; [|eassumption].
  apply add_same_shape in Hs3;
    [|rewrite Dropout_call_shape; congruence].
  rewrite Dropout_call_shape in Hs3.
  apply LayerNormalization_call_shape in Ho3.
  congruence.
Qed.

Lemma DecoderLayer_call_returns
      (self : DecoderLayer.t) (x enc_output : tensor R) (training : bool)
      (look_ahead_mask padding_mask : option (tensor R))
      (lq lk de : nat) :
  wf_decoder_layer d h self ->
  shape x = [b; lq; d] ->
  shape enc_output = [b; lk; de] ->
  mask_ok [b; h; lq; lq] look_ahead_mask ->
  mask_ok [b; h; lq; lk] padding_mask ->
  exists out3 block1 block2,
    DecoderLayer.call self x enc_output training look_ahead_mask padding_mask
    = Ok (out3, block1, block2)
    /\ shape out3 = [b; lq; d].
Proof.
  intros (Hm1 & Hm2 & fc & w & Hffn) Hx Henc Hlam Hpm.
  unfold DecoderLayer.call.
  destruct (@MultiHeadAttention_call_returns
              (DecoderLayer.mha1 self) x x x look_ahead_mask lq lq d d d
              Hm1 Hx Hx Hx Hlam) as (a1 & w1 & Ha1 & Ha1s & _).
  rewrite Ha1. cbn [bind].
  destruct (@add_returns
              (Keras.Dropout.call (DecoderLayer.dropout1 self) a1 training) x)
    as (s1 & Hs1 & Hs1s).
  { rewrite Dropout_call_shape. congruence. }
  rewrite Hs1. cbn [bind]. rewrite Dropout_call_shape in Hs1s.
  destruct (@LayerNormalization_call_returns (DecoderLayer.layernorm1 self) s1)
    as (o1 & Ho1 & Ho1s).
  { rewrite Hs1s, Ha1s. discriminate. }
  rewrite Ho1. cbn [bind].
  assert (Ho1' : shape o1 = [b; lq; d]) by congruence.
  destruct (@MultiHeadAttention_call_returns
              (DecoderLayer.mha2 self) enc_output enc_output o1 padding_mask
              lq lk d de de Hm2 Ho1' Henc Henc Hpm)
    as (a2 & w2 & Ha2 & Ha2s & _).
  rewrite Ha2. cbn [bind].
  destruct (@add_returns
              (Keras.Dropout.call (DecoderLayer.dropout2 self) a2 training) o1)
    as (s2 & Hs2 & Hs2s).
  { rewrite Dropout_call_shape. congruence. }
  rewrite Hs2. cbn [bind]. rewrite Dropout_call_shape in Hs2s.
  destruct (@LayerNormalization_call_returns (DecoderLayer.layernorm2 self) s2)
    as (o2 & Ho2 & Ho2s).
  { rewrite Hs2s, Ha2s. discriminate. }
  rewrite Ho2. cbn [bind].
  assert (Ho2' : shape o2 = [b; lq; d]) by congruence.
  rewrite Hffn.
  destruct (@FullyConnected_call_returns d fc w o2 b lq d Ho2')
    as (f & Hf & Hfs).
  rewrite Hf. cbn [bind].
  destruct (@add_returns
              (Keras.Dropout.call (DecoderLayer.dropout3 self) f training) o2)
    as (s3 & Hs3 & Hs3s).
  { rewrite Dropout_call_shape. congruence. }
  rewrite Hs3. cbn [bind]. rewrite Dropout_call_shape in Hs3s.
  destruct (@LayerNormalization_call_returns (DecoderLayer.layernorm3 self) s3)
    as (o3 & Ho3 & Ho3s).
  { rewrite Hs3s, Hfs. discriminate. }
  rewrite Ho3. cbn [bind].
  exists o3, w1, w2. split; [reflexivity | congruence].
Qed.


Lemma decoder_loop_returns (self : Decoder.t) (enc_output : tensor R)
      (training : bool) (lam pm : option (tensor R))
      (lq lk de : nat) :
  Forall (wf_decoder_layer d h) (Decoder.dec_layers self) ->
  shape enc_output = [b; lk; de] ->
  mask_ok [b; h; lq; lq] lam ->
  mask_ok [b; h; lq; lk] pm ->
  forall (n start : nat) (x : tensor R) (aw : dict (tensor R)),
    start + n <= length (Decoder.dec_layers self) ->
    shape x = [b; lq; d] ->
    exists y aw',
      for_range_from start n
        (Decoder.layer_step self enc_output training lam pm) (x, aw)
      = Ok (y, aw')
      /\ shape y = [b; lq; d].
Proof.
  intros Hwf Henc Hlam Hpm.
  induction n as [|n IH]; intros start x aw Hlen Hx; cbn [for_range_from].
  - exists x, aw. auto.
  - unfold Decoder.layer_step at 1.
    destruct (@list_get_returns _ (Decoder.dec_layers self) start)
      as (layer & Hlayer & Hin); [lia|].
    rewrite Hlayer. cbn [bind].
    rewrite Forall_forall in Hwf.
    destruct (@DecoderLayer_call_returns layer x enc_output training lam pm
                lq lk de (Hwf _ Hin) Hx Henc Hlam Hpm)
      as (x1 & b1 & b2 & Hx1 & Hx1s).
    rewrite Hx1. cbn [bind].
    apply IH; [lia | exact Hx1s].
Qed.


Lemma Decoder_call_returns
      (self : Decoder.t) (x : tensor Z) (enc_output : tensor R)
      (training : bool) (look_ahead_mask padding_mask : option (tensor R))
      (max_pos tlen lk de : nat) :
  wf_decoder d h max_pos self ->
  shape x = [b; tlen] -> tlen <= max_pos ->
  shape enc_output = [b; lk; de] ->
  mask_ok [b; h; tlen; tlen] look_ahead_mask ->
  mask_ok [b; h; tlen; lk] padding_mask ->
  exists out aw,
    Decoder.call self x enc_output training look_ahead_mask padding_mask
    = Ok (out, aw)
    /\ shape out = [b; tlen; d].
Proof.
  intros (Hed & Hod & Hpe & Hwf & Hlen) Hx Hl Henc Hlam Hpm.
  unfold Decoder.call, Tensor.dim. rewrite Hx. cbn [list_get nth_error bind].
  match goal with
  | |- exists y aw, bind (Tensor.slice_axis1 tlen _)
                         (fun pe => bind (Tensor.add ?e pe) _) = _ /\ _ =>
      destruct (@add_pos_encoding_returns e (Decoder.pos_encoding self)
                  b tlen d max_pos) as (p & x1 & Hp & Hx1 & Hx1s)
  end; trivial.
  { cbn [shape Tensor.tmap Keras.Embedding.call]. rewrite Hx, Hod. reflexivity. }
  rewrite Hp. cbn [bind]. rewrite Hx1. cbn [bind].
  unfold for_range.
  apply decoder_loop_returns with (lk := lk) (de := de); trivial.
  - lia.
  - rewrite Dropout_call_shape. exact Hx1s.
Qed.

End Runs.

(** ** The attention-weights dictionary *)

Lemma chars_append (a b : string) :
  list_ascii_of_string (a ++ b)
  = list_ascii_of_string a ++ list_ascii_of_string b.
Proof.
  induction a as [|c a IH]; cbn; [reflexivity | now rewrite IH].
Qed.

Lemma chars_inj (a b : string) :
  list_ascii_of_string a = list_ascii_of_string b -> a = b.
Proof.
  intros H. apply (f_equal string_of_list_ascii) in H.
  now rewrite !string_of_list_ascii_of_string in H.
Qed.

Lemma str_of_nat_inj (m n : nat) : str_of_nat m = str_of_nat n -> m = n.
Proof.
  unfold str_of_nat. intros H.
  apply (f_equal NilEmpty.uint_of_string) in H.
  rewrite !NilEmpty.usu in H. injection H as H.
  now apply Unsigned.to_uint_inj.
Qed.

(** A key with a fixed prefix and suffix determines the number it prints. *)
Lemma format_inj (pre suf : string) (m n : nat) :
  (pre ++ str_of_nat m ++ suf = pre ++ str_of_nat n ++ suf)%string -> m = n.
Proof.
  intros H. apply (f_equal list_ascii_of_string) in H.
  rewrite !chars_append in H.
  apply app_inv_head in H. apply app_inv_tail in H.
  apply str_of_nat_inj. now apply chars_inj.
Qed.

Lemma block1_key_inj (m n : nat) : block1_key m = block1_key n -> m = n.
Proof. apply format_inj. Qed.

Lemma block2_key_inj (m n : nat) : block2_key m = block2_key n -> m = n.
Proof. apply format_inj. Qed.

(** The two kinds of key differ in their last five characters. *)
Lemma block1_key_neq_block2_key (m n : nat) : block1_key m <> block2_key n.
Proof.
  unfold block1_key, block2_key. intros H.
  apply (f_equal (fun k => firstn 5 (rev (list_ascii_of_string k)))) in H.
  rewrite !chars_append, !rev_app_distr in H.
  cbn in H. discriminate.
Qed.

Lemma dict_keys_set_new {V : Type} (d : dict V) (k : string) (v : V) :
  ~ In k (dict_keys d) -> dict_keys (dict_set d k v) = dict_keys d ++ [k].
Proof.
  induction d as [|[k' v'] d IH]; cbn; intros Hn; [reflexivity|].
  destruct (String.eqb_spec k' k) as [->|Hk].
  - exfalso. apply Hn. now left.
  - cbn. f_equal. apply IH. intros Hin. apply Hn. now right.
Qed.

Lemma expected_keys_succ (n : nat) :
  expected_keys (S n)
  = expected_keys n ++ [block1_key (S n); block2_key (S n)].
Proof.
  unfold expected_keys. rewrite seq_S, flat_map_app. cbn. reflexivity.
Qed.

Lemma expected_keys_in (n : nat) (k : string) :
  In k (expected_keys n) ->
  exists layer, layer <= n /\ (k = block1_key layer \/ k = block2_key layer).
Proof.
  unfold expected_keys. intros H. apply in_flat_map in H.
  destruct H as (layer & Hl & Hk). apply in_seq in Hl.
  exists layer. split; [lia|].
  cbn in Hk. intuition auto.
Qed.

Lemma expected_keys_length (n : nat) : length (expected_keys n) = 2 * n.
Proof.
  induction n as [|n IH]; [reflexivity|].
  rewrite expected_keys_succ, length_app, IH. cbn. lia.
Qed.

Lemma expected_keys_NoDup (n : nat) : NoDup (expected_keys n).
Proof.
  induction n as [|n IH]; [constructor|].
  rewrite expected_keys_succ.
  apply NoDup_app; [exact IH | | ].
  - constructor; [|constructor; [intros [] | constructor]].
    intros [E|[]]. symmetry in E. now apply block1_key_neq_block2_key in E.
  - intros k Hin Hk. apply expected_keys_in in Hin.
    destruct Hin as (l & Hl & Hin).
    destruct Hk as [E|[E|[]]]; subst k; destruct Hin as [E|E].
    + apply block1_key_inj in E. lia.
    + now apply block1_key_neq_block2_key in E.
    + symmetry in E. now apply block1_key_neq_block2_key in E.
    + apply block2_key_inj in E. lia.
Qed.

(** One iteration of the decoder's loop appends the two keys of its layer. *)
Lemma layer_step_keys (self : Decoder.t) (enc_output : tensor R)
      (training : bool) (lam pm : option (tensor R)) (i : nat)
      (x x' : tensor R) (aw aw' : dict (tensor R)) :
  Decoder.layer_step self enc_output training lam pm i (x, aw) = Ok (x', aw') ->
  dict_keys aw = expected_keys i ->
  dict_keys aw' = expected_keys (S i).
Proof.
  unfold Decoder.layer_step. intros H Hk.
  inv_bind H. inv_bind H. destruct v0 as [[x1 b1] b2].
  injection H as _ <-.
  rewrite Nat.add_1_r, expected_keys_succ.
  rewrite dict_keys_set_new.
  - rewrite dict_keys_set_new.
    + rewrite Hk, <- app_assoc. reflexivity.
    + rewrite Hk. intros Hin. apply expected_keys_in in Hin.
      destruct Hin as (l & Hl & [E|E]).
      * apply block1_key_inj in E. lia.
      * now apply block1_key_neq_block2_key in E.
  - rewrite dict_keys_set_new.
    + rewrite Hk. intros Hin. apply in_app_or in Hin.
      destruct Hin as [Hin|[E|[]]].
      * apply expected_keys_in in Hin.
        destruct Hin as (l & Hl & [E|E]).
        -- symmetry in E. now apply block1_key_neq_block2_key in E.
        -- apply block2_key_inj in E. lia.
      * now apply block1_key_neq_block2_key in E.
    + rewrite Hk. intros Hin. apply expected_keys_in in Hin.
      destruct Hin as (l & Hl & [E|E]).
      * apply block1_key_inj in E. lia.
      * now apply block1_key_neq_block2_key in E.
Qed.

Lemma decoder_loop_keys (self : Decoder.t) (enc_output : tensor R)
      (training : bool) (lam pm : option (tensor R)) (n : nat) :
  forall (start : nat) (x x' : tensor R) (aw aw' : dict (tensor R)),
    for_range_from start n
      (Decoder.layer_step self enc_output training lam pm) (x, aw)
    = Ok (x', aw') ->
    dict_keys aw = expected_keys start ->
    dict_keys aw' = expected_keys (start + n).
Proof.
  induction n as [|n IH]; intros start x x' aw aw' H Hk; cbn in H.
  - injection H as _ <-. now rewrite Nat.add_0_r.
  - inv_bind H. destruct v as [x1 aw1].
    rewrite <- Nat.add_succ_comm.
    apply (IH (S start) x1 x' aw1 aw' H).
    eapply layer_step_keys; eauto.
Qed.

(** C9: for every decoder forward pass that returns, the attention-weights
    collection has exactly [2 * num_layers] entries, keyed by layer index and
    block name, in the order layer 1 self-attention, layer 1
    cross-attention, layer 2 self-attention, and so on. *)
Theorem decoder_attention_weights_order
        (self : Decoder.t) (x : tensor Z) (enc_output : tensor R)
        (training : bool) (look_ahead_mask padding_mask : option (tensor R))
        (out : tensor R) (attention_weights : dict (tensor R)) :
  Decoder.call self x enc_output training look_ahead_mask padding_mask
  = Ok (out, attention_weights) ->
  dict_keys attention_weights = expected_keys (Decoder.num_layers self)
  /\ length attention_weights = 2 * Decoder.num_layers self
  /\ NoDup (dict_keys attention_weights).
Proof.
  unfold Decoder.call. intros H.
  inv_bind H. inv_bind H. inv_bind H.
  unfold for_range in H.
  apply decoder_loop_keys in H; [|reflexivity].
  cbn in H. split; [exact H|]. split.
  - unfold dict_keys in H.
    rewrite <- (length_map fst attention_weights), H.
    apply expected_keys_length.
  - rewrite H. apply expected_keys_NoDup.
Qed.

(** A decoder of two layers with [feature_dim = 4] and two heads, run on a
    target of length 2, returns the four keys in order. *)
Lemma decoder_attention_weights_order_witness :
  exists out attention_weights,
    (decoder <- Decoder.init 2 4 2 8 10 6 0.1 1e-6 example_decoder_vars ;;
     Decoder.call decoder example_decoder_tar example_enc_output
                  false None None)
    = Ok (out, attention_weights)
    /\ dict_keys attention_weights
       = ["decoder_layer1_block1_self_att"; "decoder_layer1_block2_decenc_att";
          "decoder_layer2_block1_self_att"; "decoder_layer2_block2_decenc_att"
         ]%string
    /\ length attention_weights = 4.
Proof.
  match goal with
  | |- exists _ _, ?run = _ /\ _ =>
      assert (Hok : is_ok run = true) by (vm_compute; reflexivity)
  end.
  apply is_ok_bind in Hok. destruct Hok as (decoder & Hinit & Hok).
  apply is_ok_true in Hok. destruct Hok as ([out attention_weights] & Hcall).
  exists out, attention_weights. split.
  - rewrite (bind_eq _ Hinit). exact Hcall.
  - apply Decoder_init_wf in Hinit. destruct Hinit as (_ & Hn).
    destruct (decoder_attention_weights_order _ _ _ _ _ _ Hcall)
      as (Hkeys & Hlen & _).
    rewrite Hn in Hkeys, Hlen. split; [exact Hkeys | exact Hlen].
Defined.

(** ** The Transformer's output *)

(** A constructed Transformer returns on every well-shaped input: sequences
    no longer than the positional tables, with admissible masks.  The
    output is a tensor of shape [(batch, target_length, target_vocab_size)]. *)
Lemma Transformer_call_returns
      (n d h fc in_vocab tgt_vocab max_in max_tgt : nat) (rate eps : R)
      (w : Transformer.vars) (tr : Transformer.t)
      (inp tar : tensor Z) (training : bool)
      (enc_padding_mask look_ahead_mask dec_padding_mask : option (tensor R))
      (b slen tlen : nat) :
  Transformer.init n d h fc in_vocab tgt_vocab max_in max_tgt rate eps w
  = Ok tr ->
  0 < d -> 0 < b ->
  shape inp = [b; slen] -> slen <= max_in ->
  shape tar = [b; tlen] -> tlen <= max_tgt ->
  mask_ok [b; h; slen; slen] enc_padding_mask ->
  mask_ok [b; h; tlen; tlen] look_ahead_mask ->
  mask_ok [b; h; tlen; slen] dec_padding_mask ->
  exists final_output attention_weights,
    Transformer.call tr inp tar training
                     enc_padding_mask look_ahead_mask dec_padding_mask
    = Ok (final_output, attention_weights)
    /\ shape final_output = [b; tlen; tgt_vocab].
Proof.
  intros Hinit Hd Hb Hinp Hsl Htar Htl Hem Hlam Hdm.
  unfold Transformer.init in Hinit.
  apply bind_ok in Hinit. destruct Hinit as (enc & Henc & Hinit).
  apply bind_ok in Hinit. destruct Hinit as (dec & Hdec & Hinit).
  injection Hinit as <-.
  apply Encoder_init_wf in Henc. apply Decoder_init_wf in Hdec.
  destruct Hdec as (Hdec & _).
  unfold Transformer.call. cbn [Transformer.encoder Transformer.decoder
                                Transformer.final_layer].
  destruct (@Encoder_call_returns d h b Hd Hb enc inp training
              enc_padding_mask max_in slen Henc Hinp Hsl Hem)
    as (enc_output & He & Hes).
  rewrite He. cbn [bind].
  destruct (@Decoder_call_returns d h b Hd Hb dec tar enc_output training
              look_ahead_mask dec_padding_mask max_tgt tlen slen d
              Hdec Htar Htl Hes Hlam Hdm)
    as (dec_output & aw & Hd' & Hds).
  rewrite Hd'. cbn [bind].
  match goal with
  | |- exists f a, bind (Keras.Dense.call ?l dec_output) _ = _ /\ _ =>
      destruct (@Dense_call_returns l dec_output) as (final & Hf & Hfs)
  end.
  { unfold rank. rewrite Hds. cbn. lia. }
  rewrite Hf. cbn [bind]. exists final, aw. split; [reflexivity|].
  rewrite Hfs, Hds. reflexivity.
Qed.



(** ** The positional table: further properties *)

Lemma angle_formula_pair (d p k : nat) :
  angle_formula d p (2 * k + 1) = angle_formula d p (2 * k).
Proof.
  unfold angle_formula.
  replace ((2 * k + 1) / 2) with k.
  2:{ apply Nat.div_unique with (r := 1); lia. }
  replace (2 * k / 2) with k.
  2:{ apply Nat.div_unique with (r := 0); lia. }
  reflexivity.
Qed.

(** X1: in every row of the positional encoding, the dimensions [2k] and
    [2k+1] hold the sine and the cosine of one and the same angle: the
    squares of the two entries sum to 1. *)
Theorem positional_encoding_unit_circle
        (max_positions feature_dim p k : nat) :
  p < max_positions -> 2 * k + 1 < feature_dim ->
  exists t,
    get_positional_encodings max_positions feature_dim = Ok t
    /\ (elem t [0; p; 2 * k]%nat * elem t [0; p; 2 * k]%nat
        + elem t [0; p; 2 * k + 1]%nat * elem t [0; p; 2 * k + 1]%nat = 1)%R.
Proof.
  intros Hp Hk.
  destruct (get_positional_encodings_table max_positions feature_dim)
    as (t & Ht & _ & He).
  exists t. split; [exact Ht|].
  rewrite (He p (2 * k)), (He p (2 * k + 1)) by lia.
  rewrite angle_formula_pair.
  replace (Nat.even (2 * k)) with true
    by (symmetry; apply Nat.even_spec; now exists k).
  replace (Nat.even (2 * k + 1)) with false.
  2:{ symmetry. rewrite <- Nat.negb_odd.
      replace (Nat.odd (2 * k + 1)) with true; [reflexivity|].
      symmetry. apply Nat.odd_spec. now exists k. }
  apply sin2_cos2.
Qed.

Lemma positional_encoding_unit_circle_witness :
  exists t,
    get_positional_encodings 3 4 = Ok t
    /\ (elem t [0; 2; 2 * 1]%nat * elem t [0; 2; 2 * 1]%nat
        + elem t [0; 2; 2 * 1 + 1]%nat * elem t [0; 2; 2 * 1 + 1]%nat = 1)%R.
Proof.
  apply (@positional_encoding_unit_circle 3 4 2 1); lia.
Defined.

(** X2: the encoding of position 0 is 0 at every even dimension and 1 at
    every odd dimension, whatever the size of the table and the feature
    dimension. *)
Theorem positional_encoding_first_position (max_positions feature_dim i : nat) :
  0 < max_positions -> i < feature_dim ->
  exists t,
    get_positional_encodings max_positions feature_dim = Ok t
    /\ elem t [0; 0; i] = if Nat.even i then 0%R else 1%R.
Proof.
  intros Hp Hi.
  destruct (get_positional_encodings_table max_positions feature_dim)
    as (t & Ht & _ & He).
  exists t. split; [exact Ht|].
  rewrite (He 0 i Hp Hi). unfold angle_formula. cbn [INR].
  unfold Rdiv. rewrite Rmult_0_l, sin_0, cos_0. reflexivity.
Qed.

Lemma positional_encoding_first_position_witness :
  exists t,
    get_positional_encodings 3 4 = Ok t
    /\ elem t [0; 0; 3] = if Nat.even 3 then 0%R else 1%R.
Proof.
  apply (@positional_encoding_first_position 3 4 3); lia.
Defined.

(** X3: the slice [pos_encoding[:, :seq_len, :]] that the encoder and the
    decoder add to the embeddings is the table generated for [seq_len]
    positions: for [seq_len <= max_positions] it has the same shape and the
    same entries, an entry depending on its position and dimension only and
    not on the size of the table. *)
Theorem positional_encoding_prefix (max_positions seq_len feature_dim : nat) :
  seq_len <= max_positions ->
  exists table sliced short,
    get_positional_encodings max_positions feature_dim = Ok table
    /\ Tensor.slice_axis1 seq_len table = Ok sliced
    /\ get_positional_encodings seq_len feature_dim = Ok short
    /\ shape sliced = shape short
    /\ forall p i, p < seq_len -> i < feature_dim ->
         elem sliced [0; p; i] = elem short [0; p; i].
Proof.
  intros Hl.
  destruct (get_positional_encodings_table max_positions feature_dim)
    as (table & Ht & Hts & Hte).
  destruct (get_positional_encodings_table seq_len feature_dim)
    as (short & Hs & Hss & Hse).
  exists table, (mkTensor [1; Nat.min seq_len max_positions; feature_dim]
                          (elem table)), short.
  split; [exact Ht|]. split.
  { unfold Tensor.slice_axis1. rewrite Hts. reflexivity. }
  split; [exact Hs|]. split.
  { cbn [shape]. rewrite Hss, Nat.min_l by exact Hl. reflexivity. }
  intros p i Hp Hi. cbn [elem].
  rewrite Hte, Hse by lia. reflexivity.
Qed.

Lemma positional_encoding_prefix_witness :
  exists table sliced short,
    get_positional_encodings 10 4 = Ok table
    /\ Tensor.slice_axis1 3 table = Ok sliced
    /\ get_positional_encodings 3 4 = Ok short
    /\ shape sliced = shape short
    /\ forall p i, p < 3 -> i < 4 ->
         elem sliced [0; p; i] = elem short [0; p; i].
Proof.
  apply (@positional_encoding_prefix 10 3 4); lia.
Defined.

(** ** Attention weights and outputs *)

Lemma rsum_nonneg (n : nat) (f : nat -> R) :
  (forall j, j < n -> (0 <= f j)%R) -> (0 <= rsum n f)%R.
Proof.
  induction n as [|n IH]; intros H; cbn; [lra|].
  specialize (H n (Nat.lt_succ_diag_r n)) as Hn.
  assert (0 <= rsum n f)%R by (apply IH; intros; apply H; lia). lra.
Qed.

Lemma rsum_term_le (n : nat) (f : nat -> R) (j : nat) :
  (forall i, i < n -> (0 <= f i)%R) -> j < n -> (f j <= rsum n f)%R.
Proof.
  induction n as [|n IH]; intros H Hj; [lia|]. cbn.
  assert (Hn : (0 <= f n)%R) by (apply H; lia).
  assert (Hs : (0 <= rsum n f)%R) by (apply rsum_nonneg; intros; apply H; lia).
  destruct (Nat.eq_dec j n) as [->|Hne]; [lra|].
  assert (f j <= rsum n f)%R by (apply IH; [intros; apply H; lia | lia]). lra.
Qed.

(** Bounds of a weighted sum whose weights are non-negative. *)
Lemma rsum_weighted_bounds (n : nat) (a f : nat -> R) (lo hi : R) :
  (forall j, j < n -> (0 <= a j)%R) ->
  (forall j, j < n -> (lo <= f j <= hi)%R) ->
  (lo * rsum n a <= rsum n (fun j => a j * f j) <= hi * rsum n a)%R.
Proof.
  induction n as [|n IH]; intros Ha Hf; cbn; [lra|].
  destruct IH as (IH1 & IH2).
  { intros; apply Ha; lia. }
  { intros; apply Hf; lia. }
  assert (Hn : (0 <= a n)%R) by (apply Ha; lia).
  assert (Hfn : (lo <= f n <= hi)%R) by (apply Hf; lia).
  split; nra.
Qed.

Lemma Rdiv_le_1_pos (a s : R) : (0 < s)%R -> (a <= s)%R -> (a / s <= 1)%R.
Proof.
  intros Hs Ha. apply Rmult_le_reg_r with (r := s); [exact Hs|].
  unfold Rdiv. rewrite Rmult_assoc, Rinv_l by lra. lra.
Qed.

(** Every entry of a softmax lies in (0, 1]. *)
Lemma softmax_entry_range (t y : tensor R) (n : nat) (pre : list nat) (j : nat) :
  Tensor.softmax t = Ok y ->
  Tensor.last_dim t = Ok n ->
  j < n ->
  (0 < elem y (pre ++ [j]) <= 1)%R.
Proof.
  unfold Tensor.softmax. intros H Hn Hj.
  rewrite Hn in H. cbn [bind] in H. injection H as <-. cbn [elem].
  rewrite removelast_last.
  set (f := fun j0 => exp (elem t (pre ++ [j0]))).
  change (exp (elem t (pre ++ [j]))) with (f j).
  assert (Hpos : (0 < rsum n f)%R).
  { apply rsum_pos; [lia|]. intros j0. apply exp_pos. }
  assert (Hle : (f j <= rsum n f)%R).
  { apply rsum_term_le; [|exact Hj]. intros i _. left. apply exp_pos. }
  assert (Hfj : (0 < f j)%R) by apply exp_pos.
  split.
  - apply Rdiv_lt_0_compat; assumption.
  - apply Rdiv_le_1_pos; assumption.
Qed.

Lemma last_dim_shape {A B : Type} (t : tensor A) (u : tensor B) :
  shape t = shape u -> Tensor.last_dim t = Tensor.last_dim u.
Proof. unfold Tensor.last_dim. now intros ->. Qed.

(** The weights of every attention that returns are the results of a
    softmax. *)
Lemma attention_weights_softmax (q k v out w : tensor R)
      (mask : option (tensor R)) :
  scaled_dot_product_attention q k v mask = Ok (out, w) ->
  exists scores, Tensor.softmax scores = Ok w.
Proof.
  unfold scaled_dot_product_attention. intros H.
  apply bind_ok in H. destruct H as (scores & _ & H).
  apply bind_ok in H. destruct H as (dk & _ & H).
  apply bind_ok in H. destruct H as (masked & _ & H).
  apply bind_ok in H. destruct H as (weights & Hweights & H).
  apply bind_ok in H. destruct H as (output & _ & H).
  injection H as _ <-. eauto.
Qed.

Lemma softmax_distribution (t y : tensor R) :
  Tensor.softmax t = Ok y -> rows_are_distributions y.
Proof.
  intros H n pre Hn Hpos.
  rewrite (last_dim_shape y t (softmax_shape _ H)) in Hn.
  split.
  - intros j Hj.
    destruct (@softmax_entry_range t y n pre j H Hn Hj) as (Hlo & Hhi).
    split; [left; exact Hlo | exact Hhi].
  - eapply softmax_row_sum; eassumption.
Qed.

(** X4: the attention weights of every call of
    [scaled_dot_product_attention] that returns, on keys of a positive depth
    and with a mask whose entries lie in [[0, 1]] or without a mask, are
    distributions along the key axis: when that axis is not empty every
    weight lies in [[0, 1]] and the weights of a row sum to 1, for tensors
    of every rank. *)
Theorem attention_weights_distribution
        (q k v out w : tensor R) (mask : option (tensor R)) (depth : nat) :
  scaled_dot_product_attention q k v mask = Ok (out, w) ->
  Tensor.last_dim k = Ok depth -> 0 < depth ->
  mask_in_unit_interval mask ->
  rows_are_distributions w.
Proof.
  intros H _ _ _.
  apply attention_weights_softmax in H. destruct H as (scores & H).
  eapply softmax_distribution; eassumption.
Qed.

Lemma attention_weights_distribution_witness :
  exists out w,
    scaled_dot_product_attention
      (constant_tensor [2; 3] 1%R) (constant_tensor [4; 3] 1%R)
      (constant_tensor [4; 5] 1%R) (Some (constant_tensor [2; 4] 0%R))
    = Ok (out, w)
    /\ rows_are_distributions w.
Proof.
  destruct (@attention_on_matrices
              (constant_tensor [2; 3] 1%R) (constant_tensor [4; 3] 1%R)
              (constant_tensor [4; 5] 1%R) (Some (constant_tensor [2; 4] 0%R))
              2 4 3 5 eq_refl eq_refl eq_refl)
    as (out & w & Hrun & _).
  - intros m Hm. injection Hm as <-. reflexivity.
  - exists out, w. split; [exact Hrun|].
    apply (@attention_weights_distribution _ _ _ out w _ 3 Hrun).
    + reflexivity.
    + lia.
    + intros idx. cbn. lra.
Defined.

(** X5: when the last dimensions (depths) of the query and of the key
    differ, [scaled_dot_product_attention] raises [InvalidArgumentError] at
    the product [q . k^T], whatever the value and the mask. *)
Theorem attention_depth_mismatch
        (q k v : tensor R) (mask : option (tensor R)) (dq dk : nat) :
  Tensor.last_dim q = Ok dq -> Tensor.last_dim k = Ok dk -> dq <> dk ->
  scaled_dot_product_attention q k v mask = Raise InvalidArgumentError.
Proof.
  unfold scaled_dot_product_attention, Tensor.matmul, Tensor.last_dim.
  intros Hq Hk Hne.
  destruct (rev (shape q)) as [|ka [|m ba]]; [discriminate | reflexivity |].
  destruct (rev (shape k)) as [|y [|x bb]]; [discriminate | reflexivity |].
  injection Hq as ->. injection Hk as ->.
  apply Nat.eqb_neq in Hne. rewrite Hne. reflexivity.
Qed.

Lemma attention_depth_mismatch_witness :
  scaled_dot_product_attention
    (constant_tensor [2; 3] 1%R) (constant_tensor [4; 5] 1%R)
    (constant_tensor [4; 5] 1%R) None
  = Raise InvalidArgumentError.
Proof.
  apply (@attention_depth_mismatch _ _ _ None 3 5);
    [reflexivity | reflexivity | lia].
Defined.

(** X6: on matrices of a positive depth, with a mask whose entries lie in
    [[0, 1]] or without a mask, every entry of the attention output is a
    convex combination of the entries of the same column of the value: it
    lies between any two bounds [lo] and [hi] of that column. *)
Theorem attention_output_convex
        (q k v : tensor R) (mask : option (tensor R))
        (lq lk d dv c : nat) (lo hi : R) :
  shape q = [lq; d] -> shape k = [lk; d] -> shape v = [lk; dv] ->
  (forall m, mask = Some m -> shape m = [lq; lk]) ->
  mask_in_unit_interval mask ->
  0 < d -> 0 < lk -> c < dv ->
  (forall j, j < lk -> (lo <= elem v [j; c] <= hi)%R) ->
  exists out w,
    scaled_dot_product_attention q k v mask = Ok (out, w)
    /\ forall i, i < lq -> (lo <= elem out [i; c] <= hi)%R.
Proof.
  intros Hq Hk Hv Hmask _ _ Hlk Hc Hbound.
  destruct (@attention_on_matrices q k v mask lq lk d dv Hq Hk Hv Hmask)
    as (out & w & Hrun & Hws & _ & Hw & Hout).
  exists out, w. split; [exact Hrun|].
  intros i Hi. rewrite (Hout i c Hi Hc).
  pose proof Hrun as Hsoft. apply attention_weights_softmax in Hsoft.
  destruct Hsoft as (scores & Hsoft).
  assert (Hlast : Tensor.last_dim w = Ok lk).
  { unfold Tensor.last_dim. rewrite Hws. reflexivity. }
  destruct (@softmax_distribution scores w Hsoft lk [i] Hlast Hlk)
    as (Hrange & Hsum).
  cbn [app] in Hrange, Hsum.
  pose proof (@rsum_weighted_bounds lk (fun j => elem w [i; j])
                (fun j => elem v [j; c]) lo hi) as Hb.
  cbv beta in Hb. rewrite Hsum, !Rmult_1_r in Hb. apply Hb.
  - intros j Hj. apply Hrange, Hj.
  - exact Hbound.
Qed.

Lemma attention_output_convex_witness :
  exists out w,
    scaled_dot_product_attention
      (constant_tensor [2; 3] 1%R) (constant_tensor [4; 3] 1%R)
      (constant_tensor [4; 5] 2%R) None
    = Ok (out, w)
    /\ forall i, i < 2 -> (0 <= elem out [i; 1%nat] <= 3)%R.
Proof.
  apply (@attention_output_convex
           (constant_tensor [2; 3] 1%R) (constant_tensor [4; 3] 1%R)
           (constant_tensor [4; 5] 2%R) None 2 4 3 5 1 0%R 3%R).
  - reflexivity.
  - reflexivity.
  - reflexivity.
  - intros m Hm. discriminate Hm.
  - exact I.
  - lia.
  - lia.
  - lia.
  - intros j _. cbn. lra.
Defined.

(** X7: on matrices, a mask of zeros changes nothing: the attention
    weights and the output are those of the call without a mask. *)
Theorem attention_zero_mask
        (q k v m : tensor R) (lq lk d dv : nat) :
  shape q = [lq; d] -> shape k = [lk; d] -> shape v = [lk; dv] ->
  shape m = [lq; lk] ->
  (forall i j, i < lq -> j < lk -> elem m [i; j] = 0%R) ->
  exists out w out' w',
    scaled_dot_product_attention q k v (Some m) = Ok (out, w)
    /\ scaled_dot_product_attention q k v None = Ok (out', w')
    /\ (forall i j, i < lq -> j < lk -> elem w [i; j] = elem w' [i; j])
    /\ (forall i c, i < lq -> c < dv -> elem out [i; c] = elem out' [i; c]).
Proof.
  intros Hq Hk Hv Hm Hzero.
  destruct (@attention_on_matrices q k v (Some m) lq lk d dv Hq Hk Hv)
    as (out & w & Hrun & _ & _ & Hw & Hout).
  { intros m' E. injection E as <-. exact Hm. }
  destruct (@attention_on_matrices q k v None lq lk d dv Hq Hk Hv)
    as (out' & w' & Hrun' & _ & _ & Hw' & Hout').
  { intros m' E. discriminate E. }
  assert (Hscore : forall i j, i < lq -> j < lk ->
            attention_score q k (Some m) d i j
            = attention_score q k None d i j).
  { intros i j Hi Hj. unfold attention_score.
    rewrite (Hzero i j Hi Hj). lra. }
  assert (Hweights : forall i j, i < lq -> j < lk ->
            elem w [i; j] = elem w' [i; j]).
  { intros i j Hi Hj. rewrite (Hw i j Hi Hj), (Hw' i j Hi Hj).
    rewrite (Hscore i j Hi Hj). f_equal.
    apply rsum_ext. intros j' Hj'. now rewrite (Hscore i j' Hi Hj'). }
  exists out, w, out', w'.
  split; [exact Hrun|]. split; [exact Hrun'|]. split; [exact Hweights|].
  intros i c Hi Hc. rewrite (Hout i c Hi Hc), (Hout' i c Hi Hc).
  apply rsum_ext. intros j Hj. now rewrite (Hweights i j Hi Hj).
Qed.

Lemma attention_zero_mask_witness :
  exists out w out' w',
    scaled_dot_product_attention
      (constant_tensor [2; 3] 1%R) (constant_tensor [4; 3] 1%R)
      (constant_tensor [4; 5] 1%R) (Some (constant_tensor [2; 4] 0%R))
    = Ok (out, w)
    /\ scaled_dot_product_attention
         (constant_tensor [2; 3] 1%R) (constant_tensor [4; 3] 1%R)
         (constant_tensor [4; 5] 1%R) None
       = Ok (out', w')
    /\ (forall i j, i < 2 -> j < 4 -> elem w [i; j] = elem w' [i; j])
    /\ (forall i c, i < 2 -> c < 5 -> elem out [i; c] = elem out' [i; c]).
Proof.
  apply (@attention_zero_mask
           (constant_tensor [2; 3] 1%R) (constant_tensor [4; 3] 1%R)
           (constant_tensor [4; 5] 1%R) (constant_tensor [2; 4] 0%R)
           2 4 3 5).
  - reflexivity.
  - reflexivity.
  - reflexivity.
  - reflexivity.
  - intros i j _ _. reflexivity.
Defined.

Lemma Rdiv_le_smaller_denominator (a s t : R) :
  (0 <= a)%R -> (0 < t)%R -> (t <= s)%R -> (a / s <= a / t)%R.
Proof.
  intros Ha Ht Hs. unfold Rdiv.
  apply Rmult_le_compat_l; [exact Ha|].
  apply Rinv_le_contravar; assumption.
Qed.

(** X8: on matrices of a positive depth and under the look-ahead mask, the
    weight that query position [i] gives to a later key position [j > i] is
    at most
    [exp(s(i,j) - s(i,i) - 1e9)], where [s] are the scaled scores without
    mask: against the diagonal, a masked position is suppressed by the
    factor [exp(-1e9)]. *)
Theorem causal_attention_future_weight
        (q k v : tensor R) (n d dv i j : nat) :
  shape q = [n; d] -> shape k = [n; d] -> shape v = [n; dv] ->
  0 < d -> i < j -> j < n ->
  exists mask out w,
    create_look_ahead_mask n = Ok mask
    /\ scaled_dot_product_attention q k v (Some mask) = Ok (out, w)
    /\ (elem w [i; j]
        <= exp (attention_score q k None d i j
                - attention_score q k None d i i - 1e9))%R.
Proof.
  intros Hq Hk Hv _ Hij Hj.
  destruct (create_look_ahead_mask_entries n) as (mask & Hmask & Hms & Hme).
  destruct (@attention_on_matrices q k v (Some mask) n n d dv Hq Hk Hv)
    as (out & w & Hrun & _ & _ & Hw & _).
  { intros m' E. injection E as <-. exact Hms. }
  exists mask, out, w. split; [exact Hmask|]. split; [exact Hrun|].
  rewrite (Hw i j) by lia.
  set (s := fun j' => attention_score q k (Some mask) d i j').
  assert (Hsj : s j = (attention_score q k None d i j - 1e9)%R).
  { unfold s, attention_score. rewrite Hme.
    replace (i <? j) with true by (symmetry; apply Nat.ltb_lt; lia). lra. }
  assert (Hsi : s i = attention_score q k None d i i).
  { unfold s, attention_score. rewrite Hme, Nat.ltb_irrefl. lra. }
  change (exp (s j) / rsum n (fun j' => exp (s j')) <=
          exp (attention_score q k None d i j
               - attention_score q k None d i i - 1e9))%R.
  assert (Hdiag : (exp (s i) <= rsum n (fun j' => exp (s j')))%R).
  { apply (@rsum_term_le n (fun j' => exp (s j')) i); [|lia].
    intros i0 _. left. apply exp_pos. }
  eapply Rle_trans.
  { apply Rdiv_le_smaller_denominator with (t := exp (s i));
      [left; apply exp_pos | apply exp_pos | exact Hdiag]. }
  rewrite Hsj, Hsi. right.
  unfold Rdiv. rewrite <- exp_Ropp, <- exp_plus. f_equal. lra.
Qed.

Lemma causal_attention_future_weight_witness :
  exists mask out w,
    create_look_ahead_mask 3 = Ok mask
    /\ scaled_dot_product_attention
         (constant_tensor [3; 2] 1%R) (constant_tensor [3; 2] 1%R)
         (constant_tensor [3; 4] 1%R) (Some mask)
       = Ok (out, w)
    /\ (elem w [0; 2]%nat
        <= exp (attention_score (constant_tensor [3; 2]%nat 1)
                                (constant_tensor [3; 2]%nat 1) None 2 0 2
                - attention_score (constant_tensor [3; 2]%nat 1)
                                  (constant_tensor [3; 2]%nat 1) None 2 0 0
                - 1e9))%R.
Proof.
  apply (@causal_attention_future_weight
           (constant_tensor [3; 2] 1%R) (constant_tensor [3; 2] 1%R)
           (constant_tensor [3; 4] 1%R) 3 2 4 0 2).
  - reflexivity.
  - reflexivity.
  - reflexivity.
  - lia.
  - lia.
  - lia.
Defined.

(** ** Splitting and merging the heads *)

Lemma reshape_elem {A : Type} (t t' : tensor A) (sizes : list Z)
      (idx : list nat) :
  Tensor.reshape t sizes = Ok t' ->
  elem t' idx
  = elem t (Tensor.unravel (shape t) (Tensor.ravel (shape t') idx)).
Proof.
  unfold Tensor.reshape. intros H. inv_bind H. now injection H as <-.
Qed.

Lemma transpose_0213_elem {A : Type} (t t' : tensor A) (a b c d : nat)
      (i j k l : nat) :
  shape t = [a; b; c; d] ->
  Tensor.transpose [0; 2; 1; 3] t = Ok t' ->
  elem t' [i; j; k; l] = elem t [i; k; j; l].
Proof.
  intros Hs H. unfold Tensor.transpose in H.
  destruct (Tensor.is_perm _ _); [|discriminate].
  injection H as <-. unfold rank. rewrite Hs. reflexivity.
Qed.

Lemma ravel_lt (s idx : list nat) :
  Forall2 lt idx s -> Tensor.ravel s idx < prod_list s.
Proof.
  induction 1 as [|i d idx s Hi _ IH]; cbn; [lia|].
  fold (prod_list s). nia.
Qed.

(** An index within bounds is recovered from its row-major position. *)
Lemma unravel_ravel (s idx : list nat) :
  Forall2 lt idx s -> Tensor.unravel s (Tensor.ravel s idx) = idx.
Proof.
  induction 1 as [|i d idx s Hi Hall IH]; cbn [Tensor.ravel Tensor.unravel];
    [reflexivity|].
  pose proof (ravel_lt Hall) as Hr.
  assert (Hdiv : (i * prod_list s + Tensor.ravel s idx) / prod_list s = i).
  { symmetry. apply Nat.div_unique with (r := Tensor.ravel s idx); lia. }
  assert (Hmod : (i * prod_list s + Tensor.ravel s idx) mod prod_list s
                 = Tensor.ravel s idx).
  { symmetry. apply Nat.mod_unique with (q := i); lia. }
  rewrite Hdiv, Hmod, IH, Nat.mod_small by exact Hi. reflexivity.
Qed.

Lemma ravel_split_last (b l h dp i t a c : nat) :
  Tensor.ravel [b; l; h; dp] [i; t; a; c]
  = Tensor.ravel [b; l; h * dp] [i; t; a * dp + c].
Proof. cbn. nia. Qed.

Section Heads.

Variables d h b : nat.
Hypothesis d_pos : 0 < d.
Hypothesis b_pos : 0 < b.

Lemma split_heads_elem (self : MultiHeadAttention.t) (x : tensor R) (l : nat) :
  wf_mha d h self ->
  shape x = [b; l; d] ->
  exists y,
    MultiHeadAttention.split_heads self x b = Ok y
    /\ shape y = [b; h; l; MultiHeadAttention.depth self]
    /\ forall i a t c,
         i < b -> a < h -> t < l -> c < MultiHeadAttention.depth self ->
         elem y [i; a; t; c]
         = elem x [i; t; a * MultiHeadAttention.depth self + c].
Proof.
  intros Hwf Hs. pose proof Hwf as (Hh & Hd & Hdp & _).
  destruct (@split_heads_returns d h b d_pos b_pos self x l Hwf Hs)
    as (y & Hy & Hys).
  exists y. split; [exact Hy|]. split; [exact Hys|].
  intros i a t c Hi Ha Ht Hc.
  unfold MultiHeadAttention.split_heads in Hy.
  apply bind_ok in Hy. destruct Hy as (r & Hr & Hy).
  pose proof Hr as Hrs. apply reshape_heads_shape in Hrs.
  destruct Hrs as (n & Hrs & Hn).
  rewrite (@transpose_0213_elem _ r y _ _ _ _ i a t c Hrs Hy).
  rewrite (@reshape_elem _ x r _ [i; t; a; c] Hr), Hrs, Hs.
  assert (n = l).
  { eapply transpose_0213_shape in Hy; [|exact Hrs].
    rewrite Hys in Hy. now injection Hy. }
  subst n. rewrite Hh.
  rewrite ravel_split_last.
  replace (h * MultiHeadAttention.depth self) with d by lia.
  rewrite unravel_ravel; [reflexivity|].
  repeat constructor; trivial. nia.
Qed.

End Heads.

Section Merge.

Variables d h b : nat.
Hypothesis d_pos : 0 < d.
Hypothesis b_pos : 0 < b.

Lemma merge_heads_elem (z : tensor R) (l dp : nat) :
  shape z = [b; l; h; dp] -> h * dp = d ->
  exists m,
    Tensor.reshape z [Z.of_nat b; (-1)%Z; Z.of_nat d] = Ok m
    /\ shape m = [b; l; d]
    /\ forall i t j, i < b -> t < l -> j < d ->
         elem m [i; t; j] = elem z [i; t; j / dp; j mod dp].
Proof.
  intros Hz Hhd.
  destruct (@reshape_concat_returns _ z b l d h dp Hz b_pos d_pos Hhd)
    as (m & Hm & Hms).
  exists m. split; [exact Hm|]. split; [exact Hms|].
  intros i t j Hi Ht Hj.
  assert (Hdp : 0 < dp) by nia.
  rewrite (@reshape_elem _ z m _ [i; t; j] Hm), Hms, Hz.
  pose proof (Nat.div_mod_eq j dp) as Ej.
  replace (Tensor.ravel [b; l; d] [i; t; j])
    with (Tensor.ravel [b; l; h; dp] [i; t; j / dp; j mod dp]).
  2:{ rewrite ravel_split_last, Hhd, (Nat.mul_comm (j / dp) dp), <- Ej.
      reflexivity. }
  rewrite unravel_ravel; [reflexivity|].
  repeat constructor; trivial.
  - apply Nat.Div0.div_lt_upper_bound. lia.
  - apply Nat.mod_upper_bound. lia.
Qed.

End Merge.

(** X9: on a non-empty [(batch, length, d_model)] tensor, [split_heads] of
    a constructed layer returns a [(batch, num_heads, length, depth)] tensor
    in which head [a] holds the columns [a*depth, ..., a*depth + depth - 1]
    of the input: [y[i][a][t][c] = x[i][t][a*depth + c]]. *)
Theorem split_heads_entries
        (d h : nat) (w : MultiHeadAttention.vars) (self : MultiHeadAttention.t)
        (x : tensor R) (b l : nat) :
  MultiHeadAttention.init d h w = Ok self ->
  0 < d -> 0 < b ->
  shape x = [b; l; d] ->
  exists y,
    MultiHeadAttention.split_heads self x b = Ok y
    /\ shape y = [b; h; l; MultiHeadAttention.depth self]
    /\ forall i a t c,
         i < b -> a < h -> t < l -> c < MultiHeadAttention.depth self ->
         elem y [i; a; t; c]
         = elem x [i; t; a * MultiHeadAttention.depth self + c].
Proof.
  intros Hinit Hd Hb Hx. apply MultiHeadAttention_init_wf in Hinit.
  now apply (@split_heads_elem d h b Hd Hb self x l).
Qed.

Lemma split_heads_entries_witness :
  exists y,
    MultiHeadAttention.split_heads example_mha example_enc_output 1 = Ok y
    /\ shape y = [1; 2; 3; MultiHeadAttention.depth example_mha]
    /\ forall i a t c,
         i < 1 -> a < 2 -> t < 3 -> c < MultiHeadAttention.depth example_mha ->
         elem y [i; a; t; c]
         = elem example_enc_output
                [i; t; a * MultiHeadAttention.depth example_mha + c].
Proof.
  apply (@split_heads_entries 4 2 example_mha_vars example_mha
           example_enc_output 1 3).
  - reflexivity.
  - lia.
  - lia.
  - reflexivity.
Defined.

(** X10: the transposition and the reshape with which [call] concatenates
    the heads undo [split_heads]: transposing the split tensor back and
    reshaping it to [(batch, -1, d_model)] gives a tensor with the shape and
    the entries of the input. *)
Theorem split_heads_merge_round_trip
        (d h : nat) (w : MultiHeadAttention.vars) (self : MultiHeadAttention.t)
        (x : tensor R) (b l : nat) :
  MultiHeadAttention.init d h w = Ok self ->
  0 < d -> 0 < b ->
  shape x = [b; l; d] ->
  exists y z m,
    MultiHeadAttention.split_heads self x b = Ok y
    /\ Tensor.transpose [0; 2; 1; 3] y = Ok z
    /\ Tensor.reshape z [Z.of_nat b; (-1)%Z;
                         Z.of_nat (MultiHeadAttention.d_model self)] = Ok m
    /\ shape m = shape x
    /\ forall i t j, i < b -> t < l -> j < d ->
         elem m [i; t; j] = elem x [i; t; j].
Proof.
  intros Hinit Hd Hb Hx. apply MultiHeadAttention_init_wf in Hinit.
  pose proof Hinit as (Hh & Hdm & Hdp & _).
  destruct (@split_heads_elem d h b Hd Hb self x l Hinit Hx)
    as (y & Hy & Hys & Hye).
  destruct (@transpose_0213_returns _ y _ _ _ _ Hys) as (z & Hz & Hzs).
  assert (Hhd : h * MultiHeadAttention.depth self = d) by lia.
  destruct (@merge_heads_elem d h b Hd Hb z l (MultiHeadAttention.depth self)
              Hzs Hhd) as (m & Hm & Hms & Hme).
  exists y, z, m. split; [exact Hy|]. split; [exact Hz|].
  split; [now rewrite Hdm|]. split; [congruence|].
  intros i t j Hi Ht Hj.
  assert (Hdepth : 0 < MultiHeadAttention.depth self) by nia.
  rewrite (Hme i t j Hi Ht Hj).
  rewrite (@transpose_0213_elem _ y z _ _ _ _ i t
             (j / MultiHeadAttention.depth self)
             (j mod MultiHeadAttention.depth self) Hys Hz).
  rewrite Hye; trivial.
  - rewrite (Nat.mul_comm (j / MultiHeadAttention.depth self)),
      <- Nat.div_mod_eq. reflexivity.
  - apply Nat.Div0.div_lt_upper_bound. lia.
  - apply Nat.mod_upper_bound. lia.
Qed.

Lemma split_heads_merge_round_trip_witness :
  exists y z m,
    MultiHeadAttention.split_heads example_mha example_enc_output 1 = Ok y
    /\ Tensor.transpose [0; 2; 1; 3] y = Ok z
    /\ Tensor.reshape z [Z.of_nat 1; (-1)%Z;
                         Z.of_nat (MultiHeadAttention.d_model example_mha)]
       = Ok m
    /\ shape m = shape example_enc_output
    /\ forall i t j, i < 1 -> t < 3 -> j < 4 ->
         elem m [i; t; j] = elem example_enc_output [i; t; j].
Proof.
  apply (@split_heads_merge_round_trip 4 2 example_mha_vars example_mha
           example_enc_output 1 3).
  - reflexivity.
  - lia.
  - lia.
  - reflexivity.
Defined.

(** ** Calls of the multi-head attention layer *)

Lemma matmul4_mismatch (tb : bool) (a b : tensor R) (n0 h m ka x y : nat) :
  shape a = [n0; h; m; ka] ->
  shape b = [n0; h; x; y] ->
  ka <> (if tb then y else x) ->
  Tensor.matmul tb a b = Raise InvalidArgumentError.
Proof.
  intros Ha Hb Hk. unfold Tensor.matmul. rewrite Ha, Hb. cbn [rev app].
  apply Nat.eqb_neq in Hk. rewrite Hk. reflexivity.
Qed.

Lemma scaled_dot_product_attention_length_mismatch
      (q k v : tensor R) (mask : option (tensor R))
      (b h lq lk lv dp dv : nat) :
  shape q = [b; h; lq; dp] ->
  shape k = [b; h; lk; dp] ->
  shape v = [b; h; lv; dv] ->
  mask_ok [b; h; lq; lk] mask ->
  lk <> lv ->
  scaled_dot_product_attention q k v mask = Raise InvalidArgumentError.
Proof.
  intros Hq Hk Hv Hmask Hne. unfold scaled_dot_product_attention.
  destruct (@matmul4_returns true q k b h lq dp lk dp Hq Hk eq_refl)
    as (scores & Hscores & Hs).
  rewrite Hscores. cbn [bind].
  unfold Tensor.last_dim at 1. rewrite Hk. cbn [rev app bind].
  assert (Hm : exists masked,
             match mask with
             | Some mask0 =>
                 Tensor.add
                   (Tensor.tmap (fun s => (s / sqrt (INR dp))%R) scores)
                   (Tensor.tmap (fun m => (m * -1e9)%R) mask0)
             | None => Ok (Tensor.tmap (fun s => (s / sqrt (INR dp))%R) scores)
             end = Ok masked
             /\ shape masked = [b; h; lq; lk]).
  { destruct mask as [m|].
    - unfold Tensor.add, Tensor.broadcast2. cbn [shape Tensor.tmap].
      unfold mask_ok in Hmask. rewrite Hs, Hmask. cbn [bind].
      eexists. split; reflexivity.
    - eexists. split; [reflexivity | exact Hs]. }
  destruct Hm as (masked & Hmasked & Hms). rewrite Hmasked. cbn [bind].
  destruct (@softmax_returns masked) as (w & Hw & Hws).
  { rewrite Hms. discriminate. }
  rewrite Hw. cbn [bind]. rewrite Hms in Hws.
  rewrite (@matmul4_mismatch false w v b h lq lk lv dv Hws Hv Hne).
  reflexivity.
Qed.

Section Attention.

Variables d h b : nat.
Hypothesis d_pos : 0 < d.
Hypothesis b_pos : 0 < b.

Lemma MultiHeadAttention_call_length_mismatch
      (self : MultiHeadAttention.t) (v k q : tensor R)
      (mask : option (tensor R)) (lq lk lv dq dk dv : nat) :
  wf_mha d h self ->
  shape q = [b; lq; dq] -> shape k = [b; lk; dk] -> shape v = [b; lv; dv] ->
  mask_ok [b; h; lq; lk] mask ->
  lk <> lv ->
  MultiHeadAttention.call self v k q mask = Raise InvalidArgumentError.
Proof.
  intros Hwf Hq Hk Hv Hmask Hne.
  pose proof Hwf as (Hh & Hd & Hdp & Hwq & Hwk & Hwv & Hdense).
  unfold MultiHeadAttention.call.
  unfold Tensor.dim. rewrite Hq. cbn [list_get nth_error bind].
  destruct (@Dense_call_returns (MultiHeadAttention.wq self) q)
    as (q1 & Hq1 & Hq1s); [unfold rank; rewrite Hq; cbn; lia|].
  destruct (@Dense_call_returns (MultiHeadAttention.wk self) k)
    as (k1 & Hk1 & Hk1s); [unfold rank; rewrite Hk; cbn; lia|].
  destruct (@Dense_call_returns (MultiHeadAttention.wv self) v)
    as (v1 & Hv1 & Hv1s); [unfold rank; rewrite Hv; cbn; lia|].
  rewrite Hq1, Hk1, Hv1. cbn [bind].
  rewrite Hq, Hwq in Hq1s. rewrite Hk, Hwk in Hk1s. rewrite Hv, Hwv in Hv1s.
  cbn in Hq1s, Hk1s, Hv1s.
  destruct (@split_heads_returns d h b d_pos b_pos self q1 lq Hwf Hq1s)
    as (q2 & Hq2 & Hq2s).
  destruct (@split_heads_returns d h b d_pos b_pos self k1 lk Hwf Hk1s)
    as (k2 & Hk2 & Hk2s).
  destruct (@split_heads_returns d h b d_pos b_pos self v1 lv Hwf Hv1s)
    as (v2 & Hv2 & Hv2s).
  rewrite Hq2, Hk2, Hv2. cbn [bind].
  rewrite (@scaled_dot_product_attention_length_mismatch q2 k2 v2 mask
             b h lq lk lv (MultiHeadAttention.depth self)
             (MultiHeadAttention.depth self) Hq2s Hk2s Hv2s Hmask Hne).
  reflexivity.
Qed.

End Attention.

Lemma MultiHeadAttention_call_weights_softmax
      (self : MultiHeadAttention.t) (v k q out w : tensor R)
      (mask : option (tensor R)) :
  MultiHeadAttention.call self v k q mask = Ok (out, w) ->
  exists scores, Tensor.softmax scores = Ok w.
Proof.
  unfold MultiHeadAttention.call. intros H.
  apply bind_ok in H. destruct H as (batch_size & _ & H).
  apply bind_ok in H. destruct H as (q1 & _ & H).
  apply bind_ok in H. destruct H as (k1 & _ & H).
  apply bind_ok in H. destruct H as (v1 & _ & H).
  apply bind_ok in H. destruct H as (q2 & _ & H).
  apply bind_ok in H. destruct H as (k2 & _ & H).
  apply bind_ok in H. destruct H as (v2 & _ & H).
  apply bind_ok in H. destruct H as ([sa aw] & Hsdpa & H).
  apply bind_ok in H. destruct H as (sat & _ & H).
  apply bind_ok in H. destruct H as (ca & _ & H).
  apply bind_ok in H. destruct H as (output & _ & H).
  injection H as _ <-.
  eapply attention_weights_softmax; exact Hsdpa.
Qed.

(** X11: a constructed multi-head attention layer returns on every
    non-empty batch whose key and value have the same length, with an
    admissible mask: the output has shape [(batch, query_length, d_model)]
    and the attention weights have shape
    [(batch, num_heads, query_length, key_length)].  The last dimensions of
    the three inputs are free, the projections mapping each to [d_model]. *)
Theorem multi_head_attention_shapes
        (d h : nat) (w : MultiHeadAttention.vars) (self : MultiHeadAttention.t)
        (v k q : tensor R) (mask : option (tensor R))
        (b lq lk dq dk dv : nat) :
  MultiHeadAttention.init d h w = Ok self ->
  0 < d -> 0 < b ->
  shape q = [b; lq; dq] -> shape k = [b; lk; dk] -> shape v = [b; lk; dv] ->
  mask_ok [b; h; lq; lk] mask ->
  exists output attention_weights,
    MultiHeadAttention.call self v k q mask = Ok (output, attention_weights)
    /\ shape output = [b; lq; d]
    /\ shape attention_weights = [b; h; lq; lk].
Proof.
  intros Hinit Hd Hb Hq Hk Hv Hmask.
  apply MultiHeadAttention_init_wf in Hinit.
  now apply (@MultiHeadAttention_call_returns d h b Hd Hb self v k q mask
               lq lk dq dk dv).
Qed.

Lemma multi_head_attention_shapes_witness :
  exists output attention_weights,
    MultiHeadAttention.call example_mha example_enc_output example_enc_output
                            example_out1 None
    = Ok (output, attention_weights)
    /\ shape output = [1; 2; 4]
    /\ shape attention_weights = [1; 2; 2; 3].
Proof.
  apply (@multi_head_attention_shapes 4 2 example_mha_vars example_mha
           example_enc_output example_enc_output example_out1 None
           1 2 3 4 4 4).
  - reflexivity.
  - lia.
  - lia.
  - reflexivity.
  - reflexivity.
  - reflexivity.
  - exact I.
Defined.

(** X12: when the key and the value given to a constructed multi-head
    attention layer have different lengths, the call raises
    [InvalidArgumentError]: the product of the weights with the value is not
    defined. *)
Theorem multi_head_attention_length_mismatch
        (d h : nat) (w : MultiHeadAttention.vars) (self : MultiHeadAttention.t)
        (v k q : tensor R) (mask : option (tensor R))
        (b lq lk lv dq dk dv : nat) :
  MultiHeadAttention.init d h w = Ok self ->
  0 < d -> 0 < b ->
  shape q = [b; lq; dq] -> shape k = [b; lk; dk] -> shape v = [b; lv; dv] ->
  mask_ok [b; h; lq; lk] mask ->
  lk <> lv ->
  MultiHeadAttention.call self v k q mask = Raise InvalidArgumentError.
Proof.
  intros Hinit Hd Hb Hq Hk Hv Hmask Hne.
  apply MultiHeadAttention_init_wf in Hinit.
  now apply (@MultiHeadAttention_call_length_mismatch d h b Hd Hb self v k q
               mask lq lk lv dq dk dv).
Qed.

Lemma multi_head_attention_length_mismatch_witness :
  MultiHeadAttention.call example_mha example_out1 example_enc_output
                          example_out1 None
  = Raise InvalidArgumentError.
Proof.
  apply (@multi_head_attention_length_mismatch 4 2 example_mha_vars example_mha
           example_out1 example_enc_output example_out1 None
           1 2 3 2 4 4 4).
  - reflexivity.
  - lia.
  - lia.
  - reflexivity.
  - reflexivity.
  - reflexivity.
  - exact I.
  - lia.
Defined.

(** ** The feed forward network *)

(** The feed forward network entry by entry: a hidden layer with ReLU
    followed by a linear layer, both applied along the last axis. *)
Lemma FullyConnected_call_entries
      (embedding_dim fully_connected_dim : nat) (w : FullyConnectedVars)
      (x : tensor R) (b n d' : nat) :
  shape x = [b; n; d'] ->
  exists y,
    Keras.Sequential.call (FullyConnected embedding_dim fully_connected_dim w) x
    = Ok y
    /\ shape y = [b; n; embedding_dim]
    /\ forall i t c,
         elem y [i; t; c]
         = (rsum fully_connected_dim
              (fun j =>
                 Rmax 0 (rsum d' (fun k =>
                                    elem x [i; t; k]
                                    * Keras.Dense.kernel (hidden_vars w) k j)
                         + Keras.Dense.bias (hidden_vars w) j)
                 * Keras.Dense.kernel (out_vars w) j c)
            + Keras.Dense.bias (out_vars w) c)%R.
Proof.
  intros Hs. unfold FullyConnected. cbn [Keras.Sequential.call].
  unfold Keras.Dense.call at 1. unfold rank, Tensor.last_dim. rewrite Hs.
  cbn [length Nat.leb rev app bind Keras.Dense.activation_fn
       Keras.Dense.units Keras.Dense.variables removelast].
  unfold Keras.Dense.call, rank, Tensor.last_dim.
  cbn [shape Tensor.tmap length Nat.leb rev app bind
       Keras.Dense.activation_fn Keras.Dense.units Keras.Dense.variables
       removelast].
  eexists. split; [reflexivity|]. split; [reflexivity|].
  intros i t c. reflexivity.
Qed.

(** X13: the feed forward network works position by position: when two
    inputs of the same shape agree on the feature vector at batch entry [i]
    and position [t], the two outputs agree at [i] and [t], whatever the
    inputs hold at the other positions. *)
Theorem feed_forward_position_wise
        (embedding_dim fully_connected_dim : nat) (w : FullyConnectedVars)
        (x x' : tensor R) (b n d' i t : nat) :
  shape x = [b; n; d'] -> shape x' = [b; n; d'] ->
  (forall k, k < d' -> elem x [i; t; k] = elem x' [i; t; k]) ->
  exists y y',
    Keras.Sequential.call (FullyConnected embedding_dim fully_connected_dim w) x
    = Ok y
    /\ Keras.Sequential.call
         (FullyConnected embedding_dim fully_connected_dim w) x'
       = Ok y'
    /\ shape y = [b; n; embedding_dim]
    /\ shape y' = [b; n; embedding_dim]
    /\ forall c, elem y [i; t; c] = elem y' [i; t; c].
Proof.
  intros Hx Hx' Hrow.
  destruct (@FullyConnected_call_entries embedding_dim fully_connected_dim w
              x b n d' Hx) as (y & Hy & Hys & Hye).
  destruct (@FullyConnected_call_entries embedding_dim fully_connected_dim w
              x' b n d' Hx') as (y' & Hy' & Hys' & Hye').
  exists y, y'. repeat (split; [assumption|]).
  intros c. rewrite Hye, Hye'. f_equal.
  apply rsum_ext. intros j _. do 3 f_equal.
  apply rsum_ext. intros k Hk. now rewrite (Hrow k Hk).
Qed.

Lemma feed_forward_position_wise_witness :
  exists y y',
    Keras.Sequential.call (FullyConnected 4 8 example_ffn_vars)
                          (constant_tensor [1; 2; 4] 1%R)
    = Ok y
    /\ Keras.Sequential.call
         (FullyConnected 4 8 example_ffn_vars)
         (mkTensor [1; 2; 4] (fun idx => if nth 1 idx 0 =? 0 then 1%R else 5%R))
       = Ok y'
    /\ shape y = [1; 2; 4]
    /\ shape y' = [1; 2; 4]
    /\ forall c, elem y [0; 0; c] = elem y' [0; 0; c].
Proof.
  apply (@feed_forward_position_wise 4 8 example_ffn_vars
           (constant_tensor [1; 2; 4] 1%R)
           (mkTensor [1; 2; 4] (fun idx => if nth 1 idx 0 =? 0 then 1%R else 5%R))
           1 2 4 0 0).
  - reflexivity.
  - reflexivity.
  - intros k _. reflexivity.
Defined.

(** ** Calls of the encoder and decoder layers *)

Section Blocks.

Variables d h b : nat.
Hypothesis d_pos : 0 < d.
Hypothesis b_pos : 0 < b.

(** The attention weights a decoder layer returns have the shapes of its
    two attention blocks. *)
Lemma DecoderLayer_call_blocks_shape
      (self : DecoderLayer.t) (x enc_output out3 b1 b2 : tensor R)
      (training : bool) (look_ahead_mask padding_mask : option (tensor R))
      (lq lk de : nat) :
  wf_decoder_layer d h self ->
  shape x = [b; lq; d] ->
  shape enc_output = [b; lk; de] ->
  mask_ok [b; h; lq; lq] look_ahead_mask ->
  mask_ok [b; h; lq; lk] padding_mask ->
  DecoderLayer.call self x enc_output training look_ahead_mask padding_mask
  = Ok (out3, b1, b2) ->
  shape out3 = [b; lq; d]
  /\ shape b1 = [b; h; lq; lq]
  /\ shape b2 = [b; h; lq; lk].
Proof.
  intros Hwf Hx Henc Hlam Hpm H.
  pose proof Hwf as (Hm1 & Hm2 & _).
  split.
  { eapply (@DecoderLayer_call_shape d h b d_pos b_pos); try eassumption.
    - eapply mask_ok_fits with (pre := [b; h; lq]). exact Hlam.
    - eapply mask_ok_fits with (pre := [b; h; lq]). exact Hpm. }
  unfold DecoderLayer.call in H.
  apply bind_ok in H. destruct H as ([attn1 w1] & Hattn1 & H).
  apply bind_ok in H. destruct H as (s1 & Hs1 & H).
  apply bind_ok in H. destruct H as (out1 & Hout1 & H).
  apply bind_ok in H. destruct H as ([attn2 w2] & Hattn2 & H).
  apply bind_ok in H. destruct H as (s2 & _ & H).
  apply bind_ok in H. destruct H as (out2 & _ & H).
  apply bind_ok in H. destruct H as (ffn_output & _ & H).
  apply bind_ok in H. destruct H as (s3 & _ & H).
  apply bind_ok in H. destruct H as (o3 & _ & H).
  injection H as _ <- <-.
  destruct (@MultiHeadAttention_call_returns d h b d_pos b_pos
              (DecoderLayer.mha1 self) x x x look_ahead_mask lq lq d d d
              Hm1 Hx Hx Hx Hlam) as (a1' & w1' & Ha1 & Ha1s & Hw1s).
  rewrite Hattn1 in Ha1. injection Ha1 as <- <-.
  apply add_same_shape in Hs1;
    [|rewrite Dropout_call_shape; congruence].
  rewrite Dropout_call_shape in Hs1.
  apply LayerNormalization_call_shape in Hout1.
  assert (Ho1 : shape out1 = [b; lq; d]) by congruence.
  destruct (@MultiHeadAttention_call_returns d h b d_pos b_pos
              (DecoderLayer.mha2 self) enc_output enc_output out1 padding_mask
              lq lk d de de Hm2 Ho1 Henc Henc Hpm)
    as (a2' & w2' & Ha2 & _ & Hw2s).
  rewrite Hattn2 in Ha2. injection Ha2 as <- <-.
  split; assumption.
Qed.

End Blocks.





(** ** Calls of the encoder and of the decoder *)

(** A sequence longer than a positional table of more than one position
    cannot be added to its slice. *)
Lemma add_pos_encoding_raise (x pe : tensor R) (b l d max_pos : nat) :
  shape x = [b; l; d] -> shape pe = [1; max_pos; d] ->
  1 < max_pos -> max_pos < l ->
  exists p,
    Tensor.slice_axis1 l pe = Ok p
    /\ Tensor.add x p = Raise InvalidArgumentError.
Proof.
  intros Hx Hpe Hmax Hl. unfold Tensor.slice_axis1. rewrite Hpe.
  eexists. split; [reflexivity|].
  unfold Tensor.add, Tensor.broadcast2, Tensor.broadcast_shapes.
  cbn [shape]. rewrite Hx, Nat.min_r by lia.
  cbn [rev app Tensor.bcast_rev].
  rewrite bcast_dim_refl. cbn [bind].
  unfold Tensor.bcast_dim at 1.
  replace (l =? max_pos) with false by (symmetry; apply Nat.eqb_neq; lia).
  replace (l =? 1) with false by (symmetry; apply Nat.eqb_neq; lia).
  replace (max_pos =? 1) with false by (symmetry; apply Nat.eqb_neq; lia).
  reflexivity.
Qed.

(** X16: an encoder constructed from sizes and a rate that Keras accepts
    returns on every non-empty batch of token ids of shape
    [(batch, length)] whose ids all lie in the vocabulary and whose length
    does not exceed the positional table, with an admissible mask (in
    training the dropout rate must be below 1); the output has shape
    [(batch, length, embedding_dim)]. *)
Theorem encoder_returns
        (n d h fc vocab max_pos : nat) (rate eps : R) (w : Encoder.vars)
        (self : Encoder.t) (x : tensor Z) (training : bool)
        (mask : option (tensor R)) (b l : nat) :
  Encoder.init n d h fc vocab max_pos rate eps w = Ok self ->
  keras_accepts d vocab rate -> dropout_applies training rate ->
  0 < b ->
  shape x = [b; l] -> l <= max_pos ->
  ids_in_vocabulary vocab b l x ->
  mask_ok [b; h; l; l] mask ->
  exists y, Encoder.call self x training mask = Ok y
            /\ shape y = [b; l; d].
Proof.
  intros Hinit (Hd & _) _ Hb Hx Hl _ Hmask. apply Encoder_init_wf in Hinit.
  now apply (@Encoder_call_returns d h b Hd Hb self x training mask max_pos l).
Qed.

Lemma encoder_returns_witness :
  exists self y,
    Encoder.init 2 4 2 8 10 6 0.1 1e-6 example_encoder_vars = Ok self
    /\ Encoder.call self example_decoder_tar true None = Ok y
    /\ shape y = [1; 2; 4].
Proof.
  destruct (@Encoder_init_returns 2 4 2 8 10 6 0.1%R 1e-6%R
              example_encoder_vars) as (self & Hinit).
  { split; [lia | exists 2; reflexivity]. }
  exists self.
  destruct (@encoder_returns 2 4 2 8 10 6 0.1%R 1e-6%R example_encoder_vars
              self example_decoder_tar true None 1 2 Hinit)
    as (y & Hy & Hys).
  - unfold keras_accepts. split; [lia|]. split; [lia|]. lra.
  - intros _. lra.
  - lia.
  - reflexivity.
  - lia.
  - intros i t Hi Ht.
    destruct i as [|i]; [|lia]. destruct t as [|[|t]]; [| |lia]; cbn; lia.
  - exact I.
  - exists y. split; [exact Hinit|]. split; [exact Hy | exact Hys].
Defined.

(** X17: a sequence longer than the positional table makes the encoder
    fail: with [1 < maximum_position_encoding < length] the slice of the
    table cannot be broadcast against the embeddings and the call raises
    [InvalidArgumentError]. *)
Theorem encoder_sequence_too_long
        (n d h fc vocab max_pos : nat) (rate eps : R) (w : Encoder.vars)
        (self : Encoder.t) (x : tensor Z) (training : bool)
        (mask : option (tensor R)) (b l : nat) :
  Encoder.init n d h fc vocab max_pos rate eps w = Ok self ->
  shape x = [b; l] ->
  1 < max_pos -> max_pos < l ->
  Encoder.call self x training mask = Raise InvalidArgumentError.
Proof.
  intros Hinit Hx Hmax Hl. apply Encoder_init_wf in Hinit.
  destruct Hinit as (_ & Hod & Hpe & _).
  unfold Encoder.call, Tensor.dim. rewrite Hx. cbn [list_get nth_error bind].
  match goal with
  | |- bind (Tensor.slice_axis1 l _) (fun pe => bind (Tensor.add ?e pe) _) = _ =>
      destruct (@add_pos_encoding_raise e (Encoder.pos_encoding self)
                  b l d max_pos) as (p & Hp & Hadd)
  end; trivial.
  { cbn [shape Tensor.tmap Keras.Embedding.call]. rewrite Hx, Hod. reflexivity. }
  rewrite Hp. cbn [bind]. rewrite Hadd. reflexivity.
Qed.

Lemma encoder_sequence_too_long_witness :
  exists self,
    Encoder.init 2 4 2 8 10 3 0.1 1e-6 example_encoder_vars = Ok self
    /\ Encoder.call self scenario4_inp false None = Raise InvalidArgumentError.
Proof.
  destruct (@Encoder_init_returns 2 4 2 8 10 3 0.1%R 1e-6%R
              example_encoder_vars) as (self & Hinit).
  { split; [lia | exists 2; reflexivity]. }
  exists self. split; [exact Hinit|].
  apply (@encoder_sequence_too_long 2 4 2 8 10 3 0.1%R 1e-6%R
           example_encoder_vars self scenario4_inp false None 1 5 Hinit).
  - reflexivity.
  - lia.
  - lia.
Defined.

(** X18: the stage of the encoder before its layers, observed on an
    encoder without layers, constructed from sizes and a rate that Keras
    accepts, outside training and on token ids that all lie in the
    vocabulary: the output at batch entry [i], position [t] and dimension
    [c] is the embedding of the token, scaled by [sqrt(embedding_dim)], plus
    the positional encoding of [t] and [c]. *)
Theorem encoder_embedding_stage
        (d h fc vocab max_pos : nat) (rate eps : R) (w : Encoder.vars)
        (self : Encoder.t) (x : tensor Z) (mask : option (tensor R))
        (b l : nat) :
  Encoder.init 0 d h fc vocab max_pos rate eps w = Ok self ->
  keras_accepts d vocab rate ->
  shape x = [b; l] -> l <= max_pos ->
  ids_in_vocabulary vocab b l x ->
  exists y,
    Encoder.call self x false mask = Ok y
    /\ shape y = [b; l; d]
    /\ forall i t c, i < b -> t < l -> c < d ->
         elem y [i; t; c]
         = (Encoder.embedding_table w (elem x [i; t]) c * sqrt (INR d)
            + (if Nat.even c then sin (angle_formula d t c)
               else cos (angle_formula d t c)))%R.
Proof.
  intros Hinit _ Hx Hl Hids. unfold Encoder.init in Hinit.
  destruct (get_positional_encodings_table max_pos d) as (pe & Hpe & Hpes & Hpee).
  rewrite Hpe in Hinit. cbn [bind seq mapM] in Hinit. injection Hinit as <-.
  unfold Encoder.call, Tensor.dim. rewrite Hx.
  cbn [list_get nth_error bind Encoder.pos_encoding Encoder.embedding
       Encoder.embedding_dim Encoder.num_layers Encoder.dropout].
  unfold Tensor.slice_axis1. rewrite Hpes. cbn [bind].
  unfold Tensor.add, Tensor.broadcast2, Tensor.broadcast_shapes.
  cbn [shape Tensor.tmap Keras.Embedding.call Keras.Embedding.output_dim].
  rewrite Hx, Nat.min_l by exact Hl.
  cbn [rev app Tensor.bcast_rev].
  rewrite !bcast_dim_refl, bcast_dim_1_r. cbn [bind rev app].
  unfold for_range. cbn [for_range_from Keras.Dropout.call].
  eexists. split; [reflexivity|]. split; [reflexivity|].
  intros i t c Hi Ht Hc. pose proof (Hids i t Hi Ht) as Hid.
  cbn [elem Tensor.tmap Keras.Embedding.call Keras.Embedding.input_dim
       Keras.Embedding.table Tensor.bcast_index combine map skipn fst snd
       length Nat.sub removelast last].
  rewrite (axis_index_in_range Hi), (axis_index_in_range Ht),
    (axis_index_in_range Hc).
  cbn [Nat.eqb].
  replace ((0 <=? elem x [i; t])%Z && (elem x [i; t] <? Z.of_nat vocab)%Z)
    with true.
  2:{ symmetry. apply andb_true_iff. split; [apply Z.leb_le | apply Z.ltb_lt]; lia. }
  rewrite (Hpee t c) by lia. reflexivity.
Qed.

Lemma encoder_embedding_stage_witness :
  exists self y,
    Encoder.init 0 4 2 8 10 6 0.1 1e-6 example_encoder_vars = Ok self
    /\ Encoder.call self example_decoder_tar false None = Ok y
    /\ shape y = [1; 2; 4]
    /\ forall i t c, i < 1 -> t < 2 -> c < 4 ->
         elem y [i; t; c]
         = (Encoder.embedding_table example_encoder_vars
              (elem example_decoder_tar [i; t]) c * sqrt (INR 4)
            + (if Nat.even c then sin (angle_formula 4 t c)
               else cos (angle_formula 4 t c)))%R.
Proof.
  destruct (@Encoder_init_returns 0 4 2 8 10 6 0.1%R 1e-6%R
              example_encoder_vars) as (self & Hinit).
  { split; [lia | exists 2; reflexivity]. }
  exists self.
  destruct (@encoder_embedding_stage 4 2 8 10 6 0.1%R 1e-6%R
              example_encoder_vars self example_decoder_tar None 1 2 Hinit)
    as (y & Hy & Hys & Hye).
  - unfold keras_accepts. split; [lia|]. split; [lia|]. lra.
  - reflexivity.
  - lia.
  - intros i t Hi Ht.
    destruct i as [|i]; [|lia]. destruct t as [|[|t]]; [| |lia]; cbn; lia.
  - exists y. split; [exact Hinit|]. split; [exact Hy|].
    split; [exact Hys | exact Hye].
Defined.

Lemma dict_set_new {V : Type} (d : dict V) (k : string) (v : V) :
  ~ In k (dict_keys d) -> dict_set d k v = d ++ [(k, v)].
Proof.
  induction d as [|[k' v'] d IH]; cbn; intros Hn; [reflexivity|].
  destruct (String.eqb_spec k' k) as [->|Hk].
  - exfalso. apply Hn. now left.
  - f_equal. apply IH. intros Hin. apply Hn. now right.
Qed.

(** One iteration of the decoder's loop runs its layer and appends the two
    weight tensors under the keys of the layer. *)
Lemma layer_step_appends (self : Decoder.t) (enc_output : tensor R)
      (training : bool) (lam pm : option (tensor R)) (i : nat)
      (x x' : tensor R) (aw aw' : dict (tensor R)) :
  Decoder.layer_step self enc_output training lam pm i (x, aw) = Ok (x', aw') ->
  dict_keys aw = expected_keys i ->
  exists layer b1 b2,
    list_get (Decoder.dec_layers self) i = Ok layer
    /\ DecoderLayer.call layer x enc_output training lam pm = Ok (x', b1, b2)
    /\ aw' = aw ++ [(block1_key (S i), b1); (block2_key (S i), b2)].
Proof.
  unfold Decoder.layer_step. intros H Hk.
  apply bind_ok in H. destruct H as (layer & Hlayer & H).
  apply bind_ok in H. destruct H as ([[x1 b1] b2] & Hcall & H).
  injection H as <- <-.
  exists layer, b1, b2. split; [exact Hlayer|]. split; [exact Hcall|].
  rewrite Nat.add_1_r.
  assert (H1 : ~ In (block1_key (S i)) (dict_keys aw)).
  { rewrite Hk. intros Hin. apply expected_keys_in in Hin.
    destruct Hin as (l & Hl & [E|E]).
    - apply block1_key_inj in E. lia.
    - now apply block1_key_neq_block2_key in E. }
  rewrite (@dict_set_new _ aw (block1_key (S i)) b1 H1).
  rewrite dict_set_new.
  - rewrite <- app_assoc. reflexivity.
  - unfold dict_keys. rewrite map_app. fold (dict_keys aw). rewrite Hk.
    cbn [map fst].
    intros Hin. apply in_app_or in Hin. destruct Hin as [Hin|[E|[]]].
    + apply expected_keys_in in Hin. destruct Hin as (l & Hl & [E|E]).
      * symmetry in E. now apply block1_key_neq_block2_key in E.
      * apply block2_key_inj in E. lia.
    + now apply block1_key_neq_block2_key in E.
Qed.

Section Stacks.

Variables d h b : nat.
Hypothesis d_pos : 0 < d.
Hypothesis b_pos : 0 < b.

Lemma decoder_loop_weights_shapes (self : Decoder.t) (enc_output : tensor R)
      (training : bool) (lam pm : option (tensor R)) (lq lk de : nat) :
  Forall (wf_decoder_layer d h) (Decoder.dec_layers self) ->
  shape enc_output = [b; lk; de] ->
  mask_ok [b; h; lq; lq] lam ->
  mask_ok [b; h; lq; lk] pm ->
  forall (n start : nat) (x x' : tensor R) (aw aw' : dict (tensor R)),
    for_range_from start n
      (Decoder.layer_step self enc_output training lam pm) (x, aw)
    = Ok (x', aw') ->
    dict_keys aw = expected_keys start ->
    shape x = [b; lq; d] ->
    map (fun kv => (fst kv, shape (snd kv))) aw'
    = map (fun kv => (fst kv, shape (snd kv))) aw
      ++ flat_map (fun layer => [(block1_key layer, [b; h; lq; lq]);
                                 (block2_key layer, [b; h; lq; lk])])
                  (seq (S start) n).
Proof.
  intros Hwf Henc Hlam Hpm.
  induction n as [|n IH]; intros start x x' aw aw' H Hk Hx;
    cbn [for_range_from] in H.
  - injection H as _ <-. cbn. now rewrite app_nil_r.
  - apply bind_ok in H. destruct H as ([x1 aw1] & Hstep & H).
    pose proof (@layer_step_keys self enc_output training lam pm start
                  x x1 aw aw1 Hstep Hk) as Hk1.
    destruct (@layer_step_appends self enc_output training lam pm start
                x x1 aw aw1 Hstep Hk)
      as (layer & b1 & b2 & Hlayer & Hcall & Haw1).
    apply list_get_In in Hlayer.
    rewrite Forall_forall in Hwf.
    destruct (@DecoderLayer_call_blocks_shape d h b d_pos b_pos layer x
                enc_output x1 b1 b2 training lam pm lq lk de
                (Hwf _ Hlayer) Hx Henc Hlam Hpm Hcall) as (Hx1 & Hb1 & Hb2).
    rewrite (IH (S start) x1 x' aw1 aw' H Hk1 Hx1).
    rewrite Haw1, map_app. cbn [map fst snd]. rewrite Hb1, Hb2.
    rewrite <- app_assoc. reflexivity.
Qed.

End Stacks.

Lemma DecoderLayer_call_weights_softmax
      (self : DecoderLayer.t) (x enc_output out3 b1 b2 : tensor R)
      (training : bool) (look_ahead_mask padding_mask : option (tensor R)) :
  DecoderLayer.call self x enc_output training look_ahead_mask padding_mask
  = Ok (out3, b1, b2) ->
  rows_are_distributions b1 /\ rows_are_distributions b2.
Proof.
  unfold DecoderLayer.call. intros H.
  apply bind_ok in H. destruct H as ([attn1 w1] & Hattn1 & H).
  apply bind_ok in H. destruct H as (s1 & _ & H).
  apply bind_ok in H. destruct H as (out1 & _ & H).
  apply bind_ok in H. destruct H as ([attn2 w2] & Hattn2 & H).
  apply bind_ok in H. destruct H as (s2 & _ & H).
  apply bind_ok in H. destruct H as (out2 & _ & H).
  apply bind_ok in H. destruct H as (ffn_output & _ & H).
  apply bind_ok in H. destruct H as (s3 & _ & H).
  apply bind_ok in H. destruct H as (o3 & _ & H).
  injection H as _ <- <-.
  apply MultiHeadAttention_call_weights_softmax in Hattn1, Hattn2.
  destruct Hattn1 as (sc1 & Hsc1), Hattn2 as (sc2 & Hsc2).
  split; eapply softmax_distribution; eassumption.
Qed.

Lemma dict_set_Forall_values {V : Type} (P : V -> Prop) (d : dict V)
      (k : string) (v : V) :
  Forall (fun kv => P (snd kv)) d -> P v ->
  Forall (fun kv => P (snd kv)) (dict_set d k v).
Proof.
  intros Hd Hv. induction d as [|[k' v'] d IH]; cbn.
  - constructor; [exact Hv | constructor].
  - inversion Hd as [|? ? Hhd Htl]; subst.
    destruct (String.eqb k' k); constructor; auto.
Qed.

Lemma decoder_loop_weights_distributions
      (self : Decoder.t) (enc_output : tensor R)
      (training : bool) (lam pm : option (tensor R)) (n : nat) :
  forall (start : nat) (x x' : tensor R) (aw aw' : dict (tensor R)),
    for_range_from start n
      (Decoder.layer_step self enc_output training lam pm) (x, aw)
    = Ok (x', aw') ->
    Forall (fun kv => rows_are_distributions (snd kv)) aw ->
    Forall (fun kv => rows_are_distributions (snd kv)) aw'.
Proof.
  induction n as [|n IH]; intros start x x' aw aw' H Haw;
    cbn [for_range_from] in H.
  - now injection H as _ <-.
  - apply bind_ok in H. destruct H as ([x1 aw1] & Hstep & H).
    apply (IH (S start) x1 x' aw1 aw' H).
    unfold Decoder.layer_step in Hstep.
    apply bind_ok in Hstep. destruct Hstep as (layer & _ & Hstep).
    apply bind_ok in Hstep. destruct Hstep as ([[x2 b1] b2] & Hcall & Hstep).
    injection Hstep as _ <-.
    apply DecoderLayer_call_weights_softmax in Hcall.
    destruct Hcall as (Hb1 & Hb2).
    apply dict_set_Forall_values; [|exact Hb2].
    apply dict_set_Forall_values; [exact Haw | exact Hb1].
Qed.

(** X19: a decoder constructed from sizes and a rate that Keras accepts
    returns on every non-empty batch of shape [(batch, target_length)]
    whose ids all lie in the vocabulary and which is no longer than the
    positional table, with an encoder output [(batch, input_length, _)] and
    admissible masks (in training the dropout rate must be below 1).  The
    output has shape [(batch, target_length, embedding_dim)], and the
    attention-weights dictionary holds, for each layer in turn, the
    self-attention weights of shape
    [(batch, num_heads, target_length, target_length)] under the block-1 key
    and the cross-attention weights of shape
    [(batch, num_heads, target_length, input_length)] under the block-2
    key. *)
Theorem decoder_attention_weights_shapes
        (n d h fc vocab max_pos : nat) (rate eps : R) (w : Decoder.vars)
        (self : Decoder.t) (x : tensor Z) (enc_output : tensor R)
        (training : bool) (look_ahead_mask padding_mask : option (tensor R))
        (b tlen lk de : nat) :
  Decoder.init n d h fc vocab max_pos rate eps w = Ok self ->
  keras_accepts d vocab rate -> dropout_applies training rate ->
  0 < b ->
  shape x = [b; tlen] -> tlen <= max_pos ->
  ids_in_vocabulary vocab b tlen x ->
  shape enc_output = [b; lk; de] ->
  mask_ok [b; h; tlen; tlen] look_ahead_mask ->
  mask_ok [b; h; tlen; lk] padding_mask ->
  exists out attention_weights,
    Decoder.call self x enc_output training look_ahead_mask padding_mask
    = Ok (out, attention_weights)
    /\ shape out = [b; tlen; d]
    /\ map (fun kv => (fst kv, shape (snd kv))) attention_weights
       = flat_map (fun layer => [(block1_key layer, [b; h; tlen; tlen]);
                                 (block2_key layer, [b; h; tlen; lk])])
                  (seq 1 n).
Proof.
  intros Hinit (Hd & _) _ Hb Hx Hl _ Henc Hlam Hpm.
  apply Decoder_init_wf in Hinit. destruct Hinit as (Hwf & Hn).
  destruct (@Decoder_call_returns d h b Hd Hb self x enc_output training
              look_ahead_mask padding_mask max_pos tlen lk de
              Hwf Hx Hl Henc Hlam Hpm) as (out & aw & Hcall & Hout).
  exists out, aw. split; [exact Hcall|]. split; [exact Hout|].
  destruct Hwf as (_ & Hod & Hpe & Hlayers & _).
  unfold Decoder.call, Tensor.dim in Hcall. rewrite Hx in Hcall.
  cbn [list_get nth_error bind] in Hcall.
  match type of Hcall with
  | bind (Tensor.slice_axis1 tlen _) (fun pe => bind (Tensor.add ?e pe) _) = _ =>
      destruct (@add_pos_encoding_returns e (Decoder.pos_encoding self)
                  b tlen d max_pos) as (p & x1 & Hp & Hx1 & Hx1s)
  end; trivial.
  { cbn [shape Tensor.tmap Keras.Embedding.call]. rewrite Hx, Hod. reflexivity. }
  rewrite Hp in Hcall. cbn [bind] in Hcall.
  rewrite Hx1 in Hcall. cbn [bind] in Hcall.
  unfold for_range in Hcall. rewrite Hn in Hcall.
  eapply (@decoder_loop_weights_shapes d h b Hd Hb) in Hcall;
    try eassumption.
  - exact Hcall.
  - reflexivity.
  - rewrite Dropout_call_shape. exact Hx1s.
Qed.

Lemma decoder_attention_weights_shapes_witness :
  exists self out attention_weights,
    Decoder.init 2 4 2 8 10 6 0.1 1e-6 example_decoder_vars = Ok self
    /\ Decoder.call self example_decoder_tar example_enc_output true None None
       = Ok (out, attention_weights)
    /\ shape out = [1; 2; 4]
    /\ map (fun kv => (fst kv, shape (snd kv))) attention_weights
       = flat_map (fun layer => [(block1_key layer, [1; 2; 2; 2]);
                                 (block2_key layer, [1; 2; 2; 3])])
                  (seq 1 2).
Proof.
  destruct (@Decoder_init_returns 2 4 2 8 10 6 0.1%R 1e-6%R
              example_decoder_vars) as (self & Hinit).
  { split; [lia | exists 2; reflexivity]. }
  exists self.
  destruct (@decoder_attention_weights_shapes 2 4 2 8 10 6 0.1%R 1e-6%R
              example_decoder_vars self example_decoder_tar example_enc_output
              true None None 1 2 3 4 Hinit)
    as (out & aw & Hcall & Hshapes).
  - unfold keras_accepts. split; [lia|]. split; [lia|]. lra.
  - intros _. lra.
  - lia.
  - reflexivity.
  - lia.
  - intros i t Hi Ht.
    destruct i as [|i]; [|lia]. destruct t as [|[|t]]; [| |lia]; cbn; lia.
  - reflexivity.
  - exact I.
  - exact I.
  - exists out, aw. split; [exact Hinit|]. split; [exact Hcall|].
    exact Hshapes.
Defined.

(** X20: for a decoder constructed from sizes and a rate that Keras
    accepts and a positive normalisation epsilon, with masks whose entries
    lie in [[0, 1]] (in training the dropout rate must be below 1), every
    tensor in the attention-weights dictionary of a call that returns holds
    distributions over the keys: along a non-empty key axis every weight
    lies in [[0, 1]] and every row sums to 1. *)
Theorem decoder_attention_weights_distributions
        (n d h fc vocab max_pos : nat) (rate eps : R) (w : Decoder.vars)
        (self : Decoder.t) (x : tensor Z) (enc_output : tensor R)
        (training : bool) (look_ahead_mask padding_mask : option (tensor R))
        (out : tensor R) (attention_weights : dict (tensor R)) :
  Decoder.init n d h fc vocab max_pos rate eps w = Ok self ->
  keras_accepts d vocab rate -> dropout_applies training rate ->
  (0 < eps)%R ->
  mask_in_unit_interval look_ahead_mask ->
  mask_in_unit_interval padding_mask ->
  Decoder.call self x enc_output training look_ahead_mask padding_mask
  = Ok (out, attention_weights) ->
  Forall (fun kv => rows_are_distributions (snd kv)) attention_weights.
Proof.
  unfold Decoder.call. intros _ _ _ _ _ _ H.
  apply bind_ok in H. destruct H as (seq_len & _ & H).
  apply bind_ok in H. destruct H as (pe & _ & H).
  apply bind_ok in H. destruct H as (x1 & _ & H).
  unfold for_range in H.
  eapply decoder_loop_weights_distributions; [exact H | constructor].
Qed.

Lemma decoder_attention_weights_distributions_witness :
  exists self out attention_weights,
    Decoder.init 2 4 2 8 10 6 0.1 1e-6 example_decoder_vars = Ok self
    /\ Decoder.call self example_decoder_tar example_enc_output true None None
       = Ok (out, attention_weights)
    /\ Forall (fun kv => rows_are_distributions (snd kv)) attention_weights.
Proof.
  destruct (@Decoder_init_returns 2 4 2 8 10 6 0.1%R 1e-6%R
              example_decoder_vars) as (self & Hinit).
  { split; [lia | exists 2; reflexivity]. }
  destruct (@Decoder_call_returns 4 2 1 ltac:(lia) ltac:(lia) self
              example_decoder_tar example_enc_output true None None 6 2 3 4)
    as (out & aw & Hcall & _).
  - apply (proj1 (@Decoder_init_wf 2 4 2 8 10 6 0.1%R 1e-6%R
                    example_decoder_vars self Hinit)).
  - reflexivity.
  - lia.
  - reflexivity.
  - exact I.
  - exact I.
  - exists self, out, aw. split; [exact Hinit|]. split; [exact Hcall|].
    apply (@decoder_attention_weights_distributions
             2 4 2 8 10 6 0.1%R 1e-6%R example_decoder_vars self
             example_decoder_tar example_enc_output true None None out aw
             Hinit).
    + unfold keras_accepts. split; [lia|]. split; [lia|]. lra.
    + intros _. lra.
    + lra.
    + exact I.
    + exact I.
    + exact Hcall.
Defined.

(** X21: a target sequence longer than the positional table makes the
    decoder fail: with [1 < maximum_position_encoding < length] the call
    raises [InvalidArgumentError]. *)
Theorem decoder_sequence_too_long
        (n d h fc vocab max_pos : nat) (rate eps : R) (w : Decoder.vars)
        (self : Decoder.t) (x : tensor Z) (enc_output : tensor R)
        (training : bool) (look_ahead_mask padding_mask : option (tensor R))
        (b l : nat) :
  Decoder.init n d h fc vocab max_pos rate eps w = Ok self ->
  shape x = [b; l] ->
  1 < max_pos -> max_pos < l ->
  Decoder.call self x enc_output training look_ahead_mask padding_mask
  = Raise InvalidArgumentError.
Proof.
  intros Hinit Hx Hmax Hl. apply Decoder_init_wf in Hinit.
  destruct Hinit as ((_ & Hod & Hpe & _) & _).
  unfold Decoder.call, Tensor.dim. rewrite Hx. cbn [list_get nth_error bind].
  match goal with
  | |- bind (Tensor.slice_axis1 l _) (fun pe => bind (Tensor.add ?e pe) _) = _ =>
      destruct (@add_pos_encoding_raise e (Decoder.pos_encoding self)
                  b l d max_pos) as (p & Hp & Hadd)
  end; trivial.
  { cbn [shape Tensor.tmap Keras.Embedding.call]. rewrite Hx, Hod. reflexivity. }
  rewrite Hp. cbn [bind]. rewrite Hadd. reflexivity.
Qed.

Lemma decoder_sequence_too_long_witness :
  exists self,
    Decoder.init 2 4 2 8 10 3 0.1 1e-6 example_decoder_vars = Ok self
    /\ Decoder.call self scenario4_tar example_enc_output false None None
       = Raise InvalidArgumentError.
Proof.
  destruct (@Decoder_init_returns 2 4 2 8 10 3 0.1%R 1e-6%R
              example_decoder_vars) as (self & Hinit).
  { split; [lia | exists 2; reflexivity]. }
  exists self. split; [exact Hinit|].
  apply (@decoder_sequence_too_long 2 4 2 8 10 3 0.1%R 1e-6%R
           example_decoder_vars self scenario4_tar example_enc_output
           false None None 1 5 Hinit).
  - reflexivity.
  - lia.
  - lia.
Defined.

(** ** Construction and calls of the Transformer *)

Lemma divisible_by_dec (d h : nat) : divisible_by d h \/ ~ divisible_by d h.
Proof.
  destruct (Nat.eq_dec h 0) as [Hh|Hh].
  - right. intros (Hn & _). contradiction.
  - destruct (Nat.eq_dec (d mod h) 0) as [Hm|Hm].
    + left. apply divisible_by_mod. auto.
    + right. intros Hdiv. apply divisible_by_mod in Hdiv. tauto.
Qed.

Lemma Dense_softmax_distribution (l : Keras.Dense.t) (x y : tensor R) :
  Keras.Dense.activation_fn l = Keras.Softmax ->
  Keras.Dense.call l x = Ok y ->
  rows_are_distributions y.
Proof.
  intros Hact H. unfold Keras.Dense.call in H.
  destruct (2 <=? rank x); [|discriminate].
  apply bind_ok in H. destruct H as (d & _ & H).
  rewrite Hact in H.
  eapply softmax_distribution; exact H.
Qed.

(** X22: for sizes and a rate that Keras accepts (a positive
    [embedding_dim], vocabularies that are not empty, a dropout rate in
    [[0, 1]]), constructing the Transformer succeeds exactly when it has no
    layer or [num_heads] divides [embedding_dim]. *)
Theorem transformer_construction
        (num_layers embedding_dim num_heads fully_connected_dim
         input_vocab_size target_vocab_size
         max_positional_encoding_input max_positional_encoding_target : nat)
        (dropout_rate layernorm_eps : R) (w : Transformer.vars) :
  keras_accepts embedding_dim input_vocab_size dropout_rate ->
  keras_accepts embedding_dim target_vocab_size dropout_rate ->
  ((exists transformer,
       Transformer.init num_layers embedding_dim num_heads fully_connected_dim
                        input_vocab_size target_vocab_size
                        max_positional_encoding_input
                        max_positional_encoding_target
                        dropout_rate layernorm_eps w = Ok transformer)
   <-> (num_layers = 0 \/ divisible_by embedding_dim num_heads)).
Proof.
  intros _ _. split.
  - intros (tr & Htr).
    destruct num_layers as [|n]; [now left | right].
    destruct (divisible_by_dec embedding_dim num_heads) as [Hdiv|Hn];
      [exact Hdiv | exfalso].
    unfold Transformer.init in Htr.
    destruct (@Encoder_init_raise n embedding_dim num_heads fully_connected_dim
                input_vocab_size max_positional_encoding_input
                dropout_rate layernorm_eps (Transformer.encoder_vars w) Hn)
      as (e & He).
    rewrite He in Htr. discriminate Htr.
  - intros [-> | Hdiv].
    + destruct (get_positional_encodings_table
                  max_positional_encoding_input embedding_dim)
        as (ti & Hti & _).
      destruct (get_positional_encodings_table
                  max_positional_encoding_target embedding_dim)
        as (tt & Htt & _).
      unfold Transformer.init, Encoder.init, Decoder.init.
      rewrite Hti, Htt. cbn [bind seq mapM]. eauto.
    + now apply Transformer_init_returns.
Qed.

Lemma transformer_construction_witness :
  (exists transformer,
      Transformer.init 1 8 2 16 100 120 10 10 0.1 1e-6
                       example_transformer_vars = Ok transformer)
  <-> (1 = 0 \/ divisible_by 8 2).
Proof.
  apply (@transformer_construction 1 8 2 16 100 120 10 10 0.1%R 1e-6%R
           example_transformer_vars).
  - unfold keras_accepts. split; [lia|]. split; [lia|]. lra.
  - unfold keras_accepts. split; [lia|]. split; [lia|]. lra.
Defined.

(** X23: the masks of the notebook's builders are admissible for the
    model: a Transformer constructed from sizes and a rate that Keras
    accepts returns on every non-empty batch of input and target sequences
    whose ids all lie in their vocabularies and which are no longer than
    the positional tables, when it is given the padding mask of the input
    (for the encoder and for the decoder's cross-attention) and the
    look-ahead mask of the target length (in training the dropout rate must
    be below 1); the output has shape
    [(batch, target_length, target_vocab_size)]. *)
Theorem transformer_runs_with_built_masks
        (n d h fc in_vocab tgt_vocab max_in max_tgt : nat) (rate eps : R)
        (w : Transformer.vars) (transformer : Transformer.t)
        (inp tar : tensor Z) (training : bool) (b slen tlen : nat) :
  Transformer.init n d h fc in_vocab tgt_vocab max_in max_tgt rate eps w
  = Ok transformer ->
  keras_accepts d in_vocab rate -> keras_accepts d tgt_vocab rate ->
  dropout_applies training rate ->
  0 < b ->
  shape inp = [b; slen] -> slen <= max_in ->
  shape tar = [b; tlen] -> tlen <= max_tgt ->
  ids_in_vocabulary in_vocab b slen inp ->
  ids_in_vocabulary tgt_vocab b tlen tar ->
  exists padding_mask look_ahead_mask final_output attention_weights,
    create_padding_mask inp = Ok padding_mask
    /\ create_look_ahead_mask tlen = Ok look_ahead_mask
    /\ Transformer.call transformer inp tar training
                        (Some padding_mask) (Some look_ahead_mask)
                        (Some padding_mask)
       = Ok (final_output, attention_weights)
    /\ shape final_output = [b; tlen; tgt_vocab].
Proof.
  intros Hinit (Hd & _) _ _ Hb Hinp Hsl Htar Htl _ _.
  destruct (@create_padding_mask_entries inp b slen Hinp)
    as (pm & Hpm & _).
  destruct (create_look_ahead_mask_entries tlen) as (lam & Hlam & _).
  destruct (@Transformer_call_returns n d h fc in_vocab tgt_vocab max_in
              max_tgt rate eps w transformer inp tar training
              (Some pm) (Some lam) (Some pm) b slen tlen
              Hinit Hd Hb Hinp Hsl Htar Htl)
    as (final & aw & Hcall & Hshape).
  - eapply padding_mask_ok; eassumption.
  - eapply look_ahead_mask_ok; eassumption.
  - eapply padding_mask_ok; eassumption.
  - exists pm, lam, final, aw. auto.
Qed.

Lemma transformer_runs_with_built_masks_witness :
  exists transformer padding_mask look_ahead_mask final_output
         attention_weights,
    Transformer.init 1 8 2 16 100 120 10 10 0.1 1e-6 example_transformer_vars
    = Ok transformer
    /\ create_padding_mask scenario4_inp = Ok padding_mask
    /\ create_look_ahead_mask 5 = Ok look_ahead_mask
    /\ Transformer.call transformer scenario4_inp scenario4_tar true
                        (Some padding_mask) (Some look_ahead_mask)
                        (Some padding_mask)
       = Ok (final_output, attention_weights)
    /\ shape final_output = [1; 5; 120].
Proof.
  destruct (@Transformer_init_returns 1 8 2 16 100 120 10 10 0.1%R 1e-6%R
              example_transformer_vars) as (tr & Hinit).
  { split; [lia | exists 4; reflexivity]. }
  exists tr.
  destruct (@transformer_runs_with_built_masks 1 8 2 16 100 120 10 10
              0.1%R 1e-6%R example_transformer_vars tr
              scenario4_inp scenario4_tar true 1 5 5 Hinit)
    as (pm & lam & final & aw & Hrun).
  - unfold keras_accepts. split; [lia|]. split; [lia|]. lra.
  - unfold keras_accepts. split; [lia|]. split; [lia|]. lra.
  - intros _. lra.
  - lia.
  - reflexivity.
  - lia.
  - reflexivity.
  - lia.
  - intros i t Hi Ht. destruct i as [|i]; [|lia].
    destruct t as [|[|[|[|[|t]]]]]; [| | | | |lia]; cbn; lia.
  - intros i t Hi Ht. destruct i as [|i]; [|lia].
    destruct t as [|[|[|[|[|t]]]]]; [| | | | |lia]; cbn; lia.
  - exists pm, lam, final, aw. split; [exact Hinit | exact Hrun].
Defined.

(** X24: for a Transformer constructed from sizes and a rate that Keras
    accepts and a positive normalisation epsilon, with masks whose entries
    lie in [[0, 1]] (in training the dropout rate must be below 1), every
    entry of the output of a call that returns is a probability: it lies in
    [[0, 1]]. *)
Theorem transformer_output_probabilities
        (n d h fc in_vocab tgt_vocab max_in max_tgt : nat) (rate eps : R)
        (w : Transformer.vars) (transformer : Transformer.t)
        (inp tar : tensor Z) (training : bool)
        (enc_padding_mask look_ahead_mask dec_padding_mask : option (tensor R))
        (final_output : tensor R) (attention_weights : dict (tensor R)) :
  Transformer.init n d h fc in_vocab tgt_vocab max_in max_tgt rate eps w
  = Ok transformer ->
  keras_accepts d in_vocab rate -> keras_accepts d tgt_vocab rate ->
  dropout_applies training rate ->
  (0 < eps)%R ->
  mask_in_unit_interval enc_padding_mask ->
  mask_in_unit_interval look_ahead_mask ->
  mask_in_unit_interval dec_padding_mask ->
  Transformer.call transformer inp tar training
                   enc_padding_mask look_ahead_mask dec_padding_mask
  = Ok (final_output, attention_weights) ->
  forall i t j, j < tgt_vocab ->
    (0 <= elem final_output [i; t; j] <= 1)%R.
Proof.
  intros Hinit _ _ _ _ _ _ _ H i t j Hj.
  apply Transformer_init_wf in Hinit.
  destruct Hinit as (_ & _ & Hunits & Hact).
  unfold Transformer.call in H.
  apply bind_ok in H. destruct H as (enc_output & _ & H).
  apply bind_ok in H. destruct H as ([dec_output aw] & _ & H).
  apply bind_ok in H. destruct H as (final & Hfinal & H).
  injection H as <- _.
  pose proof (Dense_softmax_distribution _ _ Hact Hfinal) as Hrows.
  apply Dense_call_shape in Hfinal.
  destruct (Hrows tgt_vocab [i; t]) as (Hrange & _).
  - unfold Tensor.last_dim. rewrite Hfinal, rev_app_distr, Hunits. reflexivity.
  - lia.
  - exact (Hrange j Hj).
Qed.

Lemma transformer_output_probabilities_witness :
  exists transformer final_output attention_weights,
    Transformer.init 1 8 2 16 100 120 10 10 0.1 1e-6 example_transformer_vars
    = Ok transformer
    /\ Transformer.call transformer scenario4_inp scenario4_tar false
                        None None None
       = Ok (final_output, attention_weights)
    /\ forall i t j, j < 120 ->
         (0 <= elem final_output [i; t; j] <= 1)%R.
Proof.
  destruct (@Transformer_init_returns 1 8 2 16 100 120 10 10 0.1%R 1e-6%R
              example_transformer_vars) as (tr & Hinit).
  { split; [lia | exists 4; reflexivity]. }
  destruct (@Transformer_call_returns 1 8 2 16 100 120 10 10 0.1%R 1e-6%R
              example_transformer_vars tr scenario4_inp scenario4_tar false
              None None None 1 5 5 Hinit)
    as (final & aw & Hcall & _).
  - lia.
  - lia.
  - reflexivity.
  - lia.
  - reflexivity.
  - lia.
  - exact I.
  - exact I.
  - exact I.
  - exists tr, final, aw. split; [exact Hinit|]. split; [exact Hcall|].
    apply (@transformer_output_probabilities 1 8 2 16 100 120 10 10
             0.1%R 1e-6%R example_transformer_vars tr
             scenario4_inp scenario4_tar false None None None final aw
             Hinit).
    + unfold keras_accepts. split; [lia|]. split; [lia|]. lra.
    + unfold keras_accepts. split; [lia|]. split; [lia|]. lra.
    + intros Htr. discriminate Htr.
    + lra.
    + exact I.
    + exact I.
    + exact I.
    + exact Hcall.
Defined.

(** ** Unchecked batch sizes and mismatched widths *)

(** X25: the attention does not check the batch dimension of its mask.
    With a query, key and value of batch size 1 and a mask of shape
    [(m, 1, 1, key_length)], the mask is broadcast and the call returns
    weights and an output of batch size [m]. *)
Theorem attention_mask_enlarges_batch
        (q k v mask : tensor R) (m h lq lk dp dv : nat) :
  shape q = [1; h; lq; dp] ->
  shape k = [1; h; lk; dp] ->
  shape v = [1; h; lk; dv] ->
  shape mask = [m; 1; 1; lk] ->
  exists output attention_weights,
    scaled_dot_product_attention q k v (Some mask)
    = Ok (output, attention_weights)
    /\ shape attention_weights = [m; h; lq; lk]
    /\ shape output = [m; h; lq; dv].
Proof.
  intros Hq Hk Hv Hmask. unfold scaled_dot_product_attention.
  destruct (@matmul4_returns true q k 1 h lq dp lk dp Hq Hk eq_refl)
    as (scores & Hscores & Hs).
  rewrite Hscores. cbn [bind].
  unfold Tensor.last_dim at 1. rewrite Hk. cbn [rev app bind].
  unfold Tensor.add, Tensor.broadcast2, Tensor.broadcast_shapes.
  cbn [shape Tensor.tmap]. rewrite Hs, Hmask.
  cbn [rev app Tensor.bcast_rev].
  rewrite bcast_dim_refl, !bcast_dim_1_r, bcast_dim_1_l. cbn [bind rev app].
  match goal with
  | |- exists o a, bind (Tensor.softmax ?t) _ = _ /\ _ =>
      destruct (@softmax_returns t) as (w & Hw & Hws)
  end.
  { cbn [shape]. discriminate. }
  rewrite Hw. cbn [bind]. cbn [shape] in Hws.
  unfold Tensor.matmul. rewrite Hws, Hv. cbn [rev app].
  rewrite Nat.eqb_refl. cbn [Tensor.bcast_rev].
  rewrite bcast_dim_refl, bcast_dim_1_r. cbn [bind rev app].
  eexists. exists w. split; [reflexivity|]. split; [exact Hws | reflexivity].
Qed.

Lemma attention_mask_enlarges_batch_witness :
  exists output attention_weights,
    scaled_dot_product_attention
      (constant_tensor [1; 2; 3; 4] 1%R) (constant_tensor [1; 2; 5; 4] 1%R)
      (constant_tensor [1; 2; 5; 4] 1%R)
      (Some (constant_tensor [7; 1; 1; 5] 0%R))
    = Ok (output, attention_weights)
    /\ shape attention_weights = [7; 2; 3; 5]
    /\ shape output = [7; 2; 3; 4].
Proof.
  apply (@attention_mask_enlarges_batch
           (constant_tensor [1; 2; 3; 4] 1%R) (constant_tensor [1; 2; 5; 4] 1%R)
           (constant_tensor [1; 2; 5; 4] 1%R) (constant_tensor [7; 1; 1; 5] 0%R)
           7 2 3 5 4 4).
  - reflexivity.
  - reflexivity.
  - reflexivity.
  - reflexivity.
Defined.

(** The reshape of [split_heads] regroups the leading axes: a tensor of
    [b'] sequences of length [l] is read as [b] sequences of length [n]
    whenever [b' * l = b * n]. *)
Lemma reshape_heads_regroup {A : Type} (t : tensor A)
      (b b' l n d h dp : nat) :
  shape t = [b'; l; d] -> b' * l = b * n ->
  0 < b -> 0 < h -> 0 < dp -> h * dp = d ->
  exists t',
    Tensor.reshape t [Z.of_nat b; (-1)%Z; Z.of_nat h; Z.of_nat dp] = Ok t'
    /\ shape t' = [b; n; h; dp].
Proof.
  intros Hs Hbn Hb Hh Hdp Hd.
  unfold Tensor.reshape, Tensor.reshape_shape, Tensor.reshape_product,
    Tensor.reshape_input_elements.
  rewrite Hs.
  cbn [filter existsb fold_right map].
  rewrite !of_nat_not_minus_one, !of_nat_not_below, !minus_one_neq_of_nat,
    !of_nat_pos_not_zero, !of_nat_pos by assumption.
  change (-1 =? -1)%Z with true. change (0 =? -1)%Z with false.
  change (-1 <? -1)%Z with false. change (0 <? -1)%Z with false.
  cbn [orb andb negb length Nat.ltb Nat.leb].
  rewrite !Nat2Z.id, !orb_true_r.
  assert (Hm : (b' * (l * (d * 1))) / (b * (h * (dp * 1))) = n).
  { rewrite !Nat.mul_1_r, Hd.
    replace (b' * (l * d)) with (n * (b * d)) by nia.
    apply Nat.div_mul. nia. }
  rewrite Hm.
  assert (Hp : (b * (h * (dp * 1)) * n =? b' * (l * (d * 1))) = true).
  { apply Nat.eqb_eq. rewrite <- Hd. nia. }
  rewrite Hp. cbn [negb andb prod_list fold_right].
  assert (Hq : (b * (n * (h * (dp * 1))) =? b' * (l * (d * 1))) = true).
  { apply Nat.eqb_eq. rewrite <- Hd. nia. }
  rewrite Hq. cbn [bind]. eexists. split; reflexivity.
Qed.

Section Unchecked.

Variables d h b : nat.
Hypothesis d_pos : 0 < d.
Hypothesis b_pos : 0 < b.

Lemma split_heads_regroup (self : MultiHeadAttention.t) (x : tensor R)
      (m l : nat) :
  wf_mha d h self ->
  shape x = [b * m; l; d] ->
  exists y, MultiHeadAttention.split_heads self x b = Ok y
            /\ shape y = [b; h; m * l; MultiHeadAttention.depth self].
Proof.
  intros (Hh & Hd & Hdp & _) Hs.
  unfold MultiHeadAttention.split_heads. rewrite Hh.
  destruct (@reshape_heads_regroup _ x b (b * m) l (m * l) d h
              (MultiHeadAttention.depth self))
    as (r & Hr & Hrs); trivial; try nia.
  rewrite Hr. cbn [bind].
  now apply transpose_0213_returns.
Qed.

Lemma MultiHeadAttention_call_regroup
      (self : MultiHeadAttention.t) (v k q : tensor R)
      (mask : option (tensor R)) (m lq lk dq dk dv : nat) :
  wf_mha d h self ->
  shape q = [b; lq; dq] ->
  shape k = [b * m; lk; dk] -> shape v = [b * m; lk; dv] ->
  mask_ok [b; h; lq; m * lk] mask ->
  exists out w,
    MultiHeadAttention.call self v k q mask = Ok (out, w)
    /\ shape out = [b; lq; d]
    /\ shape w = [b; h; lq; m * lk].
Proof.
  intros Hwf Hq Hk Hv Hmask.
  pose proof Hwf as (Hh & Hd & Hdp & Hwq & Hwk & Hwv & Hdense).
  unfold MultiHeadAttention.call.
  unfold Tensor.dim. rewrite Hq. cbn [list_get nth_error bind].
  destruct (@Dense_call_returns (MultiHeadAttention.wq self) q)
    as (q1 & Hq1 & Hq1s); [unfold rank; rewrite Hq; cbn; lia|].
  destruct (@Dense_call_returns (MultiHeadAttention.wk self) k)
    as (k1 & Hk1 & Hk1s); [unfold rank; rewrite Hk; cbn; lia|].
  destruct (@Dense_call_returns (MultiHeadAttention.wv self) v)
    as (v1 & Hv1 & Hv1s); [unfold rank; rewrite Hv; cbn; lia|].
  rewrite Hq1, Hk1, Hv1. cbn [bind].
  rewrite Hq, Hwq in Hq1s. rewrite Hk, Hwk in Hk1s. rewrite Hv, Hwv in Hv1s.
  cbn [removelast app] in Hq1s, Hk1s, Hv1s.
  destruct (@split_heads_returns d h b d_pos b_pos self q1 lq Hwf Hq1s)
    as (q2 & Hq2 & Hq2s).
  destruct (@split_heads_regroup self k1 m lk Hwf Hk1s) as (k2 & Hk2 & Hk2s).
  destruct (@split_heads_regroup self v1 m lk Hwf Hv1s) as (v2 & Hv2 & Hv2s).
  rewrite Hq2, Hk2, Hv2. cbn [bind].
  destruct (@scaled_dot_product_attention_returns q2 k2 v2 mask b h lq
              (m * lk) (MultiHeadAttention.depth self) Hq2s Hk2s Hv2s Hmask)
    as (sa & aw & Hsdpa & Hsas & Haws).
  rewrite Hsdpa. cbn [bind].
  destruct (@transpose_0213_returns _ sa _ _ _ _ Hsas) as (sat & Hsat & Hsats).
  rewrite Hsat. cbn [bind]. rewrite Hd.
  destruct (@reshape_concat_returns _ sat b lq d h
              (MultiHeadAttention.depth self))
    as (ca & Hca & Hcas); trivial; try nia.
  rewrite Hca. cbn [bind].
  destruct (@Dense_call_returns (MultiHeadAttention.dense self) ca)
    as (out & Hout & Houts); [unfold rank; rewrite Hcas; cbn; lia|].
  rewrite Hout. cbn [bind]. rewrite Hcas, Hdense in Houts. cbn in Houts.
  exists out, aw. auto.
Qed.



End Unchecked.

(** X26: the multi-head attention layer reshapes its key and value with
    the batch size of the query and checks no batch size.  With a query of
    [b] sequences and a key and value of [b * m] sequences of length [lk],
    the call returns, and each query attends over [m * lk] key positions:
    the attention weights have shape [(b, num_heads, query_length, m * lk)]. *)
Theorem multi_head_attention_batch_regrouped
        (d h : nat) (w : MultiHeadAttention.vars) (self : MultiHeadAttention.t)
        (v k q : tensor R) (mask : option (tensor R))
        (b m lq lk dq dk dv : nat) :
  MultiHeadAttention.init d h w = Ok self ->
  0 < d -> 0 < b ->
  shape q = [b; lq; dq] ->
  shape k = [b * m; lk; dk] -> shape v = [b * m; lk; dv] ->
  mask_ok [b; h; lq; m * lk] mask ->
  exists output attention_weights,
    MultiHeadAttention.call self v k q mask = Ok (output, attention_weights)
    /\ shape output = [b; lq; d]
    /\ shape attention_weights = [b; h; lq; m * lk].
Proof.
  intros Hinit Hd Hb Hq Hk Hv Hmask.
  apply MultiHeadAttention_init_wf in Hinit.
  now apply (@MultiHeadAttention_call_regroup d h b Hd Hb self v k q mask
               m lq lk dq dk dv).
Qed.

Lemma multi_head_attention_batch_regrouped_witness :
  exists output attention_weights,
    MultiHeadAttention.call example_mha
      (constant_tensor [2; 3; 4] 1%R) (constant_tensor [2; 3; 4] 1%R)
      example_out1 None
    = Ok (output, attention_weights)
    /\ shape output = [1; 2; 4]
    /\ shape attention_weights = [1; 2; 2; 2 * 3].
Proof.
  apply (@multi_head_attention_batch_regrouped 4 2 example_mha_vars example_mha
           (constant_tensor [2; 3; 4] 1%R) (constant_tensor [2; 3; 4] 1%R)
           example_out1 None 1 2 2 3 4 4 4).
  - reflexivity.
  - lia.
  - lia.
  - reflexivity.
  - reflexivity.
  - reflexivity.
  - exact I.
Defined.



(** ** Independence of the batch entries *)

Lemma masks_agree_refl (i h lq lk : nat) (m : option (tensor R)) :
  masks_agree_on_entry i h lq lk m m.
Proof. destruct m; cbn; auto. Qed.

Lemma attention_on_heads
      (q k v : tensor R) (mask : option (tensor R)) (b h lq lk dp : nat) :
  shape q = [b; h; lq; dp] ->
  shape k = [b; h; lk; dp] ->
  shape v = [b; h; lk; dp] ->
  mask_ok [b; h; lq; lk] mask ->
  exists out w,
    scaled_dot_product_attention q k v mask = Ok (out, w)
    /\ shape out = [b; h; lq; dp]
    /\ shape w = [b; h; lq; lk]
    /\ (forall i a t j, i < b -> a < h -> t < lq -> j < lk ->
          elem w [i; a; t; j]
          = (exp (head_score q k mask dp i a t j)
             / rsum lk (fun j' => exp (head_score q k mask dp i a t j')))%R)
    /\ (forall i a t c, i < b -> a < h -> t < lq -> c < dp ->
          elem out [i; a; t; c]
          = rsum lk (fun j => (elem w [i; a; t; j] * elem v [i; a; j; c])%R)).
Proof.
  intros Hq Hk Hv Hmask.
  unfold scaled_dot_product_attention, Tensor.matmul, Tensor.last_dim,
    Tensor.softmax, Tensor.last_dim.
  rewrite Hq, Hk. cbn [rev app bind Tensor.bcast_rev]. rewrite Nat.eqb_refl.
  rewrite !bcast_dim_refl. cbn [bind rev app].
  destruct mask as [m|].
  - unfold mask_ok in Hmask.
    unfold Tensor.add, Tensor.broadcast2. cbn [shape Tensor.tmap].
    rewrite Hmask. cbn [bind shape rev app].
    rewrite Hv. cbn [rev app Tensor.bcast_rev bind]. rewrite Nat.eqb_refl.
    rewrite !bcast_dim_refl. cbn [bind rev app].
    eexists. eexists. split; [reflexivity|].
    split; [reflexivity|]. split; [reflexivity|]. split.
    + intros i a t j Hi Ha Ht Hj.
      cbn [elem Tensor.tmap removelast app length Nat.sub firstn nth
           Tensor.bcast_index combine map skipn fst snd].
      rewrite !(axis_index_in_range Hi), !(axis_index_in_range Ha),
        !(axis_index_in_range Ht).
      unfold head_score. f_equal.
      * now rewrite (axis_index_in_range Hj).
      * apply rsum_ext. intros j' Hj'.
        now rewrite (axis_index_in_range Hj').
    + intros i a t c Hi Ha _ _.
      cbn [elem Tensor.tmap removelast app length Nat.sub firstn nth
           Tensor.bcast_index combine map skipn fst snd].
      rewrite !(axis_index_in_range Hi), !(axis_index_in_range Ha).
      reflexivity.
  - cbn [bind shape rev app Tensor.tmap].
    rewrite Hv. cbn [rev app Tensor.bcast_rev bind]. rewrite Nat.eqb_refl.
    rewrite !bcast_dim_refl. cbn [bind rev app].
    eexists. eexists. split; [reflexivity|].
    split; [reflexivity|]. split; [reflexivity|]. split.
    + intros i a t j Hi Ha _ _.
      cbn [elem Tensor.tmap removelast app length Nat.sub firstn nth
           Tensor.bcast_index combine map skipn fst snd].
      rewrite !(axis_index_in_range Hi), !(axis_index_in_range Ha).
      reflexivity.
    + intros i a t c Hi Ha _ _.
      cbn [elem Tensor.tmap removelast app length Nat.sub firstn nth
           Tensor.bcast_index combine map skipn fst snd].
      rewrite !(axis_index_in_range Hi), !(axis_index_in_range Ha).
      reflexivity.
Qed.

(** Two attentions whose queries, keys, values and masks agree on head [a]
    of batch entry [i] agree there in their weights and their outputs. *)
Lemma attention_heads_agree
      (q k v q' k' v' out w out' w' : tensor R) (mask mask' : option (tensor R))
      (b h lq lk dp i a : nat) :
  shape q = [b; h; lq; dp] -> shape k = [b; h; lk; dp] ->
  shape v = [b; h; lk; dp] ->
  shape q' = [b; h; lq; dp] -> shape k' = [b; h; lk; dp] ->
  shape v' = [b; h; lk; dp] ->
  mask_ok [b; h; lq; lk] mask -> mask_ok [b; h; lq; lk] mask' ->
  masks_agree_on_entry i h lq lk mask mask' ->
  i < b -> a < h ->
  (forall t l, t < lq -> l < dp -> elem q [i; a; t; l] = elem q' [i; a; t; l]) ->
  (forall j l, j < lk -> l < dp -> elem k [i; a; j; l] = elem k' [i; a; j; l]) ->
  (forall j c, j < lk -> c < dp -> elem v [i; a; j; c] = elem v' [i; a; j; c]) ->
  scaled_dot_product_attention q k v mask = Ok (out, w) ->
  scaled_dot_product_attention q' k' v' mask' = Ok (out', w') ->
  (forall t j, t < lq -> j < lk ->
     elem w [i; a; t; j] = elem w' [i; a; t; j])
  /\ (forall t c, t < lq -> c < dp ->
        elem out [i; a; t; c] = elem out' [i; a; t; c]).
Proof.
  intros Hq Hk Hv Hq' Hk' Hv' Hmask Hmask' Em Hi Ha Eq Ek Ev Hrun Hrun'.
  destruct (@attention_on_heads q k v mask b h lq lk dp Hq Hk Hv Hmask)
    as (o & w0 & Hr & _ & _ & Hw & Hout).
  rewrite Hrun in Hr. injection Hr as <- <-.
  destruct (@attention_on_heads q' k' v' mask' b h lq lk dp Hq' Hk' Hv' Hmask')
    as (o' & w0' & Hr' & _ & _ & Hw' & Hout').
  rewrite Hrun' in Hr'. injection Hr' as <- <-.
  assert (Hscore : forall t j, t < lq -> j < lk ->
            head_score q k mask dp i a t j = head_score q' k' mask' dp i a t j).
  { intros t j Ht Hj. unfold head_score.
    replace (rsum dp (fun l => (elem q [i; a; t; l] * elem k [i; a; j; l])%R))
      with (rsum dp (fun l => (elem q' [i; a; t; l] * elem k' [i; a; j; l])%R)).
    2:{ apply rsum_ext. intros l Hl.
        now rewrite (Eq t l Ht Hl), (Ek j l Hj Hl). }
    destruct mask as [m|], mask' as [m'|]; cbn in Em; try contradiction.
    - now rewrite (Em a t j Ha Ht Hj).
    - reflexivity. }
  assert (Hweights : forall t j, t < lq -> j < lk ->
            elem w [i; a; t; j] = elem w' [i; a; t; j]).
  { intros t j Ht Hj. rewrite (Hw i a t j), (Hw' i a t j) by assumption.
    rewrite (Hscore t j Ht Hj). f_equal.
    apply rsum_ext. intros j' Hj'. now rewrite (Hscore t j' Ht Hj'). }
  split; [exact Hweights|].
  intros t c Ht Hc. rewrite (Hout i a t c), (Hout' i a t c) by assumption.
  apply rsum_ext. intros j Hj.
  now rewrite (Hweights t j Ht Hj), (Ev j c Hj Hc).
Qed.

(** X28: the attention treats every head of every batch entry on its own.
    When two queries, keys and values of the same rank-4 shapes agree on
    head [a] of batch entry [i], the two calls, under the same admissible
    mask, return the same attention weights and the same output on that
    head of that entry, whatever the tensors hold elsewhere. *)
Theorem attention_head_independent
        (q k v q' k' v' : tensor R) (mask : option (tensor R))
        (b h lq lk dp i a : nat) :
  shape q = [b; h; lq; dp] -> shape k = [b; h; lk; dp] ->
  shape v = [b; h; lk; dp] ->
  shape q' = [b; h; lq; dp] -> shape k' = [b; h; lk; dp] ->
  shape v' = [b; h; lk; dp] ->
  mask_ok [b; h; lq; lk] mask ->
  i < b -> a < h ->
  (forall t l, t < lq -> l < dp -> elem q [i; a; t; l] = elem q' [i; a; t; l]) ->
  (forall j l, j < lk -> l < dp -> elem k [i; a; j; l] = elem k' [i; a; j; l]) ->
  (forall j c, j < lk -> c < dp -> elem v [i; a; j; c] = elem v' [i; a; j; c]) ->
  exists out w out' w',
    scaled_dot_product_attention q k v mask = Ok (out, w)
    /\ scaled_dot_product_attention q' k' v' mask = Ok (out', w')
    /\ (forall t j, t < lq -> j < lk ->
          elem w [i; a; t; j] = elem w' [i; a; t; j])
    /\ (forall t c, t < lq -> c < dp ->
          elem out [i; a; t; c] = elem out' [i; a; t; c]).
Proof.
  intros Hq Hk Hv Hq' Hk' Hv' Hmask Hi Ha Eq Ek Ev.
  destruct (@attention_on_heads q k v mask b h lq lk dp Hq Hk Hv Hmask)
    as (out & w & Hrun & _).
  destruct (@attention_on_heads q' k' v' mask b h lq lk dp Hq' Hk' Hv' Hmask)
    as (out' & w' & Hrun' & _).
  exists out, w, out', w'.
  split; [exact Hrun|]. split; [exact Hrun'|].
  eapply (@attention_heads_agree q k v q' k' v' out w out' w' mask mask);
    try eassumption.
  apply masks_agree_refl.
Qed.

Lemma attention_head_independent_witness :
  exists out w out' w',
    scaled_dot_product_attention
      (constant_tensor [2; 2; 3; 4] 1%R) (constant_tensor [2; 2; 5; 4] 1%R)
      (constant_tensor [2; 2; 5; 4] 1%R) None
    = Ok (out, w)
    /\ scaled_dot_product_attention
         (mkTensor [2; 2; 3; 4]
                   (fun idx => if nth 0 idx 0 =? 0 then 1%R else 7%R))
         (mkTensor [2; 2; 5; 4]
                   (fun idx => if nth 0 idx 0 =? 0 then 1%R else 8%R))
         (mkTensor [2; 2; 5; 4]
                   (fun idx => if nth 0 idx 0 =? 0 then 1%R else 9%R))
         None
       = Ok (out', w')
    /\ (forall t j, t < 3 -> j < 5 ->
          elem w [0; 1; t; j] = elem w' [0; 1; t; j])
    /\ (forall t c, t < 3 -> c < 4 ->
          elem out [0; 1; t; c] = elem out' [0; 1; t; c]).
Proof.
  apply (@attention_head_independent
           (constant_tensor [2; 2; 3; 4] 1%R) (constant_tensor [2; 2; 5; 4] 1%R)
           (constant_tensor [2; 2; 5; 4] 1%R)
           (mkTensor [2; 2; 3; 4]
                     (fun idx => if nth 0 idx 0 =? 0 then 1%R else 7%R))
           (mkTensor [2; 2; 5; 4]
                     (fun idx => if nth 0 idx 0 =? 0 then 1%R else 8%R))
           (mkTensor [2; 2; 5; 4]
                     (fun idx => if nth 0 idx 0 =? 0 then 1%R else 9%R))
           None 2 2 3 5 4 0 1).
  - reflexivity.
  - reflexivity.
  - reflexivity.
  - reflexivity.
  - reflexivity.
  - reflexivity.
  - exact I.
  - lia.
  - lia.
  - intros t l _ _. reflexivity.
  - intros j l _ _. reflexivity.
  - intros j c _ _. reflexivity.
Defined.

(** A dense layer without activation on a rank-3 tensor, entry by entry. *)
Lemma Dense_linear_entries (l : Keras.Dense.t) (x : tensor R) (b n d' : nat) :
  Keras.Dense.activation_fn l = Keras.Linear ->
  shape x = [b; n; d'] ->
  exists y,
    Keras.Dense.call l x = Ok y
    /\ shape y = [b; n; Keras.Dense.units l]
    /\ forall i t c,
         elem y [i; t; c]
         = (rsum d' (fun k => elem x [i; t; k]
                              * Keras.Dense.kernel (Keras.Dense.variables l) k c)
            + Keras.Dense.bias (Keras.Dense.variables l) c)%R.
Proof.
  intros Hact Hs. unfold Keras.Dense.call, rank, Tensor.last_dim.
  rewrite Hs, Hact. cbn [length Nat.leb rev app bind removelast].
  eexists. split; [reflexivity|]. split; [reflexivity|].
  intros i t c. reflexivity.
Qed.

Lemma MultiHeadAttention_init_linear (d h : nat) (w : MultiHeadAttention.vars)
      (l : MultiHeadAttention.t) :
  MultiHeadAttention.init d h w = Ok l -> linear_projections l.
Proof.
  unfold MultiHeadAttention.init, py_mod, py_floordiv. intros H.
  destruct (h =? 0) eqn:Hh; [discriminate|]. cbn [bind] in H.
  destruct (d mod h =? 0) eqn:Hm; [|discriminate]. cbn [assert bind] in H.
  injection H as <-. unfold linear_projections. cbn. auto.
Qed.

Section Independence.

Variables d h b : nat.
Hypothesis d_pos : 0 < d.
Hypothesis b_pos : 0 < b.

(** Two calls of a multi-head attention layer whose queries, keys, values
    and masks agree on batch entry [i] agree there in their attention
    weights and their outputs. *)
Lemma MultiHeadAttention_call_agree
      (self : MultiHeadAttention.t) (v k q v' k' q' : tensor R)
      (mask mask' : option (tensor R)) (lq lk dq dk dv i : nat) :
  wf_mha d h self -> linear_projections self ->
  shape q = [b; lq; dq] -> shape k = [b; lk; dk] -> shape v = [b; lk; dv] ->
  shape q' = [b; lq; dq] -> shape k' = [b; lk; dk] -> shape v' = [b; lk; dv] ->
  mask_ok [b; h; lq; lk] mask -> mask_ok [b; h; lq; lk] mask' ->
  masks_agree_on_entry i h lq lk mask mask' ->
  i < b ->
  agree_on_entry i lq dq q q' ->
  agree_on_entry i lk dk k k' ->
  agree_on_entry i lk dv v v' ->
  exists out w out' w',
    MultiHeadAttention.call self v k q mask = Ok (out, w)
    /\ MultiHeadAttention.call self v' k' q' mask' = Ok (out', w')
    /\ shape out = [b; lq; d] /\ shape out' = [b; lq; d]
    /\ (forall a t j, a < h -> t < lq -> j < lk ->
          elem w [i; a; t; j] = elem w' [i; a; t; j])
    /\ agree_on_entry i lq d out out'.
Proof.
  intros Hwf (Lq & Lk & Lv & Ld) Hq Hk Hv Hq' Hk' Hv' Hmask Hmask' Em Hi
         Eq Ek Ev.
  pose proof Hwf as (Hh & Hd & Hdp & Hwq & Hwk & Hwv & Hdense).
  set (dp := MultiHeadAttention.depth self) in *.
  assert (Hhd : h * dp = d) by lia.
  assert (Hdp0 : 0 < dp) by nia.
  assert (Hh0 : 0 < h) by nia.
  unfold MultiHeadAttention.call.
  unfold Tensor.dim. rewrite Hq, Hq'. cbn [list_get nth_error bind].
  (* projections *)
  destruct (@Dense_linear_entries (MultiHeadAttention.wq self) q b lq dq Lq Hq)
    as (q1 & Hq1 & Hq1s & Hq1e).
  destruct (@Dense_linear_entries (MultiHeadAttention.wq self) q' b lq dq Lq Hq')
    as (q1' & Hq1' & Hq1s' & Hq1e').
  destruct (@Dense_linear_entries (MultiHeadAttention.wk self) k b lk dk Lk Hk)
    as (k1 & Hk1 & Hk1s & Hk1e).
  destruct (@Dense_linear_entries (MultiHeadAttention.wk self) k' b lk dk Lk Hk')
    as (k1' & Hk1' & Hk1s' & Hk1e').
  destruct (@Dense_linear_entries (MultiHeadAttention.wv self) v b lk dv Lv Hv)
    as (v1 & Hv1 & Hv1s & Hv1e).
  destruct (@Dense_linear_entries (MultiHeadAttention.wv self) v' b lk dv Lv Hv')
    as (v1' & Hv1' & Hv1s' & Hv1e').
  rewrite Hq1, Hk1, Hv1, Hq1', Hk1', Hv1'. cbn [bind].
  rewrite Hwq in Hq1s, Hq1s'. rewrite Hwk in Hk1s, Hk1s'.
  rewrite Hwv in Hv1s, Hv1s'.
  assert (Eq1 : forall t c, t < lq -> elem q1 [i; t; c] = elem q1' [i; t; c]).
  { intros t c Ht. rewrite Hq1e, Hq1e'. f_equal.
    apply rsum_ext. intros j Hj. now rewrite (Eq t j Ht Hj). }
  assert (Ek1 : forall t c, t < lk -> elem k1 [i; t; c] = elem k1' [i; t; c]).
  { intros t c Ht. rewrite Hk1e, Hk1e'. f_equal.
    apply rsum_ext. intros j Hj. now rewrite (Ek t j Ht Hj). }
  assert (Ev1 : forall t c, t < lk -> elem v1 [i; t; c] = elem v1' [i; t; c]).
  { intros t c Ht. rewrite Hv1e, Hv1e'. f_equal.
    apply rsum_ext. intros j Hj. now rewrite (Ev t j Ht Hj). }
  (* heads *)
  destruct (@split_heads_elem d h b d_pos b_pos self q1 lq Hwf Hq1s)
    as (q2 & Hq2 & Hq2s & Hq2e).
  destruct (@split_heads_elem d h b d_pos b_pos self q1' lq Hwf Hq1s')
    as (q2' & Hq2' & Hq2s' & Hq2e').
  destruct (@split_heads_elem d h b d_pos b_pos self k1 lk Hwf Hk1s)
    as (k2 & Hk2 & Hk2s & Hk2e).
  destruct (@split_heads_elem d h b d_pos b_pos self k1' lk Hwf Hk1s')
    as (k2' & Hk2' & Hk2s' & Hk2e').
  destruct (@split_heads_elem d h b d_pos b_pos self v1 lk Hwf Hv1s)
    as (v2 & Hv2 & Hv2s & Hv2e).
  destruct (@split_heads_elem d h b d_pos b_pos self v1' lk Hwf Hv1s')
    as (v2' & Hv2' & Hv2s' & Hv2e').
  rewrite Hq2, Hk2, Hv2, Hq2', Hk2', Hv2'. cbn [bind].
  fold dp in Hq2s, Hq2s', Hk2s, Hk2s', Hv2s, Hv2s',
    Hq2e, Hq2e', Hk2e, Hk2e', Hv2e, Hv2e'.
  (* attention *)
  destruct (@attention_on_heads q2 k2 v2 mask b h lq lk dp Hq2s Hk2s Hv2s Hmask)
    as (sa & aw & Hsdpa & Hsas & Haws & _).
  destruct (@attention_on_heads q2' k2' v2' mask' b h lq lk dp
              Hq2s' Hk2s' Hv2s' Hmask')
    as (sa' & aw' & Hsdpa' & Hsas' & Haws' & _).
  rewrite Hsdpa, Hsdpa'. cbn [bind].
  assert (Hagree : forall a, a < h ->
            (forall t j, t < lq -> j < lk ->
               elem aw [i; a; t; j] = elem aw' [i; a; t; j])
            /\ (forall t c, t < lq -> c < dp ->
                  elem sa [i; a; t; c] = elem sa' [i; a; t; c])).
  { intros a Ha.
    eapply (@attention_heads_agree q2 k2 v2 q2' k2' v2' sa aw sa' aw'
              mask mask' b h lq lk dp i a); try eassumption.
    - intros t l Ht Hl. rewrite Hq2e, Hq2e' by assumption. now apply Eq1.
    - intros j l Hj Hl. rewrite Hk2e, Hk2e' by assumption. now apply Ek1.
    - intros j c Hj Hc. rewrite Hv2e, Hv2e' by assumption. now apply Ev1. }
  (* concatenation *)
  destruct (@transpose_0213_returns _ sa _ _ _ _ Hsas) as (sat & Hsat & Hsats).
  destruct (@transpose_0213_returns _ sa' _ _ _ _ Hsas')
    as (sat' & Hsat' & Hsats').
  rewrite Hsat, Hsat'. cbn [bind]. rewrite Hd.
  destruct (@merge_heads_elem d h b d_pos b_pos sat lq dp Hsats Hhd)
    as (ca & Hca & Hcas & Hcae).
  destruct (@merge_heads_elem d h b d_pos b_pos sat' lq dp Hsats' Hhd)
    as (ca' & Hca' & Hcas' & Hcae').
  rewrite Hca, Hca'. cbn [bind].
  destruct (@Dense_linear_entries (MultiHeadAttention.dense self) ca b lq d
              Ld Hcas) as (out & Hout & Houts & Houte).
  destruct (@Dense_linear_entries (MultiHeadAttention.dense self) ca' b lq d
              Ld Hcas') as (out' & Hout' & Houts' & Houte').
  rewrite Hout, Hout'. cbn [bind]. rewrite Hdense in Houts, Houts'.
  exists out, aw, out', aw'.
  split; [reflexivity|]. split; [reflexivity|].
  split; [exact Houts|]. split; [exact Houts'|]. split.
  - intros a t j Ha Ht Hj. now apply (proj1 (Hagree a Ha)).
  - intros t c Ht Hc. rewrite Houte, Houte'. f_equal.
    apply rsum_ext. intros j Hj. f_equal.
    rewrite (Hcae i t j Hi Ht Hj), (Hcae' i t j Hi Ht Hj).
    rewrite (@transpose_0213_elem _ sa sat _ _ _ _ i t (j / dp) (j mod dp)
               Hsas Hsat).
    rewrite (@transpose_0213_elem _ sa' sat' _ _ _ _ i t (j / dp) (j mod dp)
               Hsas' Hsat').
    apply (proj2 (Hagree (j / dp)
                    ltac:(apply Nat.Div0.div_lt_upper_bound; lia))); trivial.
    apply Nat.mod_upper_bound. lia.
Qed.

End Independence.

(** X29: a constructed multi-head attention layer treats the batch
    entries independently.  When two queries, keys and values of the same
    shapes agree on batch entry [i], the two calls, under the same
    admissible mask, return attention weights (for every head) and outputs
    that agree on entry [i], whatever the other entries hold. *)
Theorem multi_head_attention_batch_independent
        (d h : nat) (w : MultiHeadAttention.vars) (self : MultiHeadAttention.t)
        (v k q v' k' q' : tensor R) (mask : option (tensor R))
        (b lq lk dq dk dv i : nat) :
  MultiHeadAttention.init d h w = Ok self ->
  0 < d ->
  shape q = [b; lq; dq] -> shape k = [b; lk; dk] -> shape v = [b; lk; dv] ->
  shape q' = [b; lq; dq] -> shape k' = [b; lk; dk] -> shape v' = [b; lk; dv] ->
  mask_ok [b; h; lq; lk] mask ->
  i < b ->
  (forall t c, t < lq -> c < dq -> elem q [i; t; c] = elem q' [i; t; c]) ->
  (forall t c, t < lk -> c < dk -> elem k [i; t; c] = elem k' [i; t; c]) ->
  (forall t c, t < lk -> c < dv -> elem v [i; t; c] = elem v' [i; t; c]) ->
  exists output attention_weights output' attention_weights',
    MultiHeadAttention.call self v k q mask = Ok (output, attention_weights)
    /\ MultiHeadAttention.call self v' k' q' mask
       = Ok (output', attention_weights')
    /\ (forall a t j, a < h -> t < lq -> j < lk ->
          elem attention_weights [i; a; t; j]
          = elem attention_weights' [i; a; t; j])
    /\ (forall t c, t < lq -> c < d ->
          elem output [i; t; c] = elem output' [i; t; c]).
Proof.
  intros Hinit Hd Hq Hk Hv Hq' Hk' Hv' Hmask Hi Eq Ek Ev.
  assert (Hb : 0 < b) by lia.
  pose proof (MultiHeadAttention_init_linear _ _ _ Hinit) as Hlin.
  apply MultiHeadAttention_init_wf in Hinit.
  destruct (@MultiHeadAttention_call_agree d h b Hd Hb self v k q v' k' q'
              mask mask lq lk dq dk dv i Hinit Hlin Hq Hk Hv Hq' Hk' Hv'
              Hmask Hmask (masks_agree_refl i h lq lk mask) Hi Eq Ek Ev)
    as (out & aw & out' & aw' & Hcall & Hcall' & _ & _ & Ew & Eo).
  exists out, aw, out', aw'. auto.
Qed.

Lemma multi_head_attention_batch_independent_witness :
  exists output attention_weights output' attention_weights',
    MultiHeadAttention.call example_mha
      (constant_tensor [2; 3; 4] 1%R) (constant_tensor [2; 3; 4] 1%R)
      (constant_tensor [2; 2; 4] 1%R) None
    = Ok (output, attention_weights)
    /\ MultiHeadAttention.call example_mha
         (mkTensor [2; 3; 4] (fun idx => if nth 0 idx 0 =? 0 then 1%R else 9%R))
         (mkTensor [2; 3; 4] (fun idx => if nth 0 idx 0 =? 0 then 1%R else 8%R))
         (mkTensor [2; 2; 4] (fun idx => if nth 0 idx 0 =? 0 then 1%R else 7%R))
         None
       = Ok (output', attention_weights')
    /\ (forall a t j, a < 2 -> t < 2 -> j < 3 ->
          elem attention_weights [0; a; t; j]
          = elem attention_weights' [0; a; t; j])
    /\ (forall t c, t < 2 -> c < 4 ->
          elem output [0; t; c] = elem output' [0; t; c]).
Proof.
  apply (@multi_head_attention_batch_independent
           4 2 example_mha_vars example_mha
           (constant_tensor [2; 3; 4] 1%R) (constant_tensor [2; 3; 4] 1%R)
           (constant_tensor [2; 2; 4] 1%R)
           (mkTensor [2; 3; 4] (fun idx => if nth 0 idx 0 =? 0 then 1%R else 9%R))
           (mkTensor [2; 3; 4] (fun idx => if nth 0 idx 0 =? 0 then 1%R else 8%R))
           (mkTensor [2; 2; 4] (fun idx => if nth 0 idx 0 =? 0 then 1%R else 7%R))
           None 2 2 3 4 4 4 0).
  - reflexivity.
  - lia.
  - reflexivity.
  - reflexivity.
  - reflexivity.
  - reflexivity.
  - reflexivity.
  - reflexivity.
  - exact I.
  - lia.
  - intros t c _ _. reflexivity.
  - intros t c _ _. reflexivity.
  - intros t c _ _. reflexivity.
Defined.

(** *** Agreement through the operations of a layer *)

Lemma Dropout_call_agree (l : Keras.Dropout.t) (x x' : tensor R)
      (training : bool) (i n d : nat) :
  agree_on_entry i n d x x' ->
  agree_on_entry i n d (Keras.Dropout.call l x training)
                 (Keras.Dropout.call l x' training).
Proof.
  intros E t c Ht Hc. unfold Keras.Dropout.call.
  destruct training; cbn [elem]; now rewrite (E t c Ht Hc).
Qed.

Lemma add_entries (x y : tensor R) (b l d : nat) :
  shape x = [b; l; d] -> shape y = [b; l; d] ->
  exists s,
    Tensor.add x y = Ok s
    /\ shape s = [b; l; d]
    /\ forall i t c, i < b -> t < l -> c < d ->
         elem s [i; t; c] = (elem x [i; t; c] + elem y [i; t; c])%R.
Proof.
  intros Hx Hy. unfold Tensor.add, Tensor.broadcast2.
  rewrite Hx, Hy, broadcast_shapes_refl. cbn [bind].
  eexists. split; [reflexivity|]. split; [reflexivity|].
  intros i t c Hi Ht Hc.
  cbn [elem Tensor.bcast_index combine map skipn fst snd length Nat.sub].
  now rewrite (axis_index_in_range Hi), (axis_index_in_range Ht),
    (axis_index_in_range Hc).
Qed.

Lemma add_agree (x y x' y' : tensor R) (b l d i : nat) :
  shape x = [b; l; d] -> shape y = [b; l; d] ->
  shape x' = [b; l; d] -> shape y' = [b; l; d] ->
  i < b ->
  agree_on_entry i l d x x' -> agree_on_entry i l d y y' ->
  exists s s',
    Tensor.add x y = Ok s /\ Tensor.add x' y' = Ok s'
    /\ shape s = [b; l; d] /\ shape s' = [b; l; d]
    /\ agree_on_entry i l d s s'.
Proof.
  intros Hx Hy Hx' Hy' Hi Ex Ey.
  destruct (add_entries x y Hx Hy) as (s & Hs & Hss & Hse).
  destruct (add_entries x' y' Hx' Hy') as (s' & Hs' & Hss' & Hse').
  exists s, s'. repeat (split; [assumption|]).
  intros t c Ht Hc.
  now rewrite (Hse i t c Hi Ht Hc), (Hse' i t c Hi Ht Hc),
    (Ex t c Ht Hc), (Ey t c Ht Hc).
Qed.

Lemma LayerNormalization_call_agree
      (ln : Keras.LayerNormalization.t) (x x' : tensor R) (b l d i : nat) :
  shape x = [b; l; d] -> shape x' = [b; l; d] ->
  agree_on_entry i l d x x' ->
  exists y y',
    Keras.LayerNormalization.call ln x = Ok y
    /\ Keras.LayerNormalization.call ln x' = Ok y'
    /\ shape y = [b; l; d] /\ shape y' = [b; l; d]
    /\ agree_on_entry i l d y y'.
Proof.
  intros Hx Hx' E.
  unfold Keras.LayerNormalization.call, Tensor.last_dim.
  rewrite Hx, Hx'. cbn [rev app bind].
  eexists. eexists. split; [reflexivity|]. split; [reflexivity|].
  split; [reflexivity|]. split; [reflexivity|].
  intros t c Ht Hc. cbn [elem removelast app last].
  assert (Hmean : rsum d (fun j => elem x [i; t; j])
                  = rsum d (fun j => elem x' [i; t; j])).
  { apply rsum_ext. intros j Hj. apply (E t j Ht Hj). }
  rewrite Hmean, (E t c Ht Hc).
  replace (rsum d (fun j =>
             ((elem x [i; t; j] - rsum d (fun j0 => elem x' [i; t; j0]) / INR d)
              * (elem x [i; t; j] - rsum d (fun j0 => elem x' [i; t; j0]) / INR d))%R))
    with (rsum d (fun j =>
             ((elem x' [i; t; j] - rsum d (fun j0 => elem x' [i; t; j0]) / INR d)
              * (elem x' [i; t; j] - rsum d (fun j0 => elem x' [i; t; j0]) / INR d))%R)).
  - reflexivity.
  - apply rsum_ext. intros j Hj. now rewrite (E t j Ht Hj).
Qed.

Lemma FullyConnected_call_agree
      (embedding_dim fully_connected_dim : nat) (w : FullyConnectedVars)
      (x x' : tensor R) (b n d' i : nat) :
  shape x = [b; n; d'] -> shape x' = [b; n; d'] ->
  agree_on_entry i n d' x x' ->
  exists y y',
    Keras.Sequential.call (FullyConnected embedding_dim fully_connected_dim w) x
    = Ok y
    /\ Keras.Sequential.call
         (FullyConnected embedding_dim fully_connected_dim w) x'
       = Ok y'
    /\ shape y = [b; n; embedding_dim]
    /\ shape y' = [b; n; embedding_dim]
    /\ agree_on_entry i n embedding_dim y y'.
Proof.
  intros Hx Hx' E.
  destruct (@FullyConnected_call_entries embedding_dim fully_connected_dim w
              x b n d' Hx) as (y & Hy & Hys & Hye).
  destruct (@FullyConnected_call_entries embedding_dim fully_connected_dim w
              x' b n d' Hx') as (y' & Hy' & Hys' & Hye').
  exists y, y'. repeat (split; [assumption|]).
  intros t c Ht _. rewrite Hye, Hye'. f_equal.
  apply rsum_ext. intros j _. do 3 f_equal.
  apply rsum_ext. intros k Hk. now rewrite (E t k Ht Hk).
Qed.

Section LayersAgree.

Variables d h b : nat.
Hypothesis d_pos : 0 < d.
Hypothesis b_pos : 0 < b.

Lemma EncoderLayer_call_agree
      (self : EncoderLayer.t) (x x' : tensor R) (training : bool)
      (mask mask' : option (tensor R)) (l i : nat) :
  wf_encoder_layer d h self ->
  linear_projections (EncoderLayer.mha self) ->
  shape x = [b; l; d] -> shape x' = [b; l; d] ->
  mask_ok [b; h; l; l] mask -> mask_ok [b; h; l; l] mask' ->
  masks_agree_on_entry i h l l mask mask' ->
  i < b ->
  agree_on_entry i l d x x' ->
  exists y y',
    EncoderLayer.call self x training mask = Ok y
    /\ EncoderLayer.call self x' training mask' = Ok y'
    /\ shape y = [b; l; d] /\ shape y' = [b; l; d]
    /\ agree_on_entry i l d y y'.
Proof.
  intros (Hmha & fc & w & Hffn) Hlin Hx Hx' Hmask Hmask' Em Hi E.
  unfold EncoderLayer.call.
  destruct (@MultiHeadAttention_call_agree d h b d_pos b_pos
              (EncoderLayer.mha self) x x x x' x' x' mask mask' l l d d d i
              Hmha Hlin Hx Hx Hx Hx' Hx' Hx' Hmask Hmask' Em Hi E E E)
    as (a & aw & a' & aw' & Ha & Ha' & Has & Has' & _ & Ea).
  rewrite Ha, Ha'. cbn [bind].
  destruct (@add_agree x
              (Keras.Dropout.call (EncoderLayer.dropout1 self) a training)
              x'
              (Keras.Dropout.call (EncoderLayer.dropout1 self) a' training)
              b l d i)
    as (s1 & s1' & Hs1 & Hs1' & Hs1s & Hs1s' & Es1); trivial;
    try (rewrite Dropout_call_shape; assumption).
  { now apply Dropout_call_agree. }
  rewrite Hs1, Hs1'. cbn [bind].
  destruct (@LayerNormalization_call_agree (EncoderLayer.layernorm1 self)
              s1 s1' b l d i Hs1s Hs1s' Es1)
    as (o1 & o1' & Ho1 & Ho1' & Ho1s & Ho1s' & Eo1).
  rewrite Ho1, Ho1'. cbn [bind]. rewrite Hffn.
  destruct (@FullyConnected_call_agree d fc w o1 o1' b l d i Ho1s Ho1s' Eo1)
    as (f & f' & Hf & Hf' & Hfs & Hfs' & Ef).
  rewrite Hf, Hf'. cbn [bind].
  destruct (@add_agree
              (Keras.Dropout.call (EncoderLayer.dropout2 self) f training)
              o1
              (Keras.Dropout.call (EncoderLayer.dropout2 self) f' training)
              o1' b l d i)
    as (s2 & s2' & Hs2 & Hs2' & Hs2s & Hs2s' & Es2); trivial;
    try (rewrite Dropout_call_shape; assumption).
  { now apply Dropout_call_agree. }
  rewrite Hs2, Hs2'. cbn [bind].
  destruct (@LayerNormalization_call_agree (EncoderLayer.layernorm2 self)
              s2 s2' b l d i Hs2s Hs2s' Es2)
    as (o2 & o2' & Ho2 & Ho2' & Ho2s & Ho2s' & Eo2).
  rewrite Ho2, Ho2'. cbn [bind].
  exists o2, o2'. auto.
Qed.

End LayersAgree.

(** *** Agreement through the encoder *)

(** The stage before the layers: embedding, scaling and positional
    encoding. *)
Lemma embedding_stage_agree (emb : Keras.Embedding.t) (pe : tensor R)
      (x x' : tensor Z) (scale : R) (b l d max_pos i : nat) :
  Keras.Embedding.output_dim emb = d ->
  shape pe = [1; max_pos; d] ->
  shape x = [b; l] -> shape x' = [b; l] -> l <= max_pos ->
  i < b ->
  ids_agree_on_entry i l x x' ->
  exists p y y',
    Tensor.slice_axis1 l pe = Ok p
    /\ Tensor.add (Tensor.tmap (fun v => (v * scale)%R)
                               (Keras.Embedding.call emb x)) p = Ok y
    /\ Tensor.add (Tensor.tmap (fun v => (v * scale)%R)
                               (Keras.Embedding.call emb x')) p = Ok y'
    /\ shape y = [b; l; d] /\ shape y' = [b; l; d]
    /\ agree_on_entry i l d y y'.
Proof.
  intros Hod Hpe Hx Hx' Hl Hi E.
  unfold Tensor.slice_axis1. rewrite Hpe.
  exists (mkTensor [1; Nat.min l max_pos; d] (elem pe)).
  unfold Tensor.add, Tensor.broadcast2, Tensor.broadcast_shapes.
  cbn [shape Tensor.tmap Keras.Embedding.call].
  rewrite Hx, Hx', Hod, Nat.min_l by exact Hl.
  cbn [rev app Tensor.bcast_rev].
  rewrite !bcast_dim_refl, bcast_dim_1_r. cbn [bind rev app].
  eexists. eexists. split; [reflexivity|].
  split; [reflexivity|]. split; [reflexivity|].
  split; [reflexivity|]. split; [reflexivity|].
  intros t c Ht Hc.
  cbn [elem Tensor.tmap Keras.Embedding.call Tensor.bcast_index combine map
       skipn fst snd length Nat.sub removelast last].
  rewrite (axis_index_in_range Hi), (axis_index_in_range Ht),
    (axis_index_in_range Hc).
  now rewrite (E t Ht).
Qed.

Lemma Encoder_init_linear
      (n d h fc vocab max_pos : nat) (rate eps : R) (w : Encoder.vars)
      (enc : Encoder.t) :
  Encoder.init n d h fc vocab max_pos rate eps w = Ok enc ->
  Forall (fun l => linear_projections (EncoderLayer.mha l))
         (Encoder.enc_layers enc).
Proof.
  unfold Encoder.init. intros H.
  apply bind_ok in H. destruct H as (pe & _ & H).
  apply bind_ok in H. destruct H as (layers & Hlayers & H).
  injection H as <-. cbn [Encoder.enc_layers].
  eapply mapM_Forall; [|exact Hlayers].
  intros k l Hl. cbn beta in Hl. unfold EncoderLayer.init in Hl.
  apply bind_ok in Hl. destruct Hl as (m & Hm & Hl).
  injection Hl as <-. cbn [EncoderLayer.mha].
  eapply MultiHeadAttention_init_linear; exact Hm.
Qed.

Section StacksAgree.

Variables d h b : nat.
Hypothesis d_pos : 0 < d.
Hypothesis b_pos : 0 < b.

Lemma encoder_loop_agree (self : Encoder.t) (training : bool)
      (mask mask' : option (tensor R)) (l i : nat) :
  Forall (wf_encoder_layer d h) (Encoder.enc_layers self) ->
  Forall (fun l => linear_projections (EncoderLayer.mha l))
         (Encoder.enc_layers self) ->
  mask_ok [b; h; l; l] mask -> mask_ok [b; h; l; l] mask' ->
  masks_agree_on_entry i h l l mask mask' ->
  i < b ->
  forall (n start : nat) (x x' : tensor R),
    start + n <= length (Encoder.enc_layers self) ->
    shape x = [b; l; d] -> shape x' = [b; l; d] ->
    agree_on_entry i l d x x' ->
    exists y y',
      for_range_from start n
        (fun i x =>
           layer <- list_get (Encoder.enc_layers self) i ;;
           EncoderLayer.call layer x training mask) x = Ok y
      /\ for_range_from start n
           (fun i x =>
              layer <- list_get (Encoder.enc_layers self) i ;;
              EncoderLayer.call layer x training mask') x' = Ok y'
      /\ shape y = [b; l; d] /\ shape y' = [b; l; d]
      /\ agree_on_entry i l d y y'.
Proof.
  intros Hwf Hlin Hmask Hmask' Em Hi.
  induction n as [|n IH]; intros start x x' Hlen Hx Hx' E;
    cbn [for_range_from].
  - exists x, x'. auto.
  - destruct (@list_get_returns _ (Encoder.enc_layers self) start)
      as (layer & Hlayer & Hin); [lia|].
    rewrite Hlayer. cbn [bind].
    rewrite Forall_forall in Hwf, Hlin.
    destruct (@EncoderLayer_call_agree d h b d_pos b_pos layer x x' training
                mask mask' l i (Hwf _ Hin) (Hlin _ Hin) Hx Hx'
                Hmask Hmask' Em Hi E)
      as (x1 & x1' & Hx1 & Hx1' & Hx1s & Hx1s' & E1).
    rewrite Hx1, Hx1'. cbn [bind].
    apply IH; trivial. lia.
Qed.

Lemma Encoder_call_agree
      (self : Encoder.t) (x x' : tensor Z) (training : bool)
      (mask mask' : option (tensor R)) (max_pos l i : nat) :
  wf_encoder d h max_pos self ->
  Forall (fun l => linear_projections (EncoderLayer.mha l))
         (Encoder.enc_layers self) ->
  shape x = [b; l] -> shape x' = [b; l] -> l <= max_pos ->
  mask_ok [b; h; l; l] mask -> mask_ok [b; h; l; l] mask' ->
  masks_agree_on_entry i h l l mask mask' ->
  i < b ->
  ids_agree_on_entry i l x x' ->
  exists y y',
    Encoder.call self x training mask = Ok y
    /\ Encoder.call self x' training mask' = Ok y'
    /\ shape y = [b; l; d] /\ shape y' = [b; l; d]
    /\ agree_on_entry i l d y y'.
Proof.
  intros (Hed & Hod & Hpe & Hwf & Hlen) Hlin Hx Hx' Hl Hmask Hmask' Em Hi E.
  unfold Encoder.call, Tensor.dim. rewrite Hx, Hx'.
  cbn [list_get nth_error bind].
  destruct (@embedding_stage_agree (Encoder.embedding self)
              (Encoder.pos_encoding self) x x'
              (sqrt (INR (Encoder.embedding_dim self))) b l d max_pos i
              Hod Hpe Hx Hx' Hl Hi E)
    as (p & y & y' & Hp & Hy & Hy' & Hys & Hys' & Ey).
  rewrite Hp. cbn [bind]. rewrite Hy, Hy'. cbn [bind].
  unfold for_range. apply encoder_loop_agree; trivial.
  - lia.
  - now rewrite Dropout_call_shape.
  - now rewrite Dropout_call_shape.
  - now apply Dropout_call_agree.
Qed.

End StacksAgree.

(** *** Agreement through the decoder and the Transformer *)

Lemma Decoder_init_linear
      (n d h fc vocab max_pos : nat) (rate eps : R) (w : Decoder.vars)
      (dec : Decoder.t) :
  Decoder.init n d h fc vocab max_pos rate eps w = Ok dec ->
  Forall (fun l => linear_projections (DecoderLayer.mha1 l)
                   /\ linear_projections (DecoderLayer.mha2 l))
         (Decoder.dec_layers dec).
Proof.
  unfold Decoder.init. intros H.
  apply bind_ok in H. destruct H as (pe & _ & H).
  apply bind_ok in H. destruct H as (layers & Hlayers & H).
  injection H as <-. cbn [Decoder.dec_layers].
  eapply mapM_Forall; [|exact Hlayers].
  intros k l Hl. cbn beta in Hl. unfold DecoderLayer.init in Hl.
  apply bind_ok in Hl. destruct Hl as (m1 & Hm1 & Hl).
  apply bind_ok in Hl. destruct Hl as (m2 & Hm2 & Hl).
  injection Hl as <-. cbn [DecoderLayer.mha1 DecoderLayer.mha2].
  split; eapply MultiHeadAttention_init_linear; eassumption.
Qed.

(** A dense layer with a softmax on a rank-3 tensor works position by
    position. *)
Lemma Dense_softmax_agree (l : Keras.Dense.t) (x x' : tensor R)
      (b n d' i : nat) :
  Keras.Dense.activation_fn l = Keras.Softmax ->
  shape x = [b; n; d'] -> shape x' = [b; n; d'] ->
  agree_on_entry i n d' x x' ->
  exists y y',
    Keras.Dense.call l x = Ok y /\ Keras.Dense.call l x' = Ok y'
    /\ shape y = [b; n; Keras.Dense.units l]
    /\ shape y' = [b; n; Keras.Dense.units l]
    /\ agree_on_entry i n (Keras.Dense.units l) y y'.
Proof.
  intros Hact Hx Hx' E.
  unfold Keras.Dense.call, rank, Tensor.last_dim, Tensor.softmax,
    Tensor.last_dim.
  rewrite Hx, Hx', Hact.
  cbn [length Nat.leb rev app bind removelast shape].
  eexists. eexists. split; [reflexivity|]. split; [reflexivity|].
  split; [reflexivity|]. split; [reflexivity|].
  intros t c Ht Hc. cbn [elem removelast app last].
  assert (Hz : forall j,
            rsum d' (fun k => (elem x [i; t; k]
                               * Keras.Dense.kernel (Keras.Dense.variables l) k j)%R)
            = rsum d' (fun k => (elem x' [i; t; k]
                                 * Keras.Dense.kernel (Keras.Dense.variables l) k j)%R)).
  { intros j. apply rsum_ext. intros k Hk. now rewrite (E t k Ht Hk). }
  rewrite (Hz c). f_equal.
  apply rsum_ext. intros j _. now rewrite (Hz j).
Qed.

Section DecoderAgree.

Variables d h b : nat.
Hypothesis d_pos : 0 < d.
Hypothesis b_pos : 0 < b.

Lemma DecoderLayer_call_agree
      (self : DecoderLayer.t) (x x' enc_output enc_output' : tensor R)
      (training : bool) (lam lam' pm pm' : option (tensor R))
      (lq lk de i : nat) :
  wf_decoder_layer d h self ->
  linear_projections (DecoderLayer.mha1 self) ->
  linear_projections (DecoderLayer.mha2 self) ->
  shape x = [b; lq; d] -> shape x' = [b; lq; d] ->
  shape enc_output = [b; lk; de] -> shape enc_output' = [b; lk; de] ->
  mask_ok [b; h; lq; lq] lam -> mask_ok [b; h; lq; lq] lam' ->
  masks_agree_on_entry i h lq lq lam lam' ->
  mask_ok [b; h; lq; lk] pm -> mask_ok [b; h; lq; lk] pm' ->
  masks_agree_on_entry i h lq lk pm pm' ->
  i < b ->
  agree_on_entry i lq d x x' ->
  agree_on_entry i lk de enc_output enc_output' ->
  exists y b1 b2 y' b1' b2',
    DecoderLayer.call self x enc_output training lam pm = Ok (y, b1, b2)
    /\ DecoderLayer.call self x' enc_output' training lam' pm'
       = Ok (y', b1', b2')
    /\ shape y = [b; lq; d] /\ shape y' = [b; lq; d]
    /\ agree_on_entry i lq d y y'.
Proof.
  intros (Hm1 & Hm2 & fc & w & Hffn) Hlin1 Hlin2 Hx Hx' Henc Henc'
         Hlam Hlam' Elam Hpm Hpm' Epm Hi E Eenc.
  unfold DecoderLayer.call.
  destruct (@MultiHeadAttention_call_agree d h b d_pos b_pos
              (DecoderLayer.mha1 self) x x x x' x' x' lam lam' lq lq d d d i
              Hm1 Hlin1 Hx Hx Hx Hx' Hx' Hx' Hlam Hlam' Elam Hi E E E)
    as (a1 & w1 & a1' & w1' & Ha1 & Ha1' & Ha1s & Ha1s' & _ & Ea1).
  rewrite Ha1, Ha1'. cbn [bind].
  destruct (@add_agree
              (Keras.Dropout.call (DecoderLayer.dropout1 self) a1 training) x
              (Keras.Dropout.call (DecoderLayer.dropout1 self) a1' training) x'
              b lq d i)
    as (s1 & s1' & Hs1 & Hs1' & Hs1s & Hs1s' & Es1); trivial;
    try (rewrite Dropout_call_shape; assumption).
  { now apply Dropout_call_agree. }
  rewrite Hs1, Hs1'. cbn [bind].
  destruct (@LayerNormalization_call_agree (DecoderLayer.layernorm1 self)
              s1 s1' b lq d i Hs1s Hs1s' Es1)
    as (o1 & o1' & Ho1 & Ho1' & Ho1s & Ho1s' & Eo1).
  rewrite Ho1, Ho1'. cbn [bind].
  destruct (@MultiHeadAttention_call_agree d h b d_pos b_pos
              (DecoderLayer.mha2 self) enc_output enc_output o1
              enc_output' enc_output' o1' pm pm' lq lk d de de i
              Hm2 Hlin2 Ho1s Henc Henc Ho1s' Henc' Henc' Hpm Hpm' Epm Hi
              Eo1 Eenc Eenc)
    as (a2 & w2 & a2' & w2' & Ha2 & Ha2' & Ha2s & Ha2s' & _ & Ea2).
  rewrite Ha2, Ha2'. cbn [bind].
  destruct (@add_agree
              (Keras.Dropout.call (DecoderLayer.dropout2 self) a2 training) o1
              (Keras.Dropout.call (DecoderLayer.dropout2 self) a2' training) o1'
              b lq d i)
    as (s2 & s2' & Hs2 & Hs2' & Hs2s & Hs2s' & Es2); trivial;
    try (rewrite Dropout_call_shape; assumption).
  { now apply Dropout_call_agree. }
  rewrite Hs2, Hs2'. cbn [bind].
  destruct (@LayerNormalization_call_agree (DecoderLayer.layernorm2 self)
              s2 s2' b lq d i Hs2s Hs2s' Es2)
    as (o2 & o2' & Ho2 & Ho2' & Ho2s & Ho2s' & Eo2).
  rewrite Ho2, Ho2'. cbn [bind]. rewrite Hffn.
  destruct (@FullyConnected_call_agree d fc w o2 o2' b lq d i Ho2s Ho2s' Eo2)
    as (f & f' & Hf & Hf' & Hfs & Hfs' & Ef).
  rewrite Hf, Hf'. cbn [bind].
  destruct (@add_agree
              (Keras.Dropout.call (DecoderLayer.dropout3 self) f training) o2
              (Keras.Dropout.call (DecoderLayer.dropout3 self) f' training) o2'
              b lq d i)
    as (s3 & s3' & Hs3 & Hs3' & Hs3s & Hs3s' & Es3); trivial;
    try (rewrite Dropout_call_shape; assumption).
  { now apply Dropout_call_agree. }
  rewrite Hs3, Hs3'. cbn [bind].
  destruct (@LayerNormalization_call_agree (DecoderLayer.layernorm3 self)
              s3 s3' b lq d i Hs3s Hs3s' Es3)
    as (o3 & o3' & Ho3 & Ho3' & Ho3s & Ho3s' & Eo3).
  rewrite Ho3, Ho3'. cbn [bind].
  exists o3, w1, w2, o3', w1', w2'. auto.
Qed.

Lemma decoder_loop_agree (self : Decoder.t)
      (enc_output enc_output' : tensor R) (training : bool)
      (lam lam' pm pm' : option (tensor R)) (lq lk de i : nat) :
  Forall (wf_decoder_layer d h) (Decoder.dec_layers self) ->
  Forall (fun l => linear_projections (DecoderLayer.mha1 l)
                   /\ linear_projections (DecoderLayer.mha2 l))
         (Decoder.dec_layers self) ->
  shape enc_output = [b; lk; de] -> shape enc_output' = [b; lk; de] ->
  mask_ok [b; h; lq; lq] lam -> mask_ok [b; h; lq; lq] lam' ->
  masks_agree_on_entry i h lq lq lam lam' ->
  mask_ok [b; h; lq; lk] pm -> mask_ok [b; h; lq; lk] pm' ->
  masks_agree_on_entry i h lq lk pm pm' ->
  i < b ->
  agree_on_entry i lk de enc_output enc_output' ->
  forall (n start : nat) (x x' : tensor R) (aw aw' : dict (tensor R)),
    start + n <= length (Decoder.dec_layers self) ->
    shape x = [b; lq; d] -> shape x' = [b; lq; d] ->
    agree_on_entry i lq d x x' ->
    exists y aw1 y' aw1',
      for_range_from start n
        (Decoder.layer_step self enc_output training lam pm) (x, aw)
      = Ok (y, aw1)
      /\ for_range_from start n
           (Decoder.layer_step self enc_output' training lam' pm') (x', aw')
         = Ok (y', aw1')
      /\ shape y = [b; lq; d] /\ shape y' = [b; lq; d]
      /\ agree_on_entry i lq d y y'.
Proof.
  intros Hwf Hlin Henc Henc' Hlam Hlam' Elam Hpm Hpm' Epm Hi Eenc.
  induction n as [|n IH]; intros start x x' aw aw' Hlen Hx Hx' E;
    cbn [for_range_from].
  - exists x, aw, x', aw'. auto.
  - unfold Decoder.layer_step at 1 3.
    destruct (@list_get_returns _ (Decoder.dec_layers self) start)
      as (layer & Hlayer & Hin); [lia|].
    rewrite Hlayer. cbn [bind].
    rewrite Forall_forall in Hwf, Hlin.
    destruct (Hlin _ Hin) as (Hlin1 & Hlin2).
    destruct (@DecoderLayer_call_agree layer x x' enc_output enc_output'
                training lam lam' pm pm' lq lk de i (Hwf _ Hin) Hlin1 Hlin2
                Hx Hx' Henc Henc' Hlam Hlam' Elam Hpm Hpm' Epm Hi E Eenc)
      as (x1 & b1 & b2 & x1' & b1' & b2' & Hx1 & Hx1' & Hx1s & Hx1s' & E1).
    rewrite Hx1, Hx1'. cbn [bind].
    apply IH; trivial. lia.
Qed.

Lemma Decoder_call_agree
      (self : Decoder.t) (x x' : tensor Z) (enc_output enc_output' : tensor R)
      (training : bool) (lam lam' pm pm' : option (tensor R))
      (max_pos tlen lk de i : nat) :
  wf_decoder d h max_pos self ->
  Forall (fun l => linear_projections (DecoderLayer.mha1 l)
                   /\ linear_projections (DecoderLayer.mha2 l))
         (Decoder.dec_layers self) ->
  shape x = [b; tlen] -> shape x' = [b; tlen] -> tlen <= max_pos ->
  shape enc_output = [b; lk; de] -> shape enc_output' = [b; lk; de] ->
  mask_ok [b; h; tlen; tlen] lam -> mask_ok [b; h; tlen; tlen] lam' ->
  masks_agree_on_entry i h tlen tlen lam lam' ->
  mask_ok [b; h; tlen; lk] pm -> mask_ok [b; h; tlen; lk] pm' ->
  masks_agree_on_entry i h tlen lk pm pm' ->
  i < b ->
  ids_agree_on_entry i tlen x x' ->
  agree_on_entry i lk de enc_output enc_output' ->
  exists y aw y' aw',
    Decoder.call self x enc_output training lam pm = Ok (y, aw)
    /\ Decoder.call self x' enc_output' training lam' pm' = Ok (y', aw')
    /\ shape y = [b; tlen; d] /\ shape y' = [b; tlen; d]
    /\ agree_on_entry i tlen d y y'.
Proof.
  intros (Hed & Hod & Hpe & Hwf & Hlen) Hlin Hx Hx' Hl Henc Henc'
         Hlam Hlam' Elam Hpm Hpm' Epm Hi E Eenc.
  unfold Decoder.call, Tensor.dim. rewrite Hx, Hx'.
  cbn [list_get nth_error bind].
  destruct (@embedding_stage_agree (Decoder.embedding self)
              (Decoder.pos_encoding self) x x'
              (sqrt (INR (Decoder.embedding_dim self))) b tlen d max_pos i
              Hod Hpe Hx Hx' Hl Hi E)
    as (p & y & y' & Hp & Hy & Hy' & Hys & Hys' & Ey).
  rewrite Hp. cbn [bind]. rewrite Hy, Hy'. cbn [bind].
  unfold for_range.
  apply decoder_loop_agree with (lk := lk) (de := de); trivial.
  - lia.
  - now rewrite Dropout_call_shape.
  - now rewrite Dropout_call_shape.
  - now apply Dropout_call_agree.
Qed.

End DecoderAgree.

(** The padding masks of two batches that agree on sequence [i] act alike
    on the scores of batch entry [i]. *)
Lemma padding_masks_agree (inp inp' : tensor Z) (pm pm' : tensor R)
      (b len h lq i : nat) :
  shape inp = [b; len] -> shape inp' = [b; len] ->
  i < b ->
  ids_agree_on_entry i len inp inp' ->
  create_padding_mask inp = Ok pm ->
  create_padding_mask inp' = Ok pm' ->
  masks_agree_on_entry i h lq len (Some pm) (Some pm').
Proof.
  intros Hs Hs' Hi E Hpm Hpm'.
  destruct (@create_padding_mask_entries inp b len Hs) as (m & Hm & Hms & Hme).
  rewrite Hpm in Hm. injection Hm as <-.
  destruct (@create_padding_mask_entries inp' b len Hs')
    as (m' & Hm' & Hms' & Hme').
  rewrite Hpm' in Hm'. injection Hm' as <-.
  intros a t j Ha Ht Hj. rewrite Hms, Hms'.
  cbn [Tensor.bcast_index combine map skipn fst snd length Nat.sub Nat.eqb].
  rewrite (axis_index_in_range Hi), (axis_index_in_range Hj).
  now rewrite Hme, Hme', (E j Hj).
Qed.

Lemma Transformer_call_agree
      (n d h fc in_vocab tgt_vocab max_in max_tgt : nat) (rate eps : R)
      (w : Transformer.vars) (tr : Transformer.t)
      (inp inp' tar tar' : tensor Z) (training : bool)
      (epm epm' lam lam' dpm dpm' : option (tensor R))
      (b slen tlen i : nat) :
  Transformer.init n d h fc in_vocab tgt_vocab max_in max_tgt rate eps w
  = Ok tr ->
  0 < d -> 0 < b ->
  shape inp = [b; slen] -> shape inp' = [b; slen] -> slen <= max_in ->
  shape tar = [b; tlen] -> shape tar' = [b; tlen] -> tlen <= max_tgt ->
  mask_ok [b; h; slen; slen] epm -> mask_ok [b; h; slen; slen] epm' ->
  masks_agree_on_entry i h slen slen epm epm' ->
  mask_ok [b; h; tlen; tlen] lam -> mask_ok [b; h; tlen; tlen] lam' ->
  masks_agree_on_entry i h tlen tlen lam lam' ->
  mask_ok [b; h; tlen; slen] dpm -> mask_ok [b; h; tlen; slen] dpm' ->
  masks_agree_on_entry i h tlen slen dpm dpm' ->
  i < b ->
  ids_agree_on_entry i slen inp inp' ->
  ids_agree_on_entry i tlen tar tar' ->
  exists out aw out' aw',
    Transformer.call tr inp tar training epm lam dpm = Ok (out, aw)
    /\ Transformer.call tr inp' tar' training epm' lam' dpm' = Ok (out', aw')
    /\ shape out = [b; tlen; tgt_vocab] /\ shape out' = [b; tlen; tgt_vocab]
    /\ agree_on_entry i tlen tgt_vocab out out'.
Proof.
  intros Hinit Hd Hb Hinp Hinp' Hsl Htar Htar' Htl
         Hepm Hepm' Eepm Hlam Hlam' Elam Hdpm Hdpm' Edpm Hi Einp Etar.
  unfold Transformer.init in Hinit.
  apply bind_ok in Hinit. destruct Hinit as (enc & Henc & Hinit).
  apply bind_ok in Hinit. destruct Hinit as (dec & Hdec & Hinit).
  injection Hinit as <-.
  pose proof (Encoder_init_linear _ _ _ _ _ _ _ _ _ Henc) as Hlin_enc.
  pose proof (Decoder_init_linear _ _ _ _ _ _ _ _ _ Hdec) as Hlin_dec.
  apply Encoder_init_wf in Henc. apply Decoder_init_wf in Hdec.
  destruct Hdec as (Hdec & _).
  unfold Transformer.call. cbn [Transformer.encoder Transformer.decoder
                                Transformer.final_layer].
  destruct (@Encoder_call_agree d h b Hd Hb enc inp inp' training epm epm'
              max_in slen i Henc Hlin_enc Hinp Hinp' Hsl Hepm Hepm' Eepm Hi
              Einp)
    as (eo & eo' & He & He' & Hes & Hes' & Eeo).
  rewrite He, He'. cbn [bind].
  destruct (@Decoder_call_agree d h b Hd Hb dec tar tar' eo eo' training
              lam lam' dpm dpm' max_tgt tlen slen d i Hdec Hlin_dec
              Htar Htar' Htl Hes Hes' Hlam Hlam' Elam Hdpm Hdpm' Edpm Hi
              Etar Eeo)
    as (y & aw & y' & aw' & Hy & Hy' & Hys & Hys' & Ey).
  rewrite Hy, Hy'. cbn [bind].
  destruct (@Dense_softmax_agree
              (Keras.Dense.mk tgt_vocab Keras.Softmax
                              (Transformer.final_layer_vars w))
              y y' b tlen d i eq_refl Hys Hys' Ey)
    as (f & f' & Hf & Hf' & Hfs & Hfs' & Ef).
  rewrite Hf, Hf'. cbn [bind].
  exists f, aw, f', aw'. auto.
Qed.

(** X30: the prediction of the Transformer for one pair of sequences does
    not depend on the rest of the batch.  For a Transformer constructed
    from sizes and a rate that Keras accepts and a positive normalisation
    epsilon (in training the dropout rate must be below 1): when two batches
    of inputs and two batches of targets of the same shapes, whose ids all
    lie in their vocabularies, agree on sequence [i], the two calls, each
    with the padding mask of its own input and the look-ahead mask of the
    target length, and with the same dropout draws, return outputs that
    agree on entry [i]. *)
Theorem transformer_batch_independent
        (n d h fc in_vocab tgt_vocab max_in max_tgt : nat) (rate eps : R)
        (w : Transformer.vars) (transformer : Transformer.t)
        (inp inp' tar tar' : tensor Z) (training : bool)
        (b slen tlen i : nat) :
  Transformer.init n d h fc in_vocab tgt_vocab max_in max_tgt rate eps w
  = Ok transformer ->
  keras_accepts d in_vocab rate -> keras_accepts d tgt_vocab rate ->
  dropout_applies training rate ->
  (0 < eps)%R ->
  shape inp = [b; slen] -> shape inp' = [b; slen] -> slen <= max_in ->
  shape tar = [b; tlen] -> shape tar' = [b; tlen] -> tlen <= max_tgt ->
  ids_in_vocabulary in_vocab b slen inp ->
  ids_in_vocabulary in_vocab b slen inp' ->
  ids_in_vocabulary tgt_vocab b tlen tar ->
  ids_in_vocabulary tgt_vocab b tlen tar' ->
  i < b ->
  (forall t, t < slen -> elem inp [i; t] = elem inp' [i; t]) ->
  (forall t, t < tlen -> elem tar [i; t] = elem tar' [i; t]) ->
  exists padding_mask padding_mask' look_ahead_mask
         final_output attention_weights final_output' attention_weights',
    create_padding_mask inp = Ok padding_mask
    /\ create_padding_mask inp' = Ok padding_mask'
    /\ create_look_ahead_mask tlen = Ok look_ahead_mask
    /\ Transformer.call transformer inp tar training
                        (Some padding_mask) (Some look_ahead_mask)
                        (Some padding_mask)
       = Ok (final_output, attention_weights)
    /\ Transformer.call transformer inp' tar' training
                        (Some padding_mask') (Some look_ahead_mask)
                        (Some padding_mask')
       = Ok (final_output', attention_weights')
    /\ forall t c, t < tlen -> c < tgt_vocab ->
         elem final_output [i; t; c] = elem final_output' [i; t; c].
Proof.
  intros Hinit (Hd & _) _ _ _ Hinp Hinp' Hsl Htar Htar' Htl _ _ _ _
    Hi Einp Etar.
  assert (Hb : 0 < b) by lia.
  destruct (@create_padding_mask_entries inp b slen Hinp) as (pm & Hpm & _).
  destruct (@create_padding_mask_entries inp' b slen Hinp')
    as (pm' & Hpm' & _).
  destruct (create_look_ahead_mask_entries tlen) as (lam & Hlam & _).
  destruct (@Transformer_call_agree n d h fc in_vocab tgt_vocab max_in max_tgt
              rate eps w transformer inp inp' tar tar' training
              (Some pm) (Some pm') (Some lam) (Some lam) (Some pm) (Some pm')
              b slen tlen i Hinit Hd Hb Hinp Hinp' Hsl Htar Htar' Htl)
    as (out & aw & out' & aw' & Hcall & Hcall' & _ & _ & E); trivial.
  - exact (@padding_mask_ok inp b slen h slen pm Hinp Hpm).
  - exact (@padding_mask_ok inp' b slen h slen pm' Hinp' Hpm').
  - exact (@padding_masks_agree inp inp' pm pm' b slen h slen i
             Hinp Hinp' Hi Einp Hpm Hpm').
  - exact (@look_ahead_mask_ok tlen b h lam Hlam).
  - exact (@look_ahead_mask_ok tlen b h lam Hlam).
  - apply masks_agree_refl.
  - exact (@padding_mask_ok inp b slen h tlen pm Hinp Hpm).
  - exact (@padding_mask_ok inp' b slen h tlen pm' Hinp' Hpm').
  - exact (@padding_masks_agree inp inp' pm pm' b slen h tlen i
             Hinp Hinp' Hi Einp Hpm Hpm').
  - exists pm, pm', lam, out, aw, out', aw'. auto 10.
Qed.

Lemma transformer_batch_independent_witness :
  exists transformer padding_mask padding_mask' look_ahead_mask
         final_output attention_weights final_output' attention_weights',
    Transformer.init 1 8 2 16 100 120 10 10 0.1 1e-6 example_transformer_vars
    = Ok transformer
    /\ create_padding_mask (of_rows [[3; 1; 4; 0]; [5; 9; 2; 6]]%Z)
       = Ok padding_mask
    /\ create_padding_mask (of_rows [[3; 1; 4; 0]; [7; 0; 0; 0]]%Z)
       = Ok padding_mask'
    /\ create_look_ahead_mask 3 = Ok look_ahead_mask
    /\ Transformer.call transformer
         (of_rows [[3; 1; 4; 0]; [5; 9; 2; 6]]%Z)
         (of_rows [[2; 7; 1]; [8; 2; 8]]%Z) true
         (Some padding_mask) (Some look_ahead_mask) (Some padding_mask)
       = Ok (final_output, attention_weights)
    /\ Transformer.call transformer
         (of_rows [[3; 1; 4; 0]; [7; 0; 0; 0]]%Z)
         (of_rows [[2; 7; 1]; [1; 0; 0]]%Z) true
         (Some padding_mask') (Some look_ahead_mask) (Some padding_mask')
       = Ok (final_output', attention_weights')
    /\ forall t c, t < 3 -> c < 120 ->
         elem final_output [0; t; c] = elem final_output' [0; t; c].
Proof.
  destruct (@Transformer_init_returns 1 8 2 16 100 120 10 10 0.1%R 1e-6%R
              example_transformer_vars) as (tr & Hinit).
  { split; [lia | exists 4; reflexivity]. }
  exists tr.
  destruct (@transformer_batch_independent 1 8 2 16 100 120 10 10
              0.1%R 1e-6%R example_transformer_vars tr
              (of_rows [[3; 1; 4; 0]; [5; 9; 2; 6]]%Z)
              (of_rows [[3; 1; 4; 0]; [7; 0; 0; 0]]%Z)
              (of_rows [[2; 7; 1]; [8; 2; 8]]%Z)
              (of_rows [[2; 7; 1]; [1; 0; 0]]%Z)
              true 2 4 3 0 Hinit)
    as (pm & pm' & lam & out & aw & out' & aw' & Hrun).
  - unfold keras_accepts. split; [lia|]. split; [lia|]. lra.
  - unfold keras_accepts. split; [lia|]. split; [lia|]. lra.
  - intros _. lra.
  - lra.
  - reflexivity.
  - reflexivity.
  - lia.
  - reflexivity.
  - reflexivity.
  - lia.
  - intros i t Hi Ht. destruct i as [|[|i]]; [| |lia];
      (destruct t as [|[|[|[|t]]]]; [| | | |lia]; cbn; lia).
  - intros i t Hi Ht. destruct i as [|[|i]]; [| |lia];
      (destruct t as [|[|[|[|t]]]]; [| | | |lia]; cbn; lia).
  - intros i t Hi Ht. destruct i as [|[|i]]; [| |lia];
      (destruct t as [|[|[|t]]]; [| | |lia]; cbn; lia).
  - intros i t Hi Ht. destruct i as [|[|i]]; [| |lia];
      (destruct t as [|[|[|t]]]; [| | |lia]; cbn; lia).
  - lia.
  - intros t _. reflexivity.
  - intros t _. reflexivity.
  - exists pm, pm', lam, out, aw, out', aw'. split; [exact Hinit | exact Hrun].
Defined.
